(** * Vessel quality check: a shallow embedding of [app.py]

    The development follows the helper functions of [app.py] in the order
    of the file, then [difflib.get_close_matches] (the fuzzy matcher the
    program calls), then [process_vessel_file].

    Conventions of the embedding.
    - Text is a [string] of 8-bit characters.  Case mapping and white space
      are Python's on the ASCII range; characters above 127 are left alone.
    - A Python [float] is a [pyfloat]: NaN, an infinity, or a finite value
      kept as the exact rational it denotes.  Rounding to binary64 is not
      modelled, nor is the sign of zero; overflow to an infinity is.
    - A raised exception is a value [Raise e] of type [outcome]. *)

From Stdlib Require Import ZArith QArith Qabs Ascii String List Bool Lia.
From Stdlib Require Import DecimalString OrdersEx.
From stdpp Require Import base list gmap strings gmultiset.

Local Open Scope string_scope.
Local Open Scope Z_scope.

#[local] Arguments String.append !_ _ / : simpl nomatch.

(** ** Python text *)

Module PyStr.

Definition code (c : ascii) : nat := nat_of_ascii c.

Definition in_range (lo hi : nat) (c : ascii) : bool :=
  (lo <=? code c)%nat && (code c <=? hi)%nat.

(** [str.upper] and [str.lower], character by character. *)
Definition upper_char (c : ascii) : ascii :=
  if in_range 97 122 c then ascii_of_nat (code c - 32) else c.

Definition lower_char (c : ascii) : ascii :=
  if in_range 65 90 c then ascii_of_nat (code c + 32) else c.

Fixpoint map_chars (f : ascii -> ascii) (s : string) : string :=
  match s with
  | EmptyString => EmptyString
  | String c t => String (f c) (map_chars f t)
  end.

Definition upper : string -> string := map_chars upper_char.
Definition lower : string -> string := map_chars lower_char.

(** [needle in hay]. *)
Fixpoint contains (needle hay : string) : bool :=
  match hay with
  | EmptyString => String.prefix needle EmptyString
  | String _ t => String.prefix needle hay || contains needle t
  end.

(** The characters [str.strip()] removes: TAB..CR, FS..US and the space. *)
Definition is_space (c : ascii) : bool :=
  in_range 9 13 c || in_range 28 32 c.

Fixpoint lstrip_with (sp : ascii -> bool) (s : string) : string :=
  match s with
  | EmptyString => EmptyString
  | String c t => if sp c then lstrip_with sp t else s
  end.

Fixpoint rstrip_with (sp : ascii -> bool) (s : string) : string :=
  match s with
  | EmptyString => EmptyString
  | String c t =>
      match rstrip_with sp t with
      | EmptyString => if sp c then EmptyString else String c EmptyString
      | t' => String c t'
      end
  end.

Definition strip_with (sp : ascii -> bool) (s : string) : string :=
  rstrip_with sp (lstrip_with sp s).

Definition strip : string -> string := strip_with is_space.

(** [s.replace(c, "")] for a one-character [c]. *)
Fixpoint remove_char (c : ascii) (s : string) : string :=
  match s with
  | EmptyString => EmptyString
  | String d t => if Ascii.eqb c d then remove_char c t else String d (remove_char c t)
  end.

(** [s.replace(c, d)] for one-character [c] and [d]. *)
Definition replace_char (c d : ascii) : string -> string :=
  map_chars (fun x => if Ascii.eqb c x then d else x).

(** [sep.join(l)]. *)
Definition join (sep : string) (l : list string) : string := String.concat sep l.

(** [bool(s)]: a string is true when it is not empty. *)
Definition truthy (s : string) : bool :=
  match s with EmptyString => false | _ => true end.

(** [str(n)] for an [int]. *)
Definition of_Z (z : Z) : string := NilZero.string_of_int (Z.to_int z).

End PyStr.

(** ** Python floats *)

Inductive pyfloat : Type :=
| Fnan
| Finf (neg : bool)
| Ffin (q : Q).

Module PyFloat.

Definition Qltb (a b : Q) : bool := negb (Qle_bool b a).

(** [x < y] on floats: false as soon as a NaN is involved. *)
Definition lt (x y : pyfloat) : bool :=
  match x, y with
  | Fnan, _ | _, Fnan => false
  | Finf true, Finf true => false
  | Finf true, _ => true
  | _, Finf true => false
  | Finf false, _ => false
  | Ffin _, Finf false => true
  | Ffin a, Ffin b => Qltb a b
  end.

Definition gt (x y : pyfloat) : bool := lt y x.

(** Magnitudes from [2^1024 - 2^970] on round to an infinity. *)
Definition huge : Z := 2 ^ 1024 - 2 ^ 970.

Definition overflows (q : Q) : bool := Qle_bool (inject_Z huge) (Qabs q).

Definition of_Q (q : Q) : pyfloat :=
  if overflows q then Finf (Qltb q 0) else Ffin q.

Definition of_Z (z : Z) : pyfloat := Ffin (inject_Z z).

(** *** The text a [float(...)] call accepts *)

Definition is_digit (c : ascii) : bool := PyStr.in_range 48 57 c.

Definition digit_val (c : ascii) : Z := Z.of_nat (PyStr.code c - 48).

(** An underscore is accepted between two digits only. *)
Fixpoint underscores_ok (prev : option ascii) (s : string) : bool :=
  match s with
  | EmptyString =>
      match prev with Some "_"%char => false | _ => true end
  | String c t =>
      (if Ascii.eqb c "_"
       then match prev with Some p => is_digit p | None => false end
       else match prev with Some "_"%char => is_digit c | _ => true end)
      && underscores_ok (Some c) t
  end.

(** A leading sign: [true] for a minus. *)
Definition take_sign (s : string) : bool * string :=
  match s with
  | String "-" t => (true, t)
  | String "+" t => (false, t)
  | _ => (false, s)
  end.

(** The longest run of digits at the head of [s]: its value on top of [acc],
    how many digits it has, and what follows. *)
Fixpoint take_digits (acc : Z) (s : string) : Z * nat * string :=
  match s with
  | String c t =>
      if is_digit c
      then let '(v, n, r) := take_digits (10 * acc + digit_val c) t in (v, S n, r)
      else (acc, O, s)
  | EmptyString => (acc, O, s)
  end.

(** The exponent part: none, or [e]/[E], a sign and at least one digit, up to
    the end of the text. *)
Definition take_exponent (s : string) : option Z :=
  match s with
  | EmptyString => Some 0
  | String c t =>
      if Ascii.eqb c "e" || Ascii.eqb c "E" then
        let '(neg, t1) := take_sign t in
        match take_digits 0 t1 with
        | (_, O, _) => None
        | (v, _, EmptyString) => Some (if neg then - v else v)
        | _ => None
        end
      else None
  end.

Definition pow10 (e : Z) : Q :=
  if 0 <=? e then inject_Z (10 ^ e) else Qinv (inject_Z (10 ^ (- e))).

(** A decimal numeral: digits, an optional point and digits, with at least
    one digit in all, then the exponent. *)
Definition parse_decimal (neg : bool) (s : string) : option pyfloat :=
  let '(ip, ni, s1) := take_digits 0 s in
  let '(m, nf, s2) :=
    match s1 with
    | String "." t => take_digits ip t
    | _ => (ip, O, s1)
    end in
  match (ni + nf)%nat with
  | O => None
  | _ =>
      match take_exponent s2 with
      | None => None
      | Some e =>
          let q := (inject_Z m * pow10 (e - Z.of_nat nf))%Q in
          Some (of_Q (if neg then Qopp q else q))
      end
  end.

(** The white space [float(s)] itself skips around the numeral: TAB..CR and
    the space. *)
Definition is_cspace (c : ascii) : bool :=
  PyStr.in_range 9 13 c || PyStr.in_range 32 32 c.

(** [float(s)] on text that carries no white space around it. *)
Definition parse (s : string) : option pyfloat :=
  if underscores_ok None s then
    let '(neg, body) := take_sign (PyStr.remove_char "_" s) in
    let low := PyStr.lower body in
    if String.eqb low "inf" || String.eqb low "infinity" then Some (Finf neg)
    else if String.eqb low "nan" then Some Fnan
    else parse_decimal neg body
  else None.

End PyFloat.

(** ** Python values and exceptions *)

(** What a spreadsheet cell holds once pandas has read it: nothing ([None]),
    text, an integer or a float; a blank cell is the float NaN. *)
Inductive scalar : Type :=
| VNone
| VStr (s : string)
| VInt (z : Z)
| VFloat (f : pyfloat).

(** What a lookup by label in a row yields: one cell, or a sub-series of cells
    when the label occurs more than once. *)
Inductive pyobj : Type :=
| Scalar (v : scalar)
| Series (vs : list scalar).

Inductive exn : Type :=
| ValueError
| TypeError
| OverflowError
| IndexError
| KeyError (key : string).

Inductive outcome (A : Type) : Type :=
| Ret (a : A)
| Raise (e : exn).

Arguments Ret {A} a.
Arguments Raise {A} e.

Definition bind {A B : Type} (m : outcome A) (k : A -> outcome B) : outcome B :=
  match m with
  | Ret a => k a
  | Raise e => Raise e
  end.

Notation "x <- m ;; k" := (bind m (fun x => k))
  (at level 100, m at next level, right associativity).

(** [try: body  except: handler], with a bare [except]. *)
Definition try_except {A : Type} (body : outcome A) (handler : outcome A) : outcome A :=
  match body with
  | Ret a => Ret a
  | Raise _ => handler
  end.

(** [pd.notna(x)] on a cell. *)
Definition notna (v : scalar) : bool :=
  match v with
  | VNone => false
  | VFloat Fnan => false
  | _ => true
  end.

(** The builtin [float(x)] on a scalar. *)
Definition float_of_scalar (v : scalar) : outcome pyfloat :=
  match v with
  | VNone => Raise TypeError
  | VStr s =>
      match PyFloat.parse (PyStr.strip_with PyFloat.is_cspace s) with
      | Some f => Ret f
      | None => Raise ValueError
      end
  | VInt z =>
      if PyFloat.overflows (inject_Z z) then Raise OverflowError
      else Ret (PyFloat.of_Z z)
  | VFloat f => Ret f
  end.

(** The builtin [float(x)]; a series converts only when it has one element. *)
Definition py_float (x : pyobj) : outcome pyfloat :=
  match x with
  | Scalar v => float_of_scalar v
  | Series [v] => float_of_scalar v
  | Series _ => Raise TypeError
  end.

(** ** [clean_numeric] and [compare_value] *)

Definition clean_numeric (val : pyobj) : outcome (option pyfloat) :=
  let val :=
    match val with
    | Scalar (VStr s) =>
        Scalar (VStr (PyStr.strip (PyStr.remove_char ">" (PyStr.remove_char "<" s))))
    | _ => val
    end in
  try_except (f <- py_float val ;; Ret (Some f)) (Ret None).

Definition compare_value (test_val : pyfloat) (min_val max_val : option pyfloat) : bool :=
  if match min_val with Some m => PyFloat.lt test_val m | None => false end then false
  else if match max_val with Some m => PyFloat.gt test_val m | None => false end then false
  else true.

(** ** Regular expressions, as far as the program uses them *)

Module Re.

(** The pattern language of the one pattern in the program: literals, a dot
    under a star (greedy or not), sequence and alternation. *)
Inductive re : Type :=
| Lit (s : string)
| DotStar (greedy : bool)
| Seq (r1 r2 : re)
| Alt (r1 r2 : re).

(** The dot matches every character but the newline. *)
Definition dot (c : ascii) : bool := negb (Ascii.eqb c "010").

Fixpoint drop_prefix (p s : string) : option string :=
  match p, s with
  | EmptyString, _ => Some s
  | String a p', String b s' => if Ascii.eqb a b then drop_prefix p' s' else None
  | String _ _, EmptyString => None
  end.

(** The greedy star tries the longest run first and gives back one character
    at a time; the lazy star tries the empty run first. [k] is the rest of
    the match, and answers with what is left of the text. *)
Fixpoint star_greedy (s : string) (k : string -> option string) : option string :=
  match s with
  | EmptyString => k s
  | String c t =>
      if dot c then
        match star_greedy t k with
        | Some r => Some r
        | None => k s
        end
      else k s
  end.

Fixpoint star_lazy (s : string) (k : string -> option string) : option string :=
  match k s with
  | Some r => Some r
  | None =>
      match s with
      | String c t => if dot c then star_lazy t k else None
      | EmptyString => None
      end
  end.

(** Backtracking match of [r] at the head of [s]. *)
Fixpoint match_here (r : re) (s : string) (k : string -> option string) : option string :=
  match r with
  | Lit p => match drop_prefix p s with Some t => k t | None => None end
  | DotStar true => star_greedy s k
  | DotStar false => star_lazy s k
  | Seq r1 r2 => match_here r1 s (fun t => match_here r2 t k)
  | Alt r1 r2 =>
      match match_here r1 s k with
      | Some t => Some t
      | None => match_here r2 s k
      end
  end.

Definition span (s rest : string) : string :=
  String.substring 0 (String.length s - String.length rest) s.

(** [re.search(r, s)]: the match at the leftmost position that has one. *)
Fixpoint search (r : re) (s : string) : option string :=
  match match_here r s Some with
  | Some rest => Some (span s rest)
  | None =>
      match s with
      | EmptyString => None
      | String _ t => search r t
      end
  end.

End Re.

(** ** [extract_product_from_sheetname] *)

(** [(MOGAS.*RON|JET.*FUEL|HSD|DIESEL|HOBC|OCTANE)], with the stars of the
    given kind. *)
Definition product_pattern (greedy : bool) : Re.re :=
  Re.Alt (Re.Seq (Re.Lit "MOGAS") (Re.Seq (Re.DotStar greedy) (Re.Lit "RON")))
 (Re.Alt (Re.Seq (Re.Lit "JET") (Re.Seq (Re.DotStar greedy) (Re.Lit "FUEL")))
 (Re.Alt (Re.Lit "HSD")
 (Re.Alt (Re.Lit "DIESEL")
 (Re.Alt (Re.Lit "HOBC") (Re.Lit "OCTANE"))))).

(** The search of the last branch: the stars of the source pattern are greedy. *)
Definition fallback_search (sheet_upper : string) : option string :=
  Re.search (product_pattern true) sheet_upper.

Definition extract_product_from_sheetname (sheet_name : string) : string :=
  let sheet_upper := PyStr.upper sheet_name in
  if PyStr.contains "MOGAS" sheet_upper then
    if PyStr.contains "92" sheet_upper then "MOGAS 92 RON" else "MOGAS 95 RON"
  else if PyStr.contains "HSD" sheet_upper || PyStr.contains "DIESEL" sheet_upper then "HSD"
  else if PyStr.contains "JET" sheet_upper then "JET FUEL"
  else if PyStr.contains "HOBC" sheet_upper || PyStr.contains "OCTANE" sheet_upper then "HOBC"
  else
    match fallback_search sheet_upper with
    | Some m => PyStr.strip m
    | None => "UNKNOWN"
    end.

(** ** [difflib]: the sequence matcher behind [get_close_matches]

    [get_close_matches(word, possibilities, n, cutoff)] builds one
    [SequenceMatcher] with no junk predicate, sets its second sequence [b] to
    [word] and, for each candidate in turn, its first sequence [a] to the
    candidate.  Positions are counted from 0. *)

Module Difflib.

Local Open Scope nat_scope.

Definition chars (s : string) : list ascii := list_ascii_of_string s.

(** *** [__chain_b] *)

(** [b2j]: for each element of [b], the positions where it occurs, ascending. *)
Fixpoint index_b (i : nat) (b : list ascii) (b2j : gmap ascii (list nat))
  : gmap ascii (list nat) :=
  match b with
  | [] => b2j
  | elt :: t => index_b (S i) t (<[elt := (default [] (b2j !! elt) ++ [i])%list]> b2j)
  end.

(** With 200 elements or more, the elements that occur more than
    [n // 100 + 1] times are dropped from [b2j]. *)
Definition chain_b (b : list ascii) : gmap ascii (list nat) :=
  let b2j := index_b 0 b ∅ in
  let n := length b in
  if (200 <=? n)%nat then
    let ntest := (n / 100 + 1)%nat in
    filter (fun kv : ascii * list nat => (length kv.2 <= ntest)%nat) b2j
  else b2j.

(** No junk predicate is given, so [bjunk] stays empty. *)
Definition isbjunk (_ : ascii) : bool := false.

(** *** [find_longest_match] *)

Record best := Best { besti : nat; bestj : nat; bestsize : nat }.

(** The loop over the positions [j] of [a[i]] in [b].  [j2len] maps [j - 1] to
    the length of the longest match ending with [a[i-1]], [b[j-1]]. *)
Fixpoint scan_js (i blo bhi : nat) (j2len : gmap nat nat) (js : list nat)
    (newj2len : gmap nat nat) (bst : best) : gmap nat nat * best :=
  match js with
  | [] => (newj2len, bst)
  | j :: js' =>
      if (j <? blo)%nat then scan_js i blo bhi j2len js' newj2len bst
      else if (bhi <=? j)%nat then (newj2len, bst)
      else
        let k := S (match j with O => O | S j' => default O (j2len !! j') end) in
        let newj2len := <[j := k]> newj2len in
        let bst := if (bestsize bst <? k)%nat
                   then Best (i + 1 - k) (j + 1 - k) k else bst in
        scan_js i blo bhi j2len js' newj2len bst
  end.

(** The loop over [i] in [range(alo, ahi)], with [n] positions left to go. *)
Fixpoint scan_is (a : list ascii) (b2j : gmap ascii (list nat)) (blo bhi : nat)
    (n i : nat) (j2len : gmap nat nat) (bst : best) : best :=
  match n with
  | O => bst
  | S n' =>
      let js := match a !! i with
                | Some x => default [] (b2j !! x)
                | None => []
                end in
      let '(newj2len, bst) := scan_js i blo bhi j2len js ∅ bst in
      scan_is a b2j blo bhi n' (S i) newj2len bst
  end.

Definition same_at (a b : list ascii) (i j : nat) : bool :=
  match a !! i, b !! j with
  | Some x, Some y => Ascii.eqb x y
  | _, _ => false
  end.

Definition junk_at (b : list ascii) (j : nat) : bool :=
  match b !! j with Some y => isbjunk y | None => false end.

(** The two loops that grow the match to the left: [junk] tells which of them,
    the one over elements that are not junk or the one over junk. *)
Fixpoint extend_left (a b : list ascii) (alo blo : nat) (junk : bool)
    (fuel : nat) (bst : best) : best :=
  match fuel with
  | O => bst
  | S fuel' =>
      if (alo <? besti bst)%nat && (blo <? bestj bst)%nat
         && Bool.eqb (junk_at b (bestj bst - 1)) junk
         && same_at a b (besti bst - 1) (bestj bst - 1)
      then extend_left a b alo blo junk fuel'
             (Best (besti bst - 1) (bestj bst - 1) (bestsize bst + 1))
      else bst
  end.

(** The two loops that grow the match to the right. *)
Fixpoint extend_right (a b : list ascii) (ahi bhi : nat) (junk : bool)
    (fuel : nat) (bst : best) : best :=
  match fuel with
  | O => bst
  | S fuel' =>
      if (besti bst + bestsize bst <? ahi)%nat && (bestj bst + bestsize bst <? bhi)%nat
         && Bool.eqb (junk_at b (bestj bst + bestsize bst)) junk
         && same_at a b (besti bst + bestsize bst) (bestj bst + bestsize bst)
      then extend_right a b ahi bhi junk fuel'
             (Best (besti bst) (bestj bst) (bestsize bst + 1))
      else bst
  end.

(** Each extension loop moves [besti] down, or [besti + bestsize] up, by one
    per turn, so it is over within [ahi] turns. *)
Definition find_longest_match (a b : list ascii) (b2j : gmap ascii (list nat))
    (alo ahi blo bhi : nat) : best :=
  let bst := scan_is a b2j blo bhi (ahi - alo) alo ∅ (Best alo blo 0) in
  let bst := extend_left a b alo blo false ahi bst in
  let bst := extend_right a b ahi bhi false ahi bst in
  let bst := extend_left a b alo blo true ahi bst in
  extend_right a b ahi bhi true ahi bst.

(** *** [get_matching_blocks] *)

Definition range4 : Type := nat * nat * nat * nat.

(** The loop over the queue, whose last element is the head of the list. *)
Fixpoint blocks_loop (a b : list ascii) (b2j : gmap ascii (list nat))
    (fuel : nat) (queue : list range4) (matching_blocks : list best)
  : option (list best) :=
  match queue with
  | [] => Some matching_blocks
  | (alo, ahi, blo, bhi) :: queue' =>
      match fuel with
      | O => None
      | S fuel' =>
          let x := find_longest_match a b b2j alo ahi blo bhi in
          let '(Best i j k) := x in
          match k with
          | O => blocks_loop a b b2j fuel' queue' matching_blocks
          | S _ =>
              let queue1 :=
                if (alo <? i)%nat && (blo <? j)%nat
                then (alo, i, blo, j) :: queue' else queue' in
              let queue2 :=
                if (i + k <? ahi)%nat && (j + k <? bhi)%nat
                then (i + k, ahi, j + k, bhi) :: queue1 else queue1 in
              blocks_loop a b b2j fuel' queue2 (matching_blocks ++ [x])%list
          end
      end
  end.

(** The blocks as the loop finds them.  The method goes on to sort them and to
    merge neighbours, which leaves the sum of their sizes as it is. Every turn
    of the loop either finds a block of at least one element of [a] or drops a
    range, so [2 * len(a) + 1] turns are enough. *)
Definition matching_blocks (a b : list ascii) : option (list best) :=
  blocks_loop a b (chain_b b) (2 * length a + 1)
    [(O, length a, O, length b)] [].

(** *** The three ratios *)

Definition calculate_ratio (matches len : nat) : Q :=
  match len with
  | O => 1%Q
  | _ => ((2 * Z.of_nat matches)%Z # Pos.of_nat len)%Q
  end.

Definition sum_sizes (l : list best) : nat := sum_list (bestsize <$> l).

Definition matches (a b : list ascii) : nat :=
  match matching_blocks a b with
  | Some l => sum_sizes l
  | None => O
  end.

Definition ratio (a b : list ascii) : Q :=
  calculate_ratio (matches a b) (length a + length b).

(** [fullbcount]: how many times each element occurs in [b]. *)
Fixpoint fullbcount (b : list ascii) (cnt : gmap ascii Z) : gmap ascii Z :=
  match b with
  | [] => cnt
  | elt :: t => fullbcount t (<[elt := (default 0 (cnt !! elt) + 1)%Z]> cnt)
  end.

Fixpoint quick_loop (full : gmap ascii Z) (a : list ascii) (avail : gmap ascii Z)
    (matches : nat) : nat :=
  match a with
  | [] => matches
  | elt :: t =>
      let numb := match avail !! elt with
                  | Some n => n
                  | None => default 0%Z (full !! elt)
                  end in
      quick_loop full t (<[elt := (numb - 1)%Z]> avail)
        (if (0 <? numb)%Z then S matches else matches)
  end.

Definition quick_matches (a b : list ascii) : nat :=
  quick_loop (fullbcount b ∅) a ∅ O.

Definition quick_ratio (a b : list ascii) : Q :=
  calculate_ratio (quick_matches a b) (length a + length b).

Definition real_quick_ratio (a b : list ascii) : Q :=
  calculate_ratio (Nat.min (length a) (length b)) (length a + length b).

(** *** [get_close_matches] with [n = 1] *)

Definition Qgeb (x y : Q) : bool := Qle_bool y x.

(** [(s1, x1) > (s2, x2)] on tuples of a score and a string. *)
Definition tuple_gt (p1 p2 : Q * string) : bool :=
  if negb (Qeq_bool p1.1 p2.1) then PyFloat.Qltb p2.1 p1.1
  else String.ltb p2.2 p1.2.

(** [max(it)]: the first of the greatest items. *)
Definition py_max (l : list (Q * string)) : option (Q * string) :=
  match l with
  | [] => None
  | p :: t => Some (fold_left (fun m item => if tuple_gt item m then item else m) t p)
  end.

(** [heapq.nlargest(1, result)]. *)
Definition nlargest1 (l : list (Q * string)) : list (Q * string) :=
  match py_max l with
  | None => []
  | Some p => [p]
  end.

Definition close_enough (word : string) (cutoff : Q) (x : string) : bool :=
  Qgeb (real_quick_ratio (chars x) (chars word)) cutoff
  && Qgeb (quick_ratio (chars x) (chars word)) cutoff
  && Qgeb (ratio (chars x) (chars word)) cutoff.

Fixpoint scored (word : string) (cutoff : Q) (possibilities : list string)
  : list (Q * string) :=
  match possibilities with
  | [] => []
  | x :: t =>
      if close_enough word cutoff x
      then (ratio (chars x) (chars word), x) :: scored word cutoff t
      else scored word cutoff t
  end.

Definition get_close_matches (word : string) (possibilities : list string)
    (cutoff : Q) : outcome (list string) :=
  if negb (Qle_bool 0 cutoff && Qle_bool cutoff 1) then Raise ValueError
  else Ret (snd <$> nlargest1 (scored word cutoff possibilities)).

End Difflib.

(** ** Tables *)

(** A sheet as [read_excel(..., header=None)] returns it: rows of cells. *)
Definition frame : Type := list (list scalar).

(** A frame with labelled columns.  A row shorter than the list of labels
    reads as if blank cells filled it up. *)
Record table := Table { columns : list string; rows : list (list scalar) }.

Definition blank : scalar := VFloat Fnan.

Definition cell_at (row : list scalar) (p : nat) : scalar := default blank (row !! p).

(** The positions at which [label] occurs among the labels, counted from [p]. *)
Fixpoint positions (label : string) (p : nat) (cols : list string) : list nat :=
  match cols with
  | [] => []
  | c :: t =>
      if String.eqb c label then p :: positions label (S p) t
      else positions label (S p) t
  end.

(** [row.get(label, default)] on a row of a frame with labels [cols]: the one
    cell under [label], a sub-series when the label is repeated, [default]
    when it is absent. *)
Definition row_get (cols : list string) (row : list scalar) (label : string)
    (dflt : pyobj) : pyobj :=
  match positions label O cols with
  | [] => dflt
  | [p] => Scalar (cell_at row p)
  | ps => Series (cell_at row <$> ps)
  end.

(** A Python dictionary, in insertion order: assigning to a key that is there
    keeps its place. *)
Fixpoint dict_set {V : Type} (k : string) (v : V) (d : list (string * V))
  : list (string * V) :=
  match d with
  | [] => [(k, v)]
  | (k', v') :: t => if String.eqb k' k then (k, v) :: t else (k', v') :: dict_set k v t
  end.

Fixpoint dict_get {V : Type} (k : string) (d : list (string * V)) : outcome V :=
  match d with
  | [] => Raise (KeyError k)
  | (k', v) :: t => if String.eqb k' k then Ret v else dict_get k t
  end.

(** One line of the per-sheet detail table. *)
Record detail := Detail {
  d_test : string;
  d_hdip : pyfloat;
  d_load : option pyfloat;
  d_min : option pyfloat;
  d_max : option pyfloat;
  d_unit : pyobj;
  d_status : string
}.

(** One line of the summary table. *)
Record summary_row := Summary {
  s_sheet : string;
  s_product : string;
  s_checked : nat;
  s_passed : nat;
  s_failed : nat;
  s_overall : string;
  s_failed_tests : string
}.

(** The running state of the loop over the rows of one sheet. *)
Record tally := Tally {
  passed : nat;
  failed : nat;
  failed_tests : list string;
  detailed_data : list detail
}.

(** [str(x)] for a finite float and for a pandas series are the library's
    renderings; the program only passes them on, so they are left open. *)
Class Renderer := {
  float_repr : Q -> string;
  series_repr : list scalar -> string
}.

Section Engine.

Context {renderer : Renderer}.

Definition str_scalar (v : scalar) : string :=
  match v with
  | VNone => "None"
  | VStr s => s
  | VInt z => PyStr.of_Z z
  | VFloat Fnan => "nan"
  | VFloat (Finf true) => "-inf"
  | VFloat (Finf false) => "inf"
  | VFloat (Ffin q) => float_repr q
  end.

Definition py_str (x : pyobj) : string :=
  match x with
  | Scalar v => str_scalar v
  | Series vs => series_repr vs
  end.

(** *** [find_table_start] *)

Definition row_str (row : list scalar) : string :=
  PyStr.lower (PyStr.join " " (str_scalar <$> List.filter notna row)).

Definition is_header (row : list scalar) : bool :=
  PyStr.contains "description" (row_str row) || PyStr.contains "method" (row_str row).

Fixpoint find_from (i : nat) (df : frame) : option nat :=
  match df with
  | [] => None
  | row :: t => if is_header row then Some i else find_from (S i) t
  end.

Definition find_table_start (df : frame) : option nat := find_from O df.

(** *** [clean_table] *)

Definition clean_label (c : scalar) : string :=
  PyStr.replace_char "010" " " (PyStr.strip (str_scalar c)).

(** [dropna(how="all")] keeps the rows that have a cell which is not NA. *)
Definition some_value (row : list scalar) : bool := existsb notna row.

Definition clean_table (df : frame) : outcome (option table) :=
  match find_table_start df with
  | None => Ret None
  | Some start_row =>
      match drop start_row df with
      | [] => Raise IndexError
      | header :: data =>
          Ret (Some (Table (clean_label <$> header) (List.filter some_value data)))
      end
  end.

(** *** [process_vessel_file] *)

Definition has_words (w1 w2 : string) (c : string) : bool :=
  PyStr.contains w1 (PyStr.lower c) && PyStr.contains w2 (PyStr.lower c).

(** The choice of the two result columns; [None] stands for the [continue]
    that leaves the sheet out. *)
Definition result_columns (cols : list string) : option (string * option string) :=
  let hdip_cols := List.filter (has_words "hdip" "result") cols in
  let load_cols := List.filter (has_words "load" "result") cols in
  match hdip_cols with
  | [] =>
      let possible_cols := List.filter (fun c => PyStr.contains "result" (PyStr.lower c)) cols in
      match possible_cols with
      | c0 :: c1 :: _ => Some (c0, Some c1)
      | [c0] => Some (c0, None)
      | [] => None
      end
  | h :: _ => Some (h, match load_cols with l :: _ => Some l | [] => None end)
  end.

(** [std_df["Parameter"]]: the cells of the column, or a [KeyError]. The
    reader of the standards workbook makes repeated labels distinct, so the
    first position is the column. *)
Definition column (std_df : table) (label : string) : outcome (list scalar) :=
  match positions label O (columns std_df) with
  | [] => Raise (KeyError label)
  | p :: _ => Ret ((fun r => cell_at r p) <$> rows std_df)
  end.

(** [cell == s] for a string [s]. *)
Definition cell_eq_str (c : scalar) (s : string) : bool :=
  match c with
  | VStr t => String.eqb t s
  | _ => false
  end.

(** [std_df[std_df["Parameter"] == name].iloc[0]]. *)
Definition first_row_named (std_df : table) (name : string) : outcome (list scalar) :=
  params <- column std_df "Parameter" ;;
  match List.filter (fun pr : scalar * list scalar => cell_eq_str pr.1 name)
          (zip params (rows std_df)) with
  | [] => Raise IndexError
  | pr :: _ => Ret pr.2
  end.

(** What one turn of the loop over the rows does: [None] for a turn that ends
    without a line of detail, else the line and whether the value is in range. *)
Definition check_row (std_df : table) (cols : list string) (hdip_col : string)
    (load_col : option string) (row : list scalar) : outcome (option (detail * bool)) :=
  let test_name := PyStr.strip (py_str (row_get cols row "Tests Description" (Scalar (VStr "")))) in
  if negb (PyStr.truthy test_name) then Ret None
  else
    hdip_val <- clean_numeric (row_get cols row hdip_col (Scalar VNone)) ;;
    load_val <- match load_col with
                | Some l =>
                    if PyStr.truthy l
                    then clean_numeric (row_get cols row l (Scalar VNone))
                    else Ret None
                | None => Ret None
                end ;;
    params <- column std_df "Parameter" ;;
    match_test <- Difflib.get_close_matches test_name (str_scalar <$> params) (6 # 10) ;;
    match match_test with
    | [] => Ret None
    | m :: _ =>
        std_row <- first_row_named std_df m ;;
        let std_get label dflt := row_get (columns std_df) std_row label dflt in
        min_val <- clean_numeric (std_get "Min" (Scalar VNone)) ;;
        max_val <- clean_numeric (std_get "Max" (Scalar VNone)) ;;
        let unit := std_get "Unit / Remarks" (Scalar (VStr "")) in
        match hdip_val with
        | Some v =>
            if match min_val, max_val with None, None => false | _, _ => true end
            then
              let ok := compare_value v min_val max_val in
              let status := if ok then "PASS" else "FAIL" in
              Ret (Some (Detail test_name v load_val min_val max_val unit status, ok))
            else Ret None
        | None => Ret None
        end
    end.

Definition record_row (t : tally) (r : option (detail * bool)) : tally :=
  match r with
  | None => t
  | Some (d, true) =>
      Tally (passed t + 1) (failed t) (failed_tests t) (detailed_data t ++ [d])%list
  | Some (d, false) =>
      Tally (passed t) (failed t + 1) (failed_tests t ++ [d_test d])%list
        (detailed_data t ++ [d])%list
  end.

Fixpoint rows_loop (std_df : table) (cols : list string) (hdip_col : string)
    (load_col : option string) (rs : list (list scalar)) (t : tally) : outcome tally :=
  match rs with
  | [] => Ret t
  | row :: rs' =>
      r <- check_row std_df cols hdip_col load_col row ;;
      rows_loop std_df cols hdip_col load_col rs' (record_row t r)
  end.

Definition summarize (sheet_name product : string) (t : tally) : summary_row :=
  let overall := if (failed t =? 0)%nat then "PASS" else "FAIL" in
  Summary sheet_name product (passed t + failed t) (passed t) (failed t) overall
    (PyStr.join ", " (failed_tests t)).

(** One turn of the loop over the sheets: [None] for a sheet that is left
    out, else its line of the summary and its lines of detail. *)
Definition process_sheet (std_xls : list (string * table)) (sheet_name : string)
    (raw : frame) : outcome (option (summary_row * list detail)) :=
  tbl <- clean_table raw ;;
  match tbl with
  | None => Ret None
  | Some tbl =>
      let product := extract_product_from_sheetname sheet_name in
      matched <- Difflib.get_close_matches product (fst <$> std_xls) (4 # 10) ;;
      match matched with
      | [] => Ret None
      | key :: _ =>
          std_df <- dict_get key std_xls ;;
          match result_columns (columns tbl) with
          | None => Ret None
          | Some (hdip_col, load_col) =>
              t <- rows_loop std_df (columns tbl) hdip_col load_col (rows tbl)
                     (Tally O O [] []) ;;
              Ret (Some (summarize sheet_name product t, detailed_data t))
          end
      end
  end.

Fixpoint sheets_loop (std_xls : list (string * table)) (sheets : list (string * frame))
    (summary : list summary_row) (detailed_results : list (string * list detail))
  : outcome (list summary_row * list (string * list detail)) :=
  match sheets with
  | [] => Ret (summary, detailed_results)
  | (sheet_name, raw) :: sheets' =>
      r <- process_sheet std_xls sheet_name raw ;;
      match r with
      | None => sheets_loop std_xls sheets' summary detailed_results
      | Some (line, details) =>
          sheets_loop std_xls sheets' (summary ++ [line])%list
            (dict_set sheet_name details detailed_results)
      end
  end.

(** The summary table and the detail tables, before they are written out as a
    workbook. *)
Definition process_vessel_file (vessel_xls : list (string * frame))
    (std_xls : list (string * table))
  : outcome (list summary_row * list (string * list detail)) :=
  sheets_loop std_xls vessel_xls [] [].

End Engine.

(** ** Specification-side definitions *)

(** The search of the classifier's last branch as the specification words it:
    the same pattern with lazy stars. *)
Definition lazy_search (sheet_upper : string) : option string :=
  Re.search (product_pattern false) sheet_upper.


(** The six anchor words of the pattern, which are the keywords of the four
    rules as well. *)
Definition keywords : list string :=
  ["MOGAS"; "JET"; "HSD"; "DIESEL"; "HOBC"; "OCTANE"].

(** No keyword rule fires on the upper-cased name. *)
Definition no_rule (sheet_upper : string) : bool :=
  forallb (fun w => negb (PyStr.contains w sheet_upper)) keywords.

(** What [clean_numeric] returns, as it always returns. *)
Definition to_number (val : pyobj) : option pyfloat :=
  match clean_numeric val with
  | Ret r => r
  | Raise _ => None
  end.

Definition is_fail (d : detail) : bool := String.eqb (d_status d) "FAIL".

Definition is_pass (d : detail) : bool := String.eqb (d_status d) "PASS".

(** The counters of a tally agree with its lines of detail. *)
Definition tally_ok (t : tally) : Prop :=
  passed t = length (List.filter is_pass (detailed_data t))
  /\ failed t = length (List.filter is_fail (detailed_data t))
  /\ failed_tests t = d_test <$> List.filter is_fail (detailed_data t)
  /\ (passed t + failed t = length (detailed_data t))%nat.

Section RowSpec.

Context {renderer : Renderer}.

(** The description of a row, as the loop over the rows reads it. *)
Definition description (cols : list string) (row : list scalar) : string :=
  PyStr.strip (py_str (row_get cols row "Tests Description" (Scalar (VStr "")))).

(** The row of the standards table a data row is held against: none when
    the row has no description, or no parameter is close enough to it. *)
Definition matched_spec (std_df : table) (cols : list string) (row : list scalar)
  : outcome (option (list scalar)) :=
  let test_name := description cols row in
  if negb (PyStr.truthy test_name) then Ret None
  else
    params <- column std_df "Parameter" ;;
    match_test <- Difflib.get_close_matches test_name (str_scalar <$> params) (6 # 10) ;;
    match match_test with
    | [] => Ret None
    | m :: _ => std_row <- first_row_named std_df m ;; Ret (Some std_row)
    end.

(** The secondary measurement of a row. *)
Definition load_value (cols : list string) (load_col : option string)
    (row : list scalar) : option pyfloat :=
  match load_col with
  | Some l => if PyStr.truthy l then to_number (row_get cols row l (Scalar VNone)) else None
  | None => None
  end.

(** A sheet whose turn of the loop reaches the loop over the rows. *)
Definition reaches_rows (std_xls : list (string * table)) (sheet_name : string)
    (raw : frame) (tbl : table) (std_df : table) (hdip_col : string)
    (load_col : option string) : Prop :=
  clean_table raw = Ret (Some tbl)
  /\ (exists key rest,
        Difflib.get_close_matches (extract_product_from_sheetname sheet_name)
          (fst <$> std_xls) (4 # 10) = Ret (key :: rest)
        /\ dict_get key std_xls = Ret std_df)
  /\ result_columns (columns tbl) = Some (hdip_col, load_col).

End RowSpec.

(** *** Sample workbooks *)

(** The examples hold no finite float and no repeated label where the
    program renders a cell as text, so the renderer is never called on them;
    this one makes them closed terms. *)
Definition plain_renderer : Renderer :=
  {| float_repr := fun _ => "0.0"; series_repr := fun _ => "Series" |}.

Definition std_columns : list string := ["Parameter"; "Min"; "Max"; "Unit / Remarks"].

(** A standards workbook with one table, HSD: Flash Point, at least 38. *)
Definition sample_std : list (string * table) :=
  [("HSD", Table std_columns [[VStr "Flash Point"; VInt 38; blank; VStr "C"]])].

(** A vessel report with one sheet and one test, Flash Point, measured 40. *)
Definition sample_frame : frame :=
  [[VStr "Tests Description"; VStr "HDIP Result"]; [VStr "Flash Point"; VStr "40"]].

Definition sample_vessel : list (string * frame) := [("HSD CARGO 1", sample_frame)].

(** A sheet whose only data row has text for a measurement. *)
Definition idle_frame : frame :=
  [[VStr "Tests Description"; VStr "HDIP Result"]; [VStr "Flash Point"; VStr "pending"]].

(** A sheet whose only data row has a description and a blank measurement. *)
Definition unmeasured_frame : frame :=
  [[VStr "Tests Description"; VStr "HDIP Result"]; [VStr "Flash Point"; blank]].

(** A sheet whose only data row has a blank description and a measurement. *)
Definition undescribed_frame : frame :=
  [[VStr "Tests Description"; VStr "HDIP Result"]; [blank; VStr "40"]].

Definition undescribed_vessel : list (string * frame) :=
  [("HSD CARGO 1", undescribed_frame)].

(** Standards with a parameter whose name is close to the word nan. *)
Definition tan_std : list (string * table) :=
  [("HSD", Table std_columns [[VStr "Tan"; VInt 38; blank; VStr "mg"]])].

(** Standards with a row whose parameter cell is blank. *)
Definition gap_std : list (string * table) :=
  [("HSD", Table std_columns
             [[VStr "Flash Point"; VInt 38; blank; VStr "C"];
              [blank; blank; blank; VStr "see note"]])].

(** *** The matcher's invariants *)

Module MatchSpec.

Local Open Scope list_scope.
Local Open Scope nat_scope.

(** [b2j] lists, for an element, positions of [b] that hold it. *)
Definition b2j_sound (b : list ascii) (b2j : gmap ascii (list nat)) : Prop :=
  forall x js j, b2j !! x = Some js -> In j js -> b !! j = Some x.

(** [k] elements of [a] from position [i] on are those of [b] from [j] on. *)
Definition agree (a b : list ascii) (i j k : nat) : Prop :=
  forall t, t < k -> exists x, a !! (i + t) = Some x /\ b !! (j + t) = Some x.

(** A block that lies in the range and matches. *)
Definition block_ok (a b : list ascii) (r : Difflib.range4) (bst : Difflib.best) : Prop :=
  let '(alo, ahi, blo, bhi) := r in
  alo <= Difflib.besti bst /\ Difflib.besti bst + Difflib.bestsize bst <= ahi
  /\ blo <= Difflib.bestj bst /\ Difflib.bestj bst + Difflib.bestsize bst <= bhi
  /\ agree a b (Difflib.besti bst) (Difflib.bestj bst) (Difflib.bestsize bst).

(** A run of [k] matching elements that ends with [a[i]] and [b[j]] and does
    not start before [alo] and [blo]. *)
Definition run_ok (a b : list ascii) (alo blo i j k : nat) : Prop :=
  1 <= k /\ alo + k <= i + 1 /\ blo + k <= j + 1
  /\ agree a b (i + 1 - k) (j + 1 - k) k.

(** Before row [i], the entries of [j2len] are runs that end in row [i - 1]. *)
Definition j2len_ok (a b : list ascii) (alo blo i : nat) (m : gmap nat nat) : Prop :=
  forall j k, m !! j = Some k -> exists i', i = S i' /\ run_ok a b alo blo i' j k.

(** During row [i], the entries of [newj2len] are runs that end in row [i]
    and before [bhi]. *)
Definition newj2len_ok (a b : list ascii) (alo blo bhi i : nat) (m : gmap nat nat) : Prop :=
  forall j k, m !! j = Some k -> j < bhi /\ run_ok a b alo blo i j k.

Definition range_ok (a b : list ascii) (r : Difflib.range4) : Prop :=
  let '(alo, ahi, blo, bhi) := r in
  alo <= ahi /\ ahi <= length a /\ blo <= bhi /\ bhi <= length b.

(** The elements from position [lo] up to [hi]. *)
Definition seg (l : list ascii) (lo hi : nat) : list ascii := take (hi - lo) (drop lo l).

(** A bound on the matches a range can still give, for a measure [mu] of two
    sequences. *)
Definition cap (mu : list ascii -> list ascii -> nat) (a b : list ascii)
    (r : Difflib.range4) : nat :=
  let '(alo, ahi, blo, bhi) := r in mu (seg a alo ahi) (seg b blo bhi).

(** The turns the queue can still take. *)
Definition turns (queue : list Difflib.range4) : nat :=
  sum_list ((fun r : Difflib.range4 => let '(alo, ahi, _, _) := r in 2 * (ahi - alo) + 1) <$> queue).

(** The size of the intersection of two sequences taken as multisets. *)
Definition common (x y : list ascii) : nat :=
  size (list_to_set_disj x ∩ list_to_set_disj y : gmultiset ascii).

Definition shorter (x y : list ascii) : nat := Nat.min (length x) (length y).

(** What [avail] and [fullbcount] say is left of an element. *)
Definition left_of (full avail : gmap ascii Z) (c : ascii) : Z :=
  match avail !! c with
  | Some n => n
  | None => default 0%Z (full !! c)
  end.

End MatchSpec.

(** *** The order on scored candidates *)

Module ScoreOrder.

(** [p] is not after [q]: a smaller score, or the same score and a string
    that is not greater. *)
Definition not_after (p q : Q * string) : Prop :=
  (p.1 < q.1)%Q \/ ((p.1 == q.1)%Q /\ String.leb p.2 q.2 = true).

End ScoreOrder.

(** [c] does not occur in [s]. *)
Fixpoint free_of (c : ascii) (s : string) : bool :=
  match s with
  | EmptyString => true
  | String d t => negb (Ascii.eqb c d) && free_of c t
  end.

(** *** Further notions *)

(** [f] applied to what a computation returns. *)
Definition map_outcome {A B : Type} (f : A -> B) (m : outcome A) : outcome B :=
  match m with
  | Ret a => Ret (f a)
  | Raise e => Raise e
  end.

(** A line of detail with its secondary measurement replaced. *)
Definition with_load (v : option pyfloat) (r : option (detail * bool))
  : option (detail * bool) :=
  match r with
  | Some (d, ok) =>
      Some (Detail (d_test d) (d_hdip d) v (d_min d) (d_max d) (d_unit d) (d_status d), ok)
  | None => None
  end.

(** A standards table that has a Parameter column holding text all through. *)
Definition text_parameters (std_df : table) : Prop :=
  exists params,
    column std_df "Parameter" = Ret params
    /\ forall c, In c params -> exists s, c = VStr s.

(** What a line of the summary and a detail table filed under a name have
    to do with each other. *)
Definition filed (line : summary_row) (entry : string * list detail) : Prop :=
  entry.1 = s_sheet line
  /\ s_product line = extract_product_from_sheetname (s_sheet line)
  /\ s_checked line = length entry.2
  /\ s_passed line = length (List.filter is_pass entry.2)
  /\ s_failed line = length (List.filter is_fail entry.2)
  /\ s_failed_tests line = PyStr.join ", " (d_test <$> List.filter is_fail entry.2).

(** A block of one element or more that lies in the two sequences and
    matches. *)
Definition sound_block (a b : list ascii) (blk : Difflib.best) : Prop :=
  (1 <= Difflib.bestsize blk)%nat
  /\ MatchSpec.block_ok a b (O, length a, O, length b) blk.

(** *** The end of [get_matching_blocks]

    Once the loop over the queue is over, the method sorts the blocks,
    collapses neighbours that touch, and closes the list with a block of
    length zero. *)

(** [x <= y] on blocks taken as tuples [(i, j, size)]. *)
Definition block_leb (x y : Difflib.best) : bool :=
  (Difflib.besti x <? Difflib.besti y)%nat
  || ((Difflib.besti x =? Difflib.besti y)%nat
      && ((Difflib.bestj x <? Difflib.bestj y)%nat
          || ((Difflib.bestj x =? Difflib.bestj y)%nat
              && (Difflib.bestsize x <=? Difflib.bestsize y)%nat))).

Fixpoint insert_block (x : Difflib.best) (l : list Difflib.best) : list Difflib.best :=
  match l with
  | [] => [x]
  | y :: t => if block_leb x y then x :: l else y :: insert_block x t
  end.

(** [matching_blocks.sort()]: the order on the tuples is total, and two
    blocks it does not tell apart are the same block. *)
Definition sort_blocks (l : list Difflib.best) : list Difflib.best :=
  foldr insert_block [] l.

(** The loop that collapses neighbours: [(i1, j1, k1)] is the block to
    compare against, with [k1 = 0] for the dummy it starts with. *)
Fixpoint collapse (i1 j1 k1 : nat) (blocks non_adjacent : list Difflib.best)
  : list Difflib.best :=
  match blocks with
  | [] =>
      match k1 with
      | O => non_adjacent
      | S _ => (non_adjacent ++ [Difflib.Best i1 j1 k1])%list
      end
  | Difflib.Best i2 j2 k2 :: rest =>
      if ((i1 + k1 =? i2) && (j1 + k1 =? j2))%nat
      then collapse i1 j1 (k1 + k2) rest non_adjacent
      else
        collapse i2 j2 k2 rest
          match k1 with
          | O => non_adjacent
          | S _ => (non_adjacent ++ [Difflib.Best i1 j1 k1])%list
          end
  end.

Definition get_matching_blocks (a b : list ascii) : option (list Difflib.best) :=
  match Difflib.matching_blocks a b with
  | Some blocks =>
      Some (collapse O O O (sort_blocks blocks) []
              ++ [Difflib.Best (length a) (length b) O])%list
  | None => None
  end.

(** *** The line a row is due *)


(** Standards whose one parameter is a number, and a sheet with a test of
    that name. *)
Definition numbered_std : list (string * table) :=
  [("HSD", Table std_columns [[VInt 5; VInt 38; blank; VStr "C"]])].

Definition numbered_vessel : list (string * frame) :=
  [("HSD CARGO 1",
    [[VStr "Tests Description"; VStr "HDIP Result"]; [VStr "5"; VStr "40"]])].

(** A sheet with two columns labelled Result. *)
Definition twin_frame : frame :=
  [[VStr "Tests Description"; VStr "Result"; VStr "Result"];
   [VStr "Flash Point"; VStr "40"; VStr "41"]].

(** Standards with the bounds under labels in lower case. *)
Definition unlabelled_std : list (string * table) :=
  [("HSD", Table ["Parameter"; "min"; "max"] [[VStr "Flash Point"; VInt 38; blank]])].

(** * Properties *)

(** ** Text *)

Section TextFacts.

Local Open Scope string_scope.

Lemma prefix_app (p s : string) : String.prefix p (p ++ s) = true.
Proof.
  induction p as [|c p IH]; simpl; [by destruct s|].
  by destruct (ascii_dec c c).
Qed.

Lemma prefix_split (p s : string) :
  String.prefix p s = true -> exists t, s = p ++ t.
Proof.
  revert s; induction p as [|c p IH]; intros s H.
  - by exists s.
  - destruct s as [|d s]; simpl in H; [done|].
    destruct (ascii_dec c d) as [->|]; [|done].
    destruct (IH s H) as [t ->]. by exists t.
Qed.

Lemma append_assoc (a b c : string) : (a ++ b) ++ c = a ++ (b ++ c).
Proof. induction a as [|x a IH]; simpl; congruence. Qed.

(** [contains p s] holds exactly when [p] occurs in [s]. *)
Lemma contains_spec (p s : string) :
  PyStr.contains p s = true <-> exists u v, s = u ++ p ++ v.
Proof.
  split.
  - induction s as [|c s IH]; intros H.
    + destruct p; [by exists "", "" | discriminate].
    + cbn [PyStr.contains] in H. apply orb_true_iff in H as [H|H].
      * apply prefix_split in H as [t Ht]. by exists "", t.
      * destruct (IH H) as (u & v & ->). by exists (String c u), v.
  - intros (u & v & ->). induction u as [|c u IH].
    + cbn [String.append]. destruct (p ++ v) eqn:E.
      * by destruct p.
      * cbn [PyStr.contains]. rewrite <- E. by rewrite prefix_app.
    + cbn [String.append PyStr.contains]. by rewrite IH, orb_true_r.
Qed.

Lemma map_chars_app (f : ascii -> ascii) (a b : string) :
  PyStr.map_chars f (a ++ b) = PyStr.map_chars f a ++ PyStr.map_chars f b.
Proof. induction a as [|x a IH]; simpl; congruence. Qed.

Lemma remove_char_app (c : ascii) (a b : string) :
  PyStr.remove_char c (a ++ b) = PyStr.remove_char c a ++ PyStr.remove_char c b.
Proof.
  induction a as [|x a IH]; simpl; [done|].
  destruct (Ascii.eqb c x); simpl; congruence.
Qed.

Variables sp sp' : ascii -> bool.
Hypothesis sub : forall c, sp c = true -> sp' c = true.

Lemma lstrip_head (s : string) :
  match PyStr.lstrip_with sp' s with
  | String c _ => sp' c = false
  | EmptyString => True
  end.
Proof. induction s as [|c s IH]; simpl; [done|]. by destruct (sp' c) eqn:E; [|simpl]. Qed.

Lemma rstrip_keeps_head (c : ascii) (t : string) :
  sp' c = false -> exists t', PyStr.rstrip_with sp' (String c t) = String c t'.
Proof. intros H. simpl. destruct (PyStr.rstrip_with sp' t); rewrite ?H; eauto. Qed.

Lemma rstrip_sub (s : string) :
  PyStr.rstrip_with sp (PyStr.rstrip_with sp' s) = PyStr.rstrip_with sp' s.
Proof.
  induction s as [|c s IH]; simpl; [done|].
  destruct (PyStr.rstrip_with sp' s) as [|d r] eqn:E.
  - destruct (sp' c) eqn:Ec; simpl; [done|].
    destruct (sp c) eqn:Ec'; [|done]. apply sub in Ec'. congruence.
  - simpl in *. by rewrite IH.
Qed.

(** Stripping a smaller class of characters after a larger one changes
    nothing. *)
Lemma strip_sub (s : string) :
  PyStr.strip_with sp (PyStr.strip_with sp' s) = PyStr.strip_with sp' s.
Proof.
  unfold PyStr.strip_with.
  pose proof (lstrip_head s) as Hh.
  destruct (PyStr.lstrip_with sp' s) as [|c t]; [done|].
  destruct (rstrip_keeps_head c t Hh) as [t' Ht'].
  assert (sp c = false) as Hc.
  { destruct (sp c) eqn:E; [|done]. apply sub in E. congruence. }
  rewrite Ht'. cbn [PyStr.lstrip_with]. rewrite Hc, <- Ht'. apply rstrip_sub.
Qed.

End TextFacts.

Lemma rstrip_snoc (sp : ascii -> bool) (s : string) (c : ascii) :
  sp c = true ->
  PyStr.rstrip_with sp (s ++ String c "") = PyStr.rstrip_with sp s.
Proof.
  intros Hc. induction s as [|d s IH]; simpl.
  - by rewrite Hc.
  - by rewrite IH.
Qed.

Lemma strip_snoc (sp : ascii -> bool) (s : string) (c : ascii) :
  sp c = true ->
  PyStr.strip_with sp (s ++ String c "") = PyStr.strip_with sp s.
Proof.
  intros Hc. unfold PyStr.strip_with. induction s as [|d s IH]; simpl.
  - by rewrite Hc.
  - destruct (sp d); [done|].
    change (String d (s ++ String c "")) with (String d s ++ String c "").
    by apply rstrip_snoc.
Qed.

Lemma strip_cons (sp : ascii -> bool) (s : string) (c : ascii) :
  sp c = true -> PyStr.strip_with sp (String c s) = PyStr.strip_with sp s.
Proof. intros Hc. unfold PyStr.strip_with. simpl. by rewrite Hc. Qed.

Lemma space_not_glyph (c : ascii) :
  PyStr.is_space c = true -> Ascii.eqb "<" c = false /\ Ascii.eqb ">" c = false.
Proof. by destruct c as [[] [] [] [] [] [] [] []]. Qed.

Lemma cspace_is_space (c : ascii) :
  PyFloat.is_cspace c = true -> PyStr.is_space c = true.
Proof. by destruct c as [[] [] [] [] [] [] [] []]. Qed.

(** ** The range evaluator and the numeric normalizer *)

Lemma Qltb_irrefl (q : Q) : PyFloat.Qltb q q = false.
Proof.
  unfold PyFloat.Qltb. apply negb_false_iff, Qle_bool_iff, Qle_refl.
Qed.

Lemma float_lt_irrefl (v : pyfloat) : PyFloat.lt v v = false.
Proof. destruct v as [|[]|q]; simpl; auto using Qltb_irrefl. Qed.

(** C1.  For a value [v] and optional bounds, [compare_value] answers FAIL
    ([false]) exactly when the lower bound is present and [v] is below it, or
    the upper bound is present and [v] is above it, and PASS ([true])
    otherwise: with no bound at all it passes, and a value equal to a bound
    passes.  The five sample evaluations come out as stated. *)
Theorem compare_value_range :
  (forall v mn mx,
      compare_value v mn mx = false <->
      (exists m, mn = Some m /\ PyFloat.lt v m = true) \/
      (exists m, mx = Some m /\ PyFloat.gt v m = true))
  /\ (forall v, compare_value v None None = true)
  /\ (forall v, compare_value v (Some v) None = true
             /\ compare_value v None (Some v) = true
             /\ compare_value v (Some v) (Some v) = true)
  /\ compare_value (Ffin 10) (Some (Ffin 5)) (Some (Ffin 15)) = true
  /\ compare_value (Ffin 5) (Some (Ffin 5)) (Some (Ffin 15)) = true
  /\ compare_value (Ffin (1501 # 100)) (Some (Ffin 5)) (Some (Ffin 15)) = false
  /\ compare_value (Ffin 3) None (Some (Ffin 15)) = true
  /\ compare_value (Ffin 3) (Some (Ffin 5)) None = false.
Proof.
  split; [|split; [|split]].
  - intros v mn mx. unfold compare_value. split.
    + destruct mn as [m|], mx as [m'|];
        repeat match goal with
               | |- context [if ?b then _ else _] => destruct b eqn:?
               end; try discriminate; intros _; eauto.
    + intros [(m & -> & H)|(m & -> & H)]; rewrite H; [done|].
      by destruct mn as [m'|]; [destruct (PyFloat.lt v m')|].
  - done.
  - intros v. unfold compare_value, PyFloat.gt. by rewrite float_lt_irrefl.
  - by vm_compute.
Qed.

Lemma clean_numeric_text (s : string) :
  clean_numeric (Scalar (VStr s)) =
  Ret (PyFloat.parse (PyStr.strip (PyStr.remove_char ">" (PyStr.remove_char "<" s)))).
Proof.
  unfold clean_numeric, py_float, float_of_scalar, PyStr.strip.
  rewrite (strip_sub _ _ cspace_is_space).
  by destruct (PyFloat.parse _).
Qed.

Lemma clean_numeric_total (val : pyobj) : exists r, clean_numeric val = Ret r.
Proof.
  unfold clean_numeric, try_except, bind.
  match goal with |- context [py_float ?x] => destruct (py_float x) end; eauto.
Qed.

(** C5.  [clean_numeric] never raises.  On text it removes every [<] and
    [>], wherever they stand, and the white space at both ends, and parses
    what is left as a decimal numeral: the result is the parsed number, or
    absent when the parse fails.  A number is passed through as a float, and
    [None] gives absent.  The four sample evaluations come out as stated, and
    so do three numerals with an exponent part. *)
Theorem clean_numeric_normalizes :
  (forall val, exists r, clean_numeric val = Ret r)
  /\ (forall s,
        clean_numeric (Scalar (VStr s)) =
        Ret (PyFloat.parse
               (PyStr.strip (PyStr.remove_char ">" (PyStr.remove_char "<" s)))))
  /\ (forall s1 s2,
        clean_numeric (Scalar (VStr (s1 ++ "<" ++ s2))) = clean_numeric (Scalar (VStr (s1 ++ s2)))
        /\ clean_numeric (Scalar (VStr (s1 ++ ">" ++ s2))) = clean_numeric (Scalar (VStr (s1 ++ s2))))
  /\ (forall c s,
        PyStr.is_space c = true ->
        clean_numeric (Scalar (VStr (String c s))) = clean_numeric (Scalar (VStr s))
        /\ clean_numeric (Scalar (VStr (s ++ String c ""))) = clean_numeric (Scalar (VStr s)))
  /\ (forall f, clean_numeric (Scalar (VFloat f)) = Ret (Some f))
  /\ clean_numeric (Scalar VNone) = Ret None
  /\ clean_numeric (Scalar (VStr "<0.05")) = Ret (Some (Ffin (5 # 100)))
  /\ clean_numeric (Scalar (VStr ">0.05")) = Ret (Some (Ffin (5 # 100)))
  /\ clean_numeric (Scalar (VStr "n/a")) = Ret None
  /\ clean_numeric (Scalar (VInt 5)) = Ret (Some (Ffin 5))
  /\ clean_numeric (Scalar (VStr "1e3")) = Ret (Some (Ffin 1000))
  /\ clean_numeric (Scalar (VStr "2.5E-1")) = Ret (Some (Ffin (25 # 100)))
  /\ clean_numeric (Scalar (VStr "1e")) = Ret None.
Proof.
  split; [|split; [|split; [|split; [|split]]]].
  - apply clean_numeric_total.
  - apply clean_numeric_text.
  - intros s1 s2. rewrite !clean_numeric_text, !remove_char_app. by simpl.
  - intros c s Hc. destruct (space_not_glyph c Hc) as [Hlt Hgt].
    rewrite !clean_numeric_text, !remove_char_app.
    cbn [PyStr.remove_char String.append]. rewrite Hlt.
    cbn [PyStr.remove_char String.append]. rewrite Hgt.
    unfold PyStr.strip. by rewrite strip_cons, strip_snoc.
  - done.
  - by vm_compute.
Qed.

(** ** The product classifier *)

Lemma drop_prefix_split (p s t : string) :
  Re.drop_prefix p s = Some t -> s = p ++ t.
Proof.
  revert s; induction p as [|c p IH]; intros s H; simpl in H.
  - by injection H as ->.
  - destruct s as [|d s]; [done|].
    destruct (Ascii.eqb_spec c d) as [->|]; [|done].
    cbn [String.append]. f_equal. by apply IH.
Qed.

Lemma contains_cons (p : string) (c : ascii) (s : string) :
  PyStr.contains p s = true -> PyStr.contains p (String c s) = true.
Proof. intros H. cbn [PyStr.contains]. by rewrite H, orb_true_r. Qed.

Lemma contains_at_head (p s t : string) :
  Re.drop_prefix p s = Some t -> PyStr.contains p s = true.
Proof.
  intros H. apply drop_prefix_split in H as ->.
  apply contains_spec. by exists "", t.
Qed.

(** A match of the pattern starts with one of the six anchor words. *)
Lemma match_starts_with_keyword (g : bool) (s : string) (k : string -> option string) :
  is_Some (Re.match_here (product_pattern g) s k) ->
  exists w, In w keywords /\ PyStr.contains w s = true.
Proof.
  unfold product_pattern. cbn [Re.match_here]. intros [r H].
  repeat match type of H with
         | context [Re.drop_prefix ?w s] =>
             destruct (Re.drop_prefix w s) eqn:?;
             [exists w; split; [simpl; tauto | by eapply contains_at_head]|]
         end.
  discriminate.
Qed.

Lemma search_finds_keyword (g : bool) (s : string) :
  is_Some (Re.search (product_pattern g) s) ->
  exists w, In w keywords /\ PyStr.contains w s = true.
Proof.
  induction s as [|c s IH]; cbn [Re.search]; intros H.
  - destruct (Re.match_here _ "" Some) eqn:E; [|by destruct H].
    eapply match_starts_with_keyword. by rewrite E.
  - destruct (Re.match_here _ (String c s) Some) eqn:E.
    + eapply match_starts_with_keyword. by rewrite E.
    + destruct (IH H) as (w & Hw & Hc). exists w. auto using contains_cons.
Qed.

(** Where no keyword rule fires the search finds nothing, with either kind of
    star. *)
Lemma search_dead (g : bool) (u : string) :
  no_rule u = true -> Re.search (product_pattern g) u = None.
Proof.
  intros H. destruct (Re.search _ u) eqn:E; [|done].
  destruct (search_finds_keyword g u) as (w & Hw & Hc); [by rewrite E|].
  unfold no_rule in H. rewrite forallb_forall in H.
  specialize (H w Hw). by rewrite Hc in H.
Qed.

Lemma no_rule_unfold (u : string) :
  no_rule u =
  negb (PyStr.contains "MOGAS" u) && (negb (PyStr.contains "JET" u)
  && (negb (PyStr.contains "HSD" u) && (negb (PyStr.contains "DIESEL" u)
  && (negb (PyStr.contains "HOBC" u) && (negb (PyStr.contains "OCTANE" u) && true))))).
Proof. reflexivity. Qed.

Lemma extract_unknown (sheet_name : string) :
  no_rule (PyStr.upper sheet_name) = true ->
  extract_product_from_sheetname sheet_name = "UNKNOWN".
Proof.
  intros H. pose proof (search_dead true _ H) as Hs.
  rewrite no_rule_unfold in H. unfold extract_product_from_sheetname.
  repeat match goal with
         | |- context [PyStr.contains ?w ?u] =>
             destruct (PyStr.contains w u); try discriminate
         end.
  cbn. unfold fallback_search. by rewrite Hs.
Qed.

(** C6.  The classifier returns a label for every name.  On the upper-cased
    name the rules apply in order, the first that fires deciding: MOGAS
    (with 92 or not), then HSD or DIESEL, then JET, then HOBC or OCTANE; a
    name on which no rule fires and the pattern finds nothing gets UNKNOWN.
    The label is always one of six.  Names in lower case are classified as
    their upper-case forms are. *)
Theorem classifier_first_match (sheet_name : string) :
  let u := PyStr.upper sheet_name in
  let label := extract_product_from_sheetname sheet_name in
  (PyStr.contains "MOGAS" u = true ->
     label = if PyStr.contains "92" u then "MOGAS 92 RON" else "MOGAS 95 RON")
  /\ (PyStr.contains "MOGAS" u = false ->
      PyStr.contains "HSD" u || PyStr.contains "DIESEL" u = true ->
      label = "HSD")
  /\ (PyStr.contains "MOGAS" u = false ->
      PyStr.contains "HSD" u || PyStr.contains "DIESEL" u = false ->
      PyStr.contains "JET" u = true ->
      label = "JET FUEL")
  /\ (PyStr.contains "MOGAS" u = false ->
      PyStr.contains "HSD" u || PyStr.contains "DIESEL" u = false ->
      PyStr.contains "JET" u = false ->
      PyStr.contains "HOBC" u || PyStr.contains "OCTANE" u = true ->
      label = "HOBC")
  /\ (PyStr.contains "MOGAS" u = false ->
      PyStr.contains "HSD" u || PyStr.contains "DIESEL" u = false ->
      PyStr.contains "JET" u = false ->
      PyStr.contains "HOBC" u || PyStr.contains "OCTANE" u = false ->
      fallback_search u = None ->
      label = "UNKNOWN")
  /\ In label ["MOGAS 92 RON"; "MOGAS 95 RON"; "HSD"; "JET FUEL"; "HOBC"; "UNKNOWN"]
  /\ extract_product_from_sheetname "mogas 92 ron" = "MOGAS 92 RON"
  /\ extract_product_from_sheetname "Diesel cargo 2" = "HSD"
  /\ extract_product_from_sheetname "jet a-1" = "JET FUEL"
  /\ extract_product_from_sheetname "crude oil" = "UNKNOWN".
Proof.
  intros u label. subst label.
  assert (extract_product_from_sheetname "mogas 92 ron" = "MOGAS 92 RON"
          /\ extract_product_from_sheetname "Diesel cargo 2" = "HSD"
          /\ extract_product_from_sheetname "jet a-1" = "JET FUEL"
          /\ extract_product_from_sheetname "crude oil" = "UNKNOWN") as Hsamples
    by (by vm_compute).
  revert Hsamples. generalize (extract_product_from_sheetname "mogas 92 ron")
    (extract_product_from_sheetname "Diesel cargo 2")
    (extract_product_from_sheetname "jet a-1")
    (extract_product_from_sheetname "crude oil").
  intros l1 l2 l3 l4 (-> & -> & -> & ->).
  unfold extract_product_from_sheetname. fold u.
  repeat split.
  - by intros ->.
  - by intros -> ->.
  - by intros -> -> ->.
  - by intros -> -> -> ->.
  - by intros -> -> -> -> ->.
  - destruct (no_rule u) eqn:Hn.
    + pose proof (extract_unknown sheet_name Hn) as Hx.
      unfold extract_product_from_sheetname in Hx. fold u in Hx. rewrite Hx.
      simpl. tauto.
    + rewrite no_rule_unfold in Hn.
      destruct (PyStr.contains "MOGAS" u); [destruct (PyStr.contains "92" u); simpl; tauto|].
      destruct (PyStr.contains "HSD" u); [simpl; tauto|].
      destruct (PyStr.contains "DIESEL" u); [simpl; tauto|].
      destruct (PyStr.contains "JET" u); [simpl; tauto|].
      destruct (PyStr.contains "HOBC" u); [simpl; tauto|].
      destruct (PyStr.contains "OCTANE" u); [simpl; tauto|].
      discriminate.
Qed.

(** The spans of the source pattern are greedy: on a name with two RON the
    search runs to the last one, where lazy spans stop at the first.  Such a
    name holds the word MOGAS, so the first keyword rule fires on it and the
    classifier never hands it to the pattern. *)
Lemma fallback_is_greedy :
  fallback_search "MOGAS RON RON" = Some "MOGAS RON RON"
  /\ lazy_search "MOGAS RON RON" = Some "MOGAS RON"
  /\ extract_product_from_sheetname "MOGAS RON RON" = "MOGAS 95 RON".
Proof. by vm_compute. Qed.





(** ** Text joined with a separator *)

(** A word that sits in [a ++ c ++ b] and has no [c] in it sits in [a] or
    in [b]. *)
Lemma prefix_before_char (c : ascii) (p a b v : string) :
  free_of c p = true -> a ++ String c b = p ++ v -> exists v', a = p ++ v'.
Proof.
  revert a; induction p as [|e p IH]; intros a Hp H.
  - by exists a.
  - cbn [free_of] in Hp. apply andb_true_iff in Hp as [Hce Hp].
    destruct a as [|d a]; cbn [String.append] in H.
    + injection H as -> _. by rewrite Ascii.eqb_refl in Hce.
    + injection H as -> H. destruct (IH a Hp H) as [v' ->]. by exists v'.
Qed.

Lemma occurrence_beside_char (c : ascii) (p a b u v : string) :
  free_of c p = true -> a ++ String c b = u ++ p ++ v ->
  (exists v', a = u ++ p ++ v') \/ (exists u', b = u' ++ p ++ v).
Proof.
  intros Hp. revert a; induction u as [|d u IH]; intros a H.
  - left. cbn [String.append] in *. by eapply prefix_before_char.
  - destruct a as [|d' a]; cbn [String.append] in H.
    + injection H as -> H. right. by exists u.
    + injection H as -> H. destruct (IH a H) as [[v' ->]|[u' ->]].
      * left. by exists v'.
      * right. by exists u'.
Qed.

Lemma contains_beside_char (c : ascii) (p a b : string) :
  free_of c p = true ->
  PyStr.contains p (a ++ String c b) = true ->
  PyStr.contains p a = true \/ PyStr.contains p b = true.
Proof.
  intros Hp H. apply contains_spec in H as (u & v & H).
  destruct (occurrence_beside_char c p a b u v Hp H) as [[v' ->]|[u' ->]];
    [left|right]; apply contains_spec; eauto.
Qed.

Lemma contains_app_l (p a b : string) :
  PyStr.contains p a = true -> PyStr.contains p (a ++ b) = true.
Proof.
  intros H. apply contains_spec in H as (u & v & ->). apply contains_spec.
  exists u, (v ++ b). by rewrite !append_assoc.
Qed.

Lemma contains_app_r (p a b : string) :
  PyStr.contains p b = true -> PyStr.contains p (a ++ b) = true.
Proof.
  intros H. apply contains_spec in H as (u & v & ->). apply contains_spec.
  exists (a ++ u), v. by rewrite !append_assoc.
Qed.

(** A non-empty word without a space sits in a space-joined text exactly
    when it sits in one of the joined pieces. *)
Lemma contains_join (p : string) (l : list string) :
  free_of " " p = true -> p <> "" ->
  PyStr.contains p (PyStr.join " " l) = true <->
  exists x, In x l /\ PyStr.contains p x = true.
Proof.
  intros Hp Hne. unfold PyStr.join. induction l as [|x l IH].
  - split; [|by intros (x & [] & _)].
    cbn. by destruct p.
  - destruct l as [|y l].
    + cbn [String.concat]. split; [intros H; exists x; simpl; auto|].
      by intros (x' & [<-|[]] & H).
    + change (String.concat " " (x :: y :: l))
        with (x ++ String " " (String.concat " " (y :: l))).
      split.
      * intros H. apply (contains_beside_char " ") in H as [H|H]; [| |done].
        -- exists x. simpl; auto.
        -- apply IH in H as (x' & Hx' & H). exists x'. split; [by right|done].
      * intros (x' & [<-|Hx'] & H).
        -- by apply contains_app_l.
        -- apply contains_app_r, (contains_cons p " "), IH. eauto.
Qed.

Lemma lower_join (l : list string) :
  PyStr.lower (PyStr.join " " l) = PyStr.join " " (PyStr.lower <$> l).
Proof.
  unfold PyStr.join, PyStr.lower. induction l as [|x l IH]; [done|].
  destruct l as [|y l]; [done|].
  change (String.concat " " (x :: y :: l))
    with (x ++ String " " (String.concat " " (y :: l))).
  rewrite map_chars_app. cbn [PyStr.map_chars]. rewrite IH. done.
Qed.

(** ** Table discovery *)

Section TableFacts.

Context {renderer : Renderer}.


(** A row is a header row exactly when one of its cells that is not blank
    holds, in any letter case, one of the two words. *)
Lemma is_header_cell (row : list scalar) :
  is_header row = true <->
  exists c, In c row /\ notna c = true /\
    (PyStr.contains "description" (PyStr.lower (str_scalar c)) = true
     \/ PyStr.contains "method" (PyStr.lower (str_scalar c)) = true).
Proof.
  unfold is_header, row_str.
  rewrite lower_join, orb_true_iff, !contains_join by done.
  split.
  - intros [(x & Hx & H)|(x & Hx & H)];
      apply list_elem_of_In, list_elem_of_fmap in Hx as (y & -> & Hy);
      apply list_elem_of_fmap in Hy as (c & -> & Hc);
      apply list_elem_of_In, filter_In in Hc as [Hc Hn]; exists c; auto.
  - intros (c & Hc & Hn & [H|H]); [left|right];
      (exists (PyStr.lower (str_scalar c)); split; [|done]);
      apply list_elem_of_In; do 2 apply list_elem_of_fmap_2;
      by apply list_elem_of_In, filter_In.
Qed.

Lemma find_from_some (df : frame) (i n : nat) :
  find_from i df = Some n ->
  exists k header,
    n = (i + k)%nat /\ df !! k = Some header /\ is_header header = true
    /\ forall j row, (j < k)%nat -> df !! j = Some row -> is_header row = false.
Proof.
  revert i; induction df as [|row df IH]; intros i H; [done|].
  cbn [find_from] in H. destruct (is_header row) eqn:E.
  - injection H as <-. exists O, row. repeat split; [lia|done|lia].
  - destruct (IH _ H) as (k & header & -> & Hk & Hh & Hbefore).
    exists (S k), header. repeat split; [lia|done|done|].
    intros [|j] r Hj Hr; [by injection Hr as <-|].
    apply (Hbefore j); [lia|done].
Qed.

Lemma find_from_none (df : frame) (i : nat) :
  find_from i df = None <-> forall row, In row df -> is_header row = false.
Proof.
  revert i; induction df as [|row df IH]; intros i; cbn [find_from].
  - split; [by intros _ ? []|done].
  - destruct (is_header row) eqn:E.
    + split; [done|]. intros H. rewrite H in E; [done|by left].
    + rewrite IH. split.
      * intros H r [<-|Hr]; auto.
      * intros H r Hr. apply H. by right.
Qed.

(** C4.  [find_table_start] answers with the first row, from the top, whose
    cells that are not blank, joined by spaces and put in lower case, hold
    the word description or the word method; it answers [None] exactly when
    no row does, and then [clean_table] answers [None] as well.  When a
    header row is found, the table takes its labels from that row and its
    rows from the rows below it, in order, less those that are blank all
    through: no row above the header row is in it.  A row is kept when one of
    its cells is not blank. *)
Theorem table_discovery (df : frame) :
  (find_table_start df = None <-> forall row, In row df -> is_header row = false)
  /\ (clean_table df = Ret None <-> find_table_start df = None)
  /\ (forall i, find_table_start df = Some i ->
        exists header,
          df !! i = Some header /\ is_header header = true
          /\ (forall j row, (j < i)%nat -> df !! j = Some row -> is_header row = false)
          /\ clean_table df =
               Ret (Some (Table (clean_label <$> header)
                                (List.filter some_value (drop (S i) df)))))
  /\ (forall row,
        is_header row = true <->
        exists c, In c row /\ notna c = true /\
          (PyStr.contains "description" (PyStr.lower (str_scalar c)) = true
           \/ PyStr.contains "method" (PyStr.lower (str_scalar c)) = true))
  /\ (forall row, some_value row = true <-> exists c, In c row /\ notna c = true).
Proof.
  assert (forall i, find_table_start df = Some i ->
            exists header,
              df !! i = Some header /\ is_header header = true
              /\ (forall j row, (j < i)%nat -> df !! j = Some row -> is_header row = false)
              /\ clean_table df =
                   Ret (Some (Table (clean_label <$> header)
                                    (List.filter some_value (drop (S i) df))))) as Hsome.
  { intros i H. unfold clean_table. rewrite H.
    apply find_from_some in H as (k & header & -> & Hk & Hh & Hbefore).
    exists header. repeat split; [done..|].
    change (0 + k)%nat with k.
    by rewrite (drop_S _ _ _ Hk). }
  split; [apply find_from_none|].
  split; [|split; [done|split; [apply is_header_cell|intros row; apply existsb_exists]]].
  split.
  - destruct (find_table_start df) as [i|] eqn:E; [|done].
    destruct (Hsome i eq_refl) as (header & _ & _ & _ & ->). done.
  - unfold clean_table. by intros ->.
Qed.

End TableFacts.

(** ** The comparison engine *)

Lemma clean_numeric_ret (val : pyobj) : clean_numeric val = Ret (to_number val).
Proof.
  unfold to_number.
  destruct (clean_numeric_total val) as [r ->]. done.
Qed.

Section EngineFacts.

Context {renderer : Renderer}.

(** The line of detail a row gets once its specification row is known. *)
Lemma check_row_matched (std_df : table) (cols : list string) (hdip_col : string)
    (load_col : option string) (row std_row : list scalar) :
  matched_spec std_df cols row = Ret (Some std_row) ->
  check_row std_df cols hdip_col load_col row =
    let min_val := to_number (row_get (columns std_df) std_row "Min" (Scalar VNone)) in
    let max_val := to_number (row_get (columns std_df) std_row "Max" (Scalar VNone)) in
    Ret match to_number (row_get cols row hdip_col (Scalar VNone)) with
        | Some v =>
            if match min_val, max_val with None, None => false | _, _ => true end
            then Some (Detail (description cols row) v (load_value cols load_col row)
                         min_val max_val
                         (row_get (columns std_df) std_row "Unit / Remarks" (Scalar (VStr "")))
                         (if compare_value v min_val max_val then "PASS" else "FAIL"),
                       compare_value v min_val max_val)
            else None
        | None => None
        end.
Proof.
  unfold matched_spec, check_row, load_value. fold (description cols row).
  destruct (negb (PyStr.truthy (description cols row))); [done|].
  rewrite !clean_numeric_ret. cbn [bind].
  assert (match load_col with
          | Some l =>
              if PyStr.truthy l
              then clean_numeric (row_get cols row l (Scalar VNone))
              else Ret None
          | None => Ret None
          end = Ret (load_value cols load_col row)) as ->.
  { unfold load_value. destruct load_col as [l|]; [|done].
    destruct (PyStr.truthy l); [apply clean_numeric_ret|done]. }
  cbn [bind]. destruct (column std_df "Parameter") as [params|]; [|done].
  cbn [bind]. destruct (Difflib.get_close_matches _ _ _) as [[|m ms]|]; [done| |done].
  cbn [bind]. destruct (first_row_named std_df m) as [r|]; [|done].
  cbn [bind]. intros [= ->]. rewrite !clean_numeric_ret. cbn [bind].
  destruct (to_number (row_get cols row hdip_col (Scalar VNone))); [|done].
  by destruct (to_number _), (to_number _).
Qed.

(** A row with no specification row gets no line of detail. *)
Lemma check_row_unmatched (std_df : table) (cols : list string) (hdip_col : string)
    (load_col : option string) (row : list scalar) :
  matched_spec std_df cols row = Ret None ->
  check_row std_df cols hdip_col load_col row = Ret None.
Proof.
  unfold matched_spec, check_row, load_value. fold (description cols row).
  destruct (negb (PyStr.truthy (description cols row))); [done|].
  rewrite !clean_numeric_ret. cbn [bind].
  destruct load_col as [l|]; [destruct (PyStr.truthy l)|];
    rewrite ?clean_numeric_ret; cbn [bind];
    (destruct (column std_df "Parameter") as [params|]; [|done]);
    cbn [bind];
    (destruct (Difflib.get_close_matches _ _ _) as [[|m ms]|]; [done| |done]);
    cbn [bind]; by destruct (first_row_named std_df m).
Qed.

(** Whatever [check_row] returns, it decided it on a specification row or
    for want of one. *)
Lemma check_row_cases (std_df : table) (cols : list string) (hdip_col : string)
    (load_col : option string) (row : list scalar) (r : option (detail * bool)) :
  check_row std_df cols hdip_col load_col row = Ret r ->
  matched_spec std_df cols row = Ret None
  \/ exists std_row, matched_spec std_df cols row = Ret (Some std_row).
Proof.
  unfold matched_spec, check_row. fold (description cols row).
  destruct (negb (PyStr.truthy (description cols row))); [auto|].
  rewrite !clean_numeric_ret. cbn [bind].
  destruct load_col as [l|]; [destruct (PyStr.truthy l)|];
    rewrite ?clean_numeric_ret; cbn [bind];
    (destruct (column std_df "Parameter") as [params|]; [|done]);
    cbn [bind];
    (destruct (Difflib.get_close_matches _ _ _) as [[|m ms]|]; [auto| |done]);
    cbn [bind]; (destruct (first_row_named std_df m); [eauto|done]).
Qed.

Lemma check_row_status (std_df : table) (cols : list string) (hdip_col : string)
    (load_col : option string) (row : list scalar) (d : detail) (ok : bool) :
  check_row std_df cols hdip_col load_col row = Ret (Some (d, ok)) ->
  d_status d = if ok then "PASS" else "FAIL".
Proof.
  intros H. destruct (check_row_cases _ _ _ _ _ _ H) as [Hm|[std_row Hm]].
  - rewrite (check_row_unmatched _ _ _ _ _ Hm) in H. done.
  - rewrite (check_row_matched _ _ _ _ _ _ Hm) in H. cbn zeta in H.
    destruct (to_number (row_get cols row hdip_col (Scalar VNone))); [|done].
    destruct (match to_number _ with None => _ | _ => _ end); [|done].
    by injection H as <- <-.
Qed.

(** What [record_row] does to the counters and to the lines of detail. *)
Lemma record_row_counts (t : tally) (r : option (detail * bool)) :
  let t' := record_row t r in
  (passed t' + failed t'
   = passed t + failed t + match r with Some _ => 1 | None => 0 end)%nat
  /\ detailed_data t' = (detailed_data t ++ match r with Some (d, _) => [d] | None => [] end)%list.
Proof.
  destruct r as [[d []]|]; cbn; repeat split; try lia; by rewrite ?app_nil_r.
Qed.

Lemma record_row_ok (t : tally) (d : detail) (ok : bool) :
  d_status d = (if ok then "PASS" else "FAIL") ->
  tally_ok t -> tally_ok (record_row t (Some (d, ok))).
Proof.
  unfold tally_ok, is_pass, is_fail. intros Hd (Hp & Hf & Hn & Hl).
  destruct ok; cbn [record_row passed failed failed_tests detailed_data];
    rewrite !List.filter_app, !length_app; cbn [List.filter]; rewrite Hd; cbn;
    rewrite ?app_nil_r, ?fmap_app, <- ?Hn; repeat split; cbn; lia || done.
Qed.

Lemma rows_loop_ok (std_df : table) (cols : list string) (hdip_col : string)
    (load_col : option string) (rs : list (list scalar)) (t t' : tally) :
  rows_loop std_df cols hdip_col load_col rs t = Ret t' ->
  tally_ok t -> tally_ok t'.
Proof.
  revert t; induction rs as [|row rs IH]; intros t H Ht; cbn [rows_loop] in H.
  - by injection H as <-.
  - destruct (check_row std_df cols hdip_col load_col row) as [r|] eqn:E; [|done].
    cbn [bind] in H. apply (IH _ H).
    destruct r as [[d ok]|]; [|done].
    apply record_row_ok; [|done]. by eapply check_row_status.
Qed.

Lemma rows_loop_skipped (std_df : table) (cols : list string) (hdip_col : string)
    (load_col : option string) (rs : list (list scalar)) (t : tally) :
  (forall row, In row rs -> check_row std_df cols hdip_col load_col row = Ret None) ->
  rows_loop std_df cols hdip_col load_col rs t = Ret t.
Proof.
  induction rs as [|row rs IH]; intros H; cbn [rows_loop]; [done|].
  rewrite (H row) by (by left). cbn [bind record_row].
  apply IH. intros r Hr. apply H. by right.
Qed.

(** The lines of detail of a sheet are those of its rows that get one, in
    the order of the rows. *)
Lemma rows_loop_details (std_df : table) (cols : list string) (hdip_col : string)
    (load_col : option string) (rs : list (list scalar)) (t t' : tally) :
  rows_loop std_df cols hdip_col load_col rs t = Ret t' ->
  detailed_data t' =
    (detailed_data t ++
     omap (fun row => match check_row std_df cols hdip_col load_col row with
                      | Ret (Some (d, _)) => Some d
                      | _ => None
                      end) rs)%list.
Proof.
  revert t; induction rs as [|row rs IH]; intros t H; cbn [rows_loop] in H.
  - injection H as <-. by rewrite app_nil_r.
  - cbn [omap list_omap].
    destruct (check_row std_df cols hdip_col load_col row) as [r|] eqn:E; [|done].
    cbn [bind] in H. rewrite (IH _ H).
    rewrite (proj2 (record_row_counts t r)).
    destruct r as [[d ok]|]; by rewrite <- ?app_assoc, ?app_nil_r.
Qed.

Lemma tally_ok_init : tally_ok (Tally O O [] []).
Proof. by repeat split. Qed.

(** A sheet that gets a line of the summary gets it from the tally of its
    rows. *)
Lemma process_sheet_line (std_xls : list (string * table)) (sheet_name : string)
    (raw : frame) (line : summary_row) (dets : list detail) :
  process_sheet std_xls sheet_name raw = Ret (Some (line, dets)) ->
  exists t,
    tally_ok t /\ dets = detailed_data t
    /\ line = summarize sheet_name (extract_product_from_sheetname sheet_name) t.
Proof.
  unfold process_sheet.
  destruct (clean_table raw) as [[tbl|]|]; [|done..]. cbn [bind].
  destruct (Difflib.get_close_matches _ _ _) as [[|key ks]|]; [done| |done].
  cbn [bind]. destruct (dict_get key std_xls) as [std_df|]; [|done]. cbn [bind].
  destruct (result_columns (columns tbl)) as [[hdip_col load_col]|]; [|done].
  destruct (rows_loop _ _ _ _ _ _) as [t|] eqn:E; [|done]. cbn [bind].
  intros [= <- <-]. exists t. split; [|done].
  eapply rows_loop_ok; [done|apply tally_ok_init].
Qed.

(** *** The rows that are counted *)







Lemma summarize_invariant (sheet_name product : string) (t : tally) :
  let line := summarize sheet_name product t in
  s_checked line = (s_passed line + s_failed line)%nat
  /\ (s_overall line = "FAIL" <-> (0 < s_failed line)%nat)
  /\ (s_overall line = "PASS" <-> s_failed line = O).
Proof.
  cbn. destruct (failed t) as [|n]; cbn; repeat split; (done || lia).
Qed.

(** The lines of the summary are those of the sheets that get one, in the
    order of the sheets. *)
Lemma sheets_loop_summary (std_xls : list (string * table))
    (sheets : list (string * frame)) (summary summary' : list summary_row)
    (detailed detailed' : list (string * list detail)) :
  sheets_loop std_xls sheets summary detailed = Ret (summary', detailed') ->
  summary' =
    (summary ++
     omap (fun sh : string * frame =>
             match process_sheet std_xls sh.1 sh.2 with
             | Ret (Some (line, _)) => Some line
             | _ => None
             end) sheets)%list.
Proof.
  revert summary detailed; induction sheets as [|[name raw] sheets IH];
    intros summary detailed H; cbn [sheets_loop] in H.
  - injection H as <- _. by rewrite app_nil_r.
  - cbn [omap list_omap fst snd].
    destruct (process_sheet std_xls name raw) as [[[line dets]|]|]; [| |done];
      cbn [bind] in H; rewrite (IH _ _ H); by rewrite <- ?app_assoc.
Qed.

(** C3.  In every line of the summary the number of tests checked is the sum
    of those passed and those failed, and the overall result is FAIL when at
    least one test failed and PASS when none did. *)
Theorem summary_invariant (vessel_xls : list (string * frame))
    (std_xls : list (string * table)) (summary : list summary_row)
    (detailed : list (string * list detail)) (line : summary_row) :
  process_vessel_file vessel_xls std_xls = Ret (summary, detailed) ->
  In line summary ->
  s_checked line = (s_passed line + s_failed line)%nat
  /\ (s_overall line = "FAIL" <-> (0 < s_failed line)%nat)
  /\ (s_overall line = "PASS" <-> s_failed line = O).
Proof.
  unfold process_vessel_file. intros H Hin.
  rewrite (sheets_loop_summary _ _ _ _ _ _ H) in Hin. cbn [app] in Hin.
  apply list_elem_of_In, list_elem_of_omap in Hin as ([name raw] & _ & Hl).
  cbn [fst snd] in Hl.
  destruct (process_sheet std_xls name raw) as [[[line' dets]|]|] eqn:E; [|done..].
  injection Hl as ->.
  destruct (process_sheet_line _ _ _ _ _ E) as (t & _ & _ & ->).
  apply summarize_invariant.
Qed.

Lemma dict_get_set_eq {V : Type} (k : string) (v : V) (d : list (string * V)) :
  dict_get k (dict_set k v d) = Ret v.
Proof.
  induction d as [|[k' v'] d IH]; cbn [dict_set dict_get].
  - by rewrite String.eqb_refl.
  - destruct (String.eqb_spec k' k) as [->|Hne]; cbn [dict_get].
    + by rewrite String.eqb_refl.
    + by destruct (String.eqb_spec k' k).
Qed.

Lemma dict_get_set_ne {V : Type} (k k' : string) (v : V) (d : list (string * V)) :
  k <> k' -> dict_get k' (dict_set k v d) = dict_get k' d.
Proof.
  intros Hne. induction d as [|[k0 v0] d IH]; cbn [dict_set dict_get].
  - by destruct (String.eqb_spec k k').
  - destruct (String.eqb_spec k0 k) as [->|Hne0]; cbn [dict_get].
    + by destruct (String.eqb_spec k k').
    + by rewrite IH.
Qed.

Lemma sheets_loop_other (std_xls : list (string * table))
    (sheets : list (string * frame)) (summary summary' : list summary_row)
    (detailed detailed' : list (string * list detail)) (name : string) :
  sheets_loop std_xls sheets summary detailed = Ret (summary', detailed') ->
  ~ In name (fst <$> sheets) ->
  dict_get name detailed' = dict_get name detailed.
Proof.
  revert summary detailed; induction sheets as [|[n raw] sheets IH];
    intros summary detailed H Hn; cbn [sheets_loop] in H.
  - by injection H as _ <-.
  - cbn in Hn.
    destruct (process_sheet std_xls n raw) as [[[line dets]|]|]; [| |done];
      cbn [bind] in H; rewrite (IH _ _ H) by tauto; [|done].
    apply dict_get_set_ne. tauto.
Qed.

(** With sheet names that differ from one another, the detail table filed
    under a name is the one its sheet got. *)
Lemma sheets_loop_details (std_xls : list (string * table))
    (sheets : list (string * frame)) (summary summary' : list summary_row)
    (detailed detailed' : list (string * list detail))
    (name : string) (raw : frame) (line : summary_row) (dets : list detail) :
  sheets_loop std_xls sheets summary detailed = Ret (summary', detailed') ->
  List.NoDup (fst <$> sheets) ->
  In (name, raw) sheets ->
  process_sheet std_xls name raw = Ret (Some (line, dets)) ->
  dict_get name detailed' = Ret dets.
Proof.
  revert summary detailed; induction sheets as [|[n r] sheets IH];
    intros summary detailed H Hnd Hin Hp; [done|].
  cbn [sheets_loop] in H. cbn in Hnd. apply List.NoDup_cons_iff in Hnd as [Hn Hnd].
  destruct Hin as [[= -> ->]|Hin].
  - rewrite Hp in H. cbn [bind] in H.
    rewrite (sheets_loop_other _ _ _ _ _ _ _ H Hn). apply dict_get_set_eq.
  - destruct (process_sheet std_xls n r) as [[[line' dets']|]|]; [| |done];
      cbn [bind] in H; by eapply IH.
Qed.

(** C10, amended.  A sheet that reaches the loop over its rows and has every
    row skipped there still gets a line of the summary: 0 tests checked, 0
    passed, 0 failed, PASS overall, no failed test named, and an empty detail
    table.  Its overall result, its number of failed tests and its failed
    tests are those of a sheet whose counted tests all passed; the tests
    checked and the tests passed of that other sheet are the number of its
    lines of detail, so the two lines differ there as soon as the other sheet
    has a test. *)
Theorem empty_sheet_passes (std_xls : list (string * table)) (sheet_name : string)
    (raw : frame) (tbl std_df : table) (hdip_col : string) (load_col : option string) :
  reaches_rows std_xls sheet_name raw tbl std_df hdip_col load_col ->
  (forall row, In row (rows tbl) ->
     check_row std_df (columns tbl) hdip_col load_col row = Ret None) ->
  let line :=
    Summary sheet_name (extract_product_from_sheetname sheet_name) 0 0 0 "PASS" "" in
  process_sheet std_xls sheet_name raw = Ret (Some (line, []))
  /\ (forall vessel_xls summary detailed,
        In (sheet_name, raw) vessel_xls ->
        process_vessel_file vessel_xls std_xls = Ret (summary, detailed) ->
        In line summary
        /\ (List.NoDup (fst <$> vessel_xls) -> dict_get sheet_name detailed = Ret []))
  /\ (forall name' raw' line' dets',
        process_sheet std_xls name' raw' = Ret (Some (line', dets')) ->
        (forall d, In d dets' -> d_status d = "PASS") ->
        s_overall line' = s_overall line
        /\ s_failed_tests line' = s_failed_tests line
        /\ s_failed line' = s_failed line
        /\ s_checked line' = length dets'
        /\ s_passed line' = length dets').
Proof.
  intros (Htbl & (key & rest & Hkey & Hstd) & Hcols) Hrows line.
  assert (process_sheet std_xls sheet_name raw = Ret (Some (line, []))) as Hp.
  { unfold process_sheet. rewrite Htbl. cbn [bind]. rewrite Hkey. cbn [bind].
    rewrite Hstd. cbn [bind]. rewrite Hcols.
    by rewrite (rows_loop_skipped _ _ _ _ _ _ Hrows). }
  split; [done|]. split.
  - intros vessel_xls summary detailed Hin H. unfold process_vessel_file in H. split.
    + rewrite (sheets_loop_summary _ _ _ _ _ _ H). cbn [app].
      apply list_elem_of_In, list_elem_of_omap. exists (sheet_name, raw).
      split; [by apply list_elem_of_In|]. cbn [fst snd]. by rewrite Hp.
    + intros Hnd. by eapply sheets_loop_details.
  - intros name' raw' line' dets' H Hpass.
    destruct (process_sheet_line _ _ _ _ _ H) as (t & (Hps & Hf & Hn & Hl) & -> & ->).
    assert (List.filter is_fail (detailed_data t) = []) as Hnone.
    { clear -Hpass. induction (detailed_data t) as [|d l IH]; [done|].
      cbn [List.filter]. unfold is_fail at 1. rewrite (Hpass d) by (by left).
      cbn. apply IH. intros d' Hd'. apply Hpass. by right. }
    rewrite Hnone in Hf, Hn. cbn in Hf, Hn. cbn. rewrite Hf, Hn. cbn.
    repeat split; lia.
Qed.

(** *** Rows without a description *)

(** With no column of that name the description is empty and the row is
    skipped. *)
Lemma no_description_column (std_df : table) (cols : list string) (hdip_col : string)
    (load_col : option string) (row : list scalar) :
  positions "Tests Description" O cols = [] ->
  description cols row = ""
  /\ check_row std_df cols hdip_col load_col row = Ret None.
Proof.
  intros H.
  assert (description cols row = "") as Hd.
  { unfold description, row_get. by rewrite H. }
  split; [done|]. apply check_row_unmatched. unfold matched_spec. by rewrite Hd.
Qed.

(** A description cell with white space only is skipped as well. *)
Lemma empty_description_text (std_df : table) (cols : list string) (hdip_col : string)
    (load_col : option string) (row : list scalar) (p : nat) (s : string) :
  positions "Tests Description" O cols = [p] ->
  cell_at row p = VStr s -> PyStr.strip s = "" ->
  check_row std_df cols hdip_col load_col row = Ret None.
Proof.
  intros Hp Hc Hs. apply check_row_unmatched. unfold matched_spec, description, row_get.
  rewrite Hp, Hc. cbn [py_str str_scalar]. by rewrite Hs.
Qed.

(** A blank description cell reads as the text nan, which is not empty: the
    test on the description lets the row through. *)
Lemma blank_description_reads_nan (cols : list string) (row : list scalar) (p : nat) :
  positions "Tests Description" O cols = [p] ->
  cell_at row p = blank ->
  description cols row = "nan" /\ PyStr.truthy (description cols row) = true.
Proof.
  intros Hp Hc. unfold description, row_get. rewrite Hp, Hc. by vm_compute.
Qed.

(** C8, at the failing input.  The one data row of the sheet has a blank
    description cell.  Against standards that hold the parameter Tan, the
    row is not skipped: it gets a line of detail under the name nan and is
    counted as a passed test.  Against standards that hold a row with a blank
    parameter cell, the run ends with an [IndexError]. *)
Theorem blank_description_not_skipped :
  process_vessel_file undescribed_vessel tan_std =
    Ret ([Summary "HSD CARGO 1" "HSD" 1 1 0 "PASS" ""],
         [("HSD CARGO 1",
           [Detail "nan" (Ffin 40) None (Some (Ffin 38)) (Some Fnan)
              (Scalar (VStr "mg")) "PASS"])])
  /\ process_vessel_file undescribed_vessel gap_std = Raise IndexError.
Proof. by vm_compute. Qed.

(** A blank measurement reads as NaN, which is a float: the row gets a line
    of detail, and as no comparison with a NaN holds, it is counted as
    passed. *)
Lemma blank_measurement_passes :
  process_vessel_file [("HSD CARGO 1", unmeasured_frame)] sample_std =
    Ret ([Summary "HSD CARGO 1" "HSD" 1 1 0 "PASS" ""],
         [("HSD CARGO 1",
           [Detail "Flash Point" Fnan None (Some (Ffin 38)) (Some Fnan)
              (Scalar (VStr "C")) "PASS"])]).
Proof. by vm_compute. Qed.

End EngineFacts.

(** ** The engine on the sample workbooks *)



(** The end-to-end example: one test checked, one passed, none failed. *)
Lemma sample_run :
  process_vessel_file (renderer := plain_renderer) sample_vessel sample_std =
    Ret ([Summary "HSD CARGO 1" "HSD" 1 1 0 "PASS" ""],
         [("HSD CARGO 1",
           [Detail "Flash Point" (Ffin 40) None (Some (Ffin 38)) (Some Fnan)
              (Scalar (VStr "C")) "PASS"])]).
Proof. by vm_compute. Qed.

Lemma summary_invariant_witness :
  s_checked (Summary "HSD CARGO 1" "HSD" 1 1 0 "PASS" "") = (1 + 0)%nat
  /\ ("PASS" = "FAIL" <-> (0 < 0)%nat)
  /\ ("PASS" = "PASS" <-> O = O).
Proof.
  exact (summary_invariant (renderer := plain_renderer) sample_vessel sample_std _ _
           (Summary "HSD CARGO 1" "HSD" 1 1 0 "PASS" "") sample_run (or_introl eq_refl)).
Defined.

Lemma idle_reaches_rows :
  reaches_rows (renderer := plain_renderer) sample_std "HSD CARGO 2" idle_frame
    (Table ["Tests Description"; "HDIP Result"] [[VStr "Flash Point"; VStr "pending"]])
    (Table std_columns [[VStr "Flash Point"; VInt 38; blank; VStr "C"]])
    "HDIP Result" None.
Proof.
  split; [by vm_compute|]. split; [|by vm_compute].
  exists "HSD", []. by vm_compute.
Qed.

Lemma empty_sheet_passes_witness :
  process_sheet (renderer := plain_renderer) sample_std "HSD CARGO 2" idle_frame =
    Ret (Some (Summary "HSD CARGO 2" "HSD" 0 0 0 "PASS" "", [])).
Proof.
  refine (proj1 (empty_sheet_passes (renderer := plain_renderer) sample_std
                   "HSD CARGO 2" idle_frame _ _ _ _ idle_reaches_rows _)).
  intros row [<-|[]]. by vm_compute.
Defined.

(** A sheet of one test, with its row skipped and with its test passed: the
    two lines of the summary agree in the overall result and differ in the
    tests checked and the tests passed, so the summary tells the two sheets
    apart. *)
Lemma empty_sheet_told_apart :
  process_sheet (renderer := plain_renderer) sample_std "HSD CARGO 1" idle_frame =
    Ret (Some (Summary "HSD CARGO 1" "HSD" 0 0 0 "PASS" "", []))
  /\ process_sheet (renderer := plain_renderer) sample_std "HSD CARGO 1" sample_frame =
       Ret (Some (Summary "HSD CARGO 1" "HSD" 1 1 0 "PASS" "",
                  [Detail "Flash Point" (Ffin 40) None (Some (Ffin 38)) (Some Fnan)
                     (Scalar (VStr "C")) "PASS"]))
  /\ (s_checked (Summary "HSD CARGO 1" "HSD" 0 0 0 "PASS" "")
       =? s_checked (Summary "HSD CARGO 1" "HSD" 1 1 0 "PASS" ""))%nat = false
  /\ (s_passed (Summary "HSD CARGO 1" "HSD" 0 0 0 "PASS" "")
       =? s_passed (Summary "HSD CARGO 1" "HSD" 1 1 0 "PASS" ""))%nat = false.
Proof. by vm_compute. Qed.

(** ** The fuzzy matcher *)

Section MatcherFacts.

Import MatchSpec.
Local Open Scope list_scope.
Local Open Scope nat_scope.

Context (a b : list ascii).

Lemma index_b_sound (pre rest : list ascii) (b2j : gmap ascii (list nat)) :
  b2j_sound (pre ++ rest) b2j ->
  b2j_sound (pre ++ rest) (Difflib.index_b (length pre) rest b2j).
Proof.
  revert pre b2j; induction rest as [|elt rest IH]; intros pre b2j H; [done|].
  cbn [Difflib.index_b].
  replace (pre ++ elt :: rest) with ((pre ++ [elt]) ++ rest) in * by by rewrite <- app_assoc.
  replace (S (length pre)) with (length (pre ++ [elt])) by (rewrite length_app; cbn; lia).
  apply IH. intros x js j Hx Hj.
  destruct (decide (elt = x)) as [->|Hne].
  - rewrite lookup_insert_eq in Hx. injection Hx as <-.
    apply in_app_or in Hj as [Hj|[<-|[]]].
    + destruct (b2j !! x) as [js|] eqn:E; [|done]. by apply (H x js).
    + rewrite <- app_assoc. cbn [app]. by apply list_lookup_middle.
  - rewrite lookup_insert_ne in Hx by done. by apply (H x js).
Qed.

Lemma chain_b_sound : b2j_sound b (Difflib.chain_b b).
Proof.
  assert (b2j_sound b (Difflib.index_b 0 b ∅)) as H.
  { apply (index_b_sound [] b). by intros x js j Hx. }
  unfold Difflib.chain_b. destruct (200 <=? length b); [|done].
  intros x js j Hx. apply map_lookup_filter_Some in Hx as [Hx _]. by apply (H x js).
Qed.

Lemma run_single (alo blo i j : nat) (x : ascii) :
  a !! i = Some x -> b !! j = Some x -> alo <= i -> blo <= j ->
  run_ok a b alo blo i j 1.
Proof.
  intros Ha Hb Hi Hj. repeat split; try lia. intros t Ht. exists x.
  by replace (i + 1 - 1 + t) with i by lia; replace (j + 1 - 1 + t) with j by lia.
Qed.

Lemma run_extend (alo blo i j k : nat) (x : ascii) :
  run_ok a b alo blo i j k -> a !! S i = Some x -> b !! S j = Some x ->
  run_ok a b alo blo (S i) (S j) (S k).
Proof.
  intros (Hk & Hi & Hj & Hag) Ha Hb. repeat split; try lia. intros t Ht.
  destruct (decide (t = k)) as [->|Hne].
  - exists x.
    by replace (S i + 1 - S k + k) with (S i) by lia;
       replace (S j + 1 - S k + k) with (S j) by lia.
  - destruct (Hag t) as (y & Hy & Hy'); [lia|]. exists y.
    by replace (S i + 1 - S k + t) with (i + 1 - k + t) by lia;
       replace (S j + 1 - S k + t) with (j + 1 - k + t) by lia.
Qed.

Lemma run_block (alo ahi blo bhi i j k : nat) :
  run_ok a b alo blo i j k -> i < ahi -> j < bhi ->
  block_ok a b (alo, ahi, blo, bhi) (Difflib.Best (i + 1 - k) (j + 1 - k) k).
Proof. intros (Hk & Hi & Hj & Hag) Hia Hjb. cbn. repeat split; (lia || done). Qed.

Lemma scan_js_ok (alo ahi blo bhi i : nat) (x : ascii) (j2len : gmap nat nat)
    (js : list nat) (newj2len : gmap nat nat) (bst : Difflib.best) :
  a !! i = Some x -> (forall j, In j js -> b !! j = Some x) ->
  alo <= i -> i < ahi ->
  j2len_ok a b alo blo i j2len ->
  newj2len_ok a b alo blo bhi i newj2len ->
  block_ok a b (alo, ahi, blo, bhi) bst ->
  newj2len_ok a b alo blo bhi i (Difflib.scan_js i blo bhi j2len js newj2len bst).1
  /\ block_ok a b (alo, ahi, blo, bhi) (Difflib.scan_js i blo bhi j2len js newj2len bst).2.
Proof.
  intros Ha Hjs Hlo Hhi Hold. revert newj2len bst.
  induction js as [|j js IH]; intros newj2len bst Hnew Hb; [done|].
  cbn [Difflib.scan_js].
  assert (forall j', In j' js -> b !! j' = Some x) as Hjs' by (intros; apply Hjs; by right).
  destruct (Nat.ltb_spec j blo) as [Hjlo|Hjlo]; [by apply IH|].
  destruct (Nat.leb_spec bhi j) as [Hjhi|Hjhi]; [done|].
  set (k := S (match j with O => O | S j' => default O (j2len !! j') end)).
  assert (run_ok a b alo blo i j k) as Hrun.
  { pose proof (Hjs j (or_introl eq_refl)) as Hbj. subst k.
    destruct j as [|j']; [by apply (run_single _ _ _ _ x)|].
    destruct (j2len !! j') as [k'|] eqn:E; cbn [default];
      [|by apply (run_single _ _ _ _ x)].
    destruct (Hold j' k' E) as (i' & -> & Hrun). by apply (run_extend _ _ _ _ _ x). }
  apply IH; [done| |].
  - intros j0 k0 H0. destruct (decide (j = j0)) as [<-|Hne].
    + rewrite lookup_insert_eq in H0. by injection H0 as <-.
    + rewrite lookup_insert_ne in H0 by done. by apply Hnew.
  - destruct (Difflib.bestsize bst <? k); [|done]. by apply run_block.
Qed.

Lemma scan_is_ok (b2j : gmap ascii (list nat)) (alo ahi blo bhi n i : nat)
    (j2len : gmap nat nat) (bst : Difflib.best) :
  b2j_sound b b2j -> alo <= i -> i + n <= ahi ->
  j2len_ok a b alo blo i j2len ->
  block_ok a b (alo, ahi, blo, bhi) bst ->
  block_ok a b (alo, ahi, blo, bhi) (Difflib.scan_is a b2j blo bhi n i j2len bst).
Proof.
  intros Hs. revert i j2len bst.
  induction n as [|n IH]; intros i j2len bst Hlo Hhi Hold Hb; [done|].
  cbn [Difflib.scan_is].
  destruct (Difflib.scan_js i blo bhi j2len _ ∅ bst) as [newj2len bst'] eqn:E.
  assert (newj2len_ok a b alo blo bhi i newj2len
          /\ block_ok a b (alo, ahi, blo, bhi) bst') as [Hnew Hb'].
  { destruct (a !! i) as [x|] eqn:Ha.
    - pose proof (scan_js_ok alo ahi blo bhi i x j2len (default [] (b2j !! x)) ∅ bst)
        as H. rewrite E in H. apply H; try done; try lia.
      intros j Hj. destruct (b2j !! x) as [js|] eqn:Ex; [|done]. by apply (Hs x js).
    - cbn in E. by injection E as <- <-. }
  apply IH; [lia..| |done].
  intros j k Hjk. exists i. split; [done|]. by apply Hnew.
Qed.

Lemma same_at_spec (i j : nat) :
  Difflib.same_at a b i j = true -> exists x, a !! i = Some x /\ b !! j = Some x.
Proof.
  unfold Difflib.same_at. destruct (a !! i) as [x|], (b !! j) as [y|]; try done.
  destruct (Ascii.eqb_spec x y) as [->|]; [eauto|done].
Qed.

Lemma extend_left_ok (alo ahi blo bhi : nat) (junk : bool) (fuel : nat)
    (bst : Difflib.best) :
  block_ok a b (alo, ahi, blo, bhi) bst ->
  block_ok a b (alo, ahi, blo, bhi) (Difflib.extend_left a b alo blo junk fuel bst).
Proof.
  revert bst; induction fuel as [|fuel IH]; intros bst Hb; [done|].
  cbn [Difflib.extend_left].
  destruct (Nat.ltb_spec alo (Difflib.besti bst)) as [Hi|]; [|done].
  destruct (Nat.ltb_spec blo (Difflib.bestj bst)) as [Hj|]; [|done].
  destruct (Bool.eqb _ junk); [|done]. cbn [andb].
  destruct (Difflib.same_at a b _ _) eqn:E; [|done].
  apply IH. destruct bst as [i j k]. cbn in *.
  destruct Hb as (H1 & H2 & H3 & H4 & Hag). repeat split; try lia.
  intros [|t] Ht.
  - apply same_at_spec in E. by rewrite !Nat.add_0_r.
  - destruct (Hag t) as (y & Hy & Hy'); [lia|]. exists y.
    by replace (i - 1 + S t) with (i + t) by lia;
       replace (j - 1 + S t) with (j + t) by lia.
Qed.

Lemma extend_right_ok (alo ahi blo bhi : nat) (junk : bool) (fuel : nat)
    (bst : Difflib.best) :
  block_ok a b (alo, ahi, blo, bhi) bst ->
  block_ok a b (alo, ahi, blo, bhi) (Difflib.extend_right a b ahi bhi junk fuel bst).
Proof.
  revert bst; induction fuel as [|fuel IH]; intros bst Hb; [done|].
  cbn [Difflib.extend_right].
  destruct (Nat.ltb_spec (Difflib.besti bst + Difflib.bestsize bst) ahi) as [Hi|]; [|done].
  destruct (Nat.ltb_spec (Difflib.bestj bst + Difflib.bestsize bst) bhi) as [Hj|]; [|done].
  destruct (Bool.eqb _ junk); [|done]. cbn [andb].
  destruct (Difflib.same_at a b _ _) eqn:E; [|done].
  apply IH. destruct bst as [i j k]. cbn in *.
  destruct Hb as (H1 & H2 & H3 & H4 & Hag). repeat split; try lia.
  intros t Ht. destruct (decide (t = k)) as [->|Hne].
  - by apply same_at_spec in E.
  - apply Hag. lia.
Qed.

(** The extension loops are over before the turns they are given run out:
    more turns change nothing. *)
Lemma extend_left_enough (alo blo : nat) (junk : bool) (fuel n : nat)
    (bst : Difflib.best) :
  Difflib.besti bst <= fuel ->
  Difflib.extend_left a b alo blo junk (fuel + n) bst
  = Difflib.extend_left a b alo blo junk fuel bst.
Proof.
  revert bst; induction fuel as [|fuel IH]; intros bst H.
  - destruct n as [|n]; [done|]. cbn [Nat.add Difflib.extend_left].
    by destruct (Nat.ltb_spec alo (Difflib.besti bst)) as [Hi|]; [lia|].
  - cbn [Nat.add Difflib.extend_left].
    destruct (_ && _ && _ && _); [|done]. apply IH. cbn. lia.
Qed.

Lemma extend_right_enough (ahi bhi : nat) (junk : bool) (fuel n : nat)
    (bst : Difflib.best) :
  ahi <= Difflib.besti bst + Difflib.bestsize bst + fuel ->
  Difflib.extend_right a b ahi bhi junk (fuel + n) bst
  = Difflib.extend_right a b ahi bhi junk fuel bst.
Proof.
  revert bst; induction fuel as [|fuel IH]; intros bst H.
  - destruct n as [|n]; [done|]. cbn [Nat.add Difflib.extend_right].
    by destruct (Nat.ltb_spec (Difflib.besti bst + Difflib.bestsize bst) ahi)
      as [Hi|]; [lia|].
  - cbn [Nat.add Difflib.extend_right].
    destruct (_ && _ && _ && _); [|done]. apply IH. cbn. lia.
Qed.

(** The block [find_longest_match] returns lies in the range it was asked
    about, and matches. *)
Lemma find_longest_match_ok (b2j : gmap ascii (list nat)) (alo ahi blo bhi : nat) :
  b2j_sound b b2j -> alo <= ahi -> blo <= bhi ->
  block_ok a b (alo, ahi, blo, bhi) (Difflib.find_longest_match a b b2j alo ahi blo bhi).
Proof.
  intros Hs Ha Hb. unfold Difflib.find_longest_match.
  apply extend_right_ok, extend_left_ok, extend_right_ok, extend_left_ok.
  apply scan_is_ok; [done|lia|lia|by intros j k|].
  cbn. repeat split; try lia. intros t Ht. lia.
Qed.

Lemma seg_split (l : list ascii) (lo mid hi : nat) :
  lo <= mid -> mid <= hi -> seg l lo hi = seg l lo mid ++ seg l mid hi.
Proof.
  intros H1 H2. unfold seg.
  replace (hi - lo) with ((mid - lo) + (hi - mid)) by lia.
  rewrite <- take_take_drop, drop_drop. by replace (lo + (mid - lo)) with mid by lia.
Qed.

Lemma seg_all (l : list ascii) : seg l 0 (length l) = l.
Proof. unfold seg. rewrite drop_0. apply take_ge. lia. Qed.

Lemma length_seg (l : list ascii) (lo hi : nat) :
  hi <= length l -> length (seg l lo hi) = hi - lo.
Proof. intros H. unfold seg. rewrite length_take, length_drop. lia. Qed.

Lemma seg_agree (i j k : nat) :
  agree a b i j k -> seg a i (i + k) = seg b j (j + k).
Proof.
  intros H. unfold seg. replace (i + k - i) with k by lia.
  replace (j + k - j) with k by lia. apply list_eq. intros t.
  destruct (Nat.lt_ge_cases t k) as [Ht|Ht].
  - rewrite !lookup_take_lt, !lookup_drop by done.
    destruct (H t Ht) as (x & -> & ->). done.
  - by rewrite !lookup_take_ge.
Qed.

Section Potential.

Variable mu : list ascii -> list ascii -> nat.
Hypothesis mu_app :
  forall x1 x2 y1 y2, mu x1 y1 + mu x2 y2 <= mu (x1 ++ x2) (y1 ++ y2).
Hypothesis mu_same : forall x, length x <= mu x x.

(** A block and what the ranges on its two sides can give do not exceed
    what its range can give. *)
Lemma cap_split (alo ahi blo bhi i j k : nat) :
  range_ok a b (alo, ahi, blo, bhi) ->
  block_ok a b (alo, ahi, blo, bhi) (Difflib.Best i j k) ->
  cap mu a b (alo, i, blo, j) + k + cap mu a b (i + k, ahi, j + k, bhi)
  <= cap mu a b (alo, ahi, blo, bhi).
Proof.
  intros (Ha & Hla & Hb & Hlb) (H1 & H2 & H3 & H4 & Hag). cbn in *.
  rewrite (seg_split a alo i ahi), (seg_split a i (i + k) ahi) by lia.
  rewrite (seg_split b blo j bhi), (seg_split b j (j + k) bhi) by lia.
  rewrite <- (seg_agree i j k Hag).
  pose proof (mu_same (seg a i (i + k))) as Hs.
  rewrite length_seg in Hs by lia.
  pose proof (mu_app (seg a i (i + k)) (seg a (i + k) ahi)
                     (seg a i (i + k)) (seg b (j + k) bhi)) as Hm.
  pose proof (mu_app (seg a alo i) (seg a i (i + k) ++ seg a (i + k) ahi)
                     (seg b blo j) (seg a i (i + k) ++ seg b (j + k) bhi)) as Hm'.
  lia.
Qed.

Lemma sum_sizes_snoc (l : list Difflib.best) (x : Difflib.best) :
  Difflib.sum_sizes (l ++ [x]) = Difflib.sum_sizes l + Difflib.bestsize x.
Proof. unfold Difflib.sum_sizes. rewrite fmap_app, sum_list_with_app. cbn. lia. Qed.

(** The blocks the loop adds weigh no more than what the queue can give. *)
Lemma blocks_loop_bound (b2j : gmap ascii (list nat)) (fuel : nat)
    (queue : list Difflib.range4) (acc res : list Difflib.best) :
  b2j_sound b b2j -> Forall (range_ok a b) queue ->
  Difflib.blocks_loop a b b2j fuel queue acc = Some res ->
  Difflib.sum_sizes res <= Difflib.sum_sizes acc + sum_list (cap mu a b <$> queue).
Proof.
  intros Hs. revert queue acc.
  induction fuel as [|fuel IH]; intros [|[[[alo ahi] blo] bhi] queue] acc Hq H;
    cbn [Difflib.blocks_loop] in H; try done.
  - injection H as <-. lia.
  - injection H as <-. lia.
  - apply List.Forall_cons_iff in Hq as [Hr Hq].
    pose proof Hr as (Ha & Hla & Hb & Hlb).
    pose proof (find_longest_match_ok b2j alo ahi blo bhi Hs Ha Hb) as Hblk.
    destruct (Difflib.find_longest_match a b b2j alo ahi blo bhi) as [i j k] eqn:E.
    pose proof (cap_split _ _ _ _ _ _ _ Hr Hblk) as Hcap.
    pose proof Hblk as (H1 & H2 & H3 & H4 & _). cbn in H1, H2, H3, H4.
    rewrite fmap_cons. cbn [sum_list_with id].
    destruct k as [|k].
    + apply IH in H; [lia|done].
    + destruct (Nat.ltb_spec alo i) as [Hi|Hi], (Nat.ltb_spec blo j) as [Hj|Hj];
        destruct (Nat.ltb_spec (i + S k) ahi) as [Hi'|Hi'],
                 (Nat.ltb_spec (j + S k) bhi) as [Hj'|Hj'];
        cbn [andb] in H;
        (apply IH in H;
         [ rewrite ?sum_sizes_snoc, ?fmap_cons in H;
           cbn [sum_list_with id Difflib.bestsize] in H; lia
         | repeat (apply List.Forall_cons); try done; cbn; lia ]).
Qed.

(** The matching blocks weigh no more than the two sequences can give. *)
Lemma matches_bound : Difflib.matches a b <= mu a b.
Proof.
  unfold Difflib.matches, Difflib.matching_blocks.
  destruct (Difflib.blocks_loop _ _ _ _ _ _) as [res|] eqn:E; [|lia].
  apply blocks_loop_bound in E; [|apply chain_b_sound|].
  - change (Difflib.sum_sizes []) with 0 in E.
    rewrite fmap_cons in E. cbn [fmap list_fmap sum_list_with id cap] in E.
    rewrite !seg_all in E. lia.
  - apply List.Forall_cons; [cbn; lia|done].
Qed.

End Potential.

(** The loop over the queue ends within the turns it is given. *)
Lemma blocks_loop_ends (b2j : gmap ascii (list nat)) (fuel : nat)
    (queue : list Difflib.range4) (acc : list Difflib.best) :
  b2j_sound b b2j -> Forall (range_ok a b) queue -> turns queue <= fuel ->
  is_Some (Difflib.blocks_loop a b b2j fuel queue acc).
Proof.
  intros Hs. revert queue acc.
  induction fuel as [|fuel IH]; intros [|[[[alo ahi] blo] bhi] queue] acc Hq Hf;
    cbn [Difflib.blocks_loop]; try done.
  - unfold turns in Hf. cbn in Hf. lia.
  - apply List.Forall_cons_iff in Hq as [Hr Hq].
    pose proof Hr as (Ha & Hla & Hb & Hlb).
    pose proof (find_longest_match_ok b2j alo ahi blo bhi Hs Ha Hb) as Hblk.
    destruct (Difflib.find_longest_match a b b2j alo ahi blo bhi) as [i j k] eqn:E.
    pose proof Hblk as (H1 & H2 & H3 & H4 & _). cbn in H1, H2, H3, H4.
    unfold turns in Hf. rewrite fmap_cons in Hf. cbn [sum_list_with id] in Hf.
    destruct k as [|k].
    + apply IH; [done|]. unfold turns. lia.
    + destruct (Nat.ltb_spec alo i) as [Hi|Hi], (Nat.ltb_spec blo j) as [Hj|Hj];
        destruct (Nat.ltb_spec (i + S k) ahi) as [Hi'|Hi'],
                 (Nat.ltb_spec (j + S k) bhi) as [Hj'|Hj'];
        cbn [andb]; apply IH;
        try (repeat (apply List.Forall_cons); try done; cbn; lia);
        unfold turns; rewrite ?fmap_cons; cbn [sum_list_with id]; lia.
Qed.

(** [get_matching_blocks] returns. *)
Lemma matching_blocks_total : is_Some (Difflib.matching_blocks a b).
Proof.
  apply blocks_loop_ends; [apply chain_b_sound| |].
  - apply List.Forall_cons; [cbn; lia|done].
  - unfold turns. cbn. lia.
Qed.

End MatcherFacts.

Section RatioFacts.

Import MatchSpec.
Local Open Scope list_scope.
Local Open Scope nat_scope.

Lemma shorter_app (x1 x2 y1 y2 : list ascii) :
  shorter x1 y1 + shorter x2 y2 <= shorter (x1 ++ x2) (y1 ++ y2).
Proof. unfold shorter. rewrite !length_app. lia. Qed.

Lemma shorter_same (x : list ascii) : length x <= shorter x x.
Proof. unfold shorter. lia. Qed.

Lemma size_list_to_set_disj (l : list ascii) :
  size (list_to_set_disj l : gmultiset ascii) = length l.
Proof.
  induction l as [|x l IH]; [done|].
  rewrite list_to_set_disj_cons, gmultiset_size_disj_union, gmultiset_size_singleton, IH.
  done.
Qed.

Lemma common_app (x1 x2 y1 y2 : list ascii) :
  common x1 y1 + common x2 y2 <= common (x1 ++ x2) (y1 ++ y2).
Proof.
  unfold common. rewrite !list_to_set_disj_app, <- gmultiset_size_disj_union.
  apply gmultiset_subseteq_size. multiset_solver.
Qed.

Lemma common_same (x : list ascii) : length x <= common x x.
Proof.
  unfold common.
  replace (list_to_set_disj x ∩ list_to_set_disj x : gmultiset ascii)
    with (list_to_set_disj x : gmultiset ascii) by multiset_solver.
  by rewrite size_list_to_set_disj.
Qed.

Lemma fullbcount_spec (b : list ascii) (cnt : gmap ascii Z) (c : ascii) :
  default 0%Z (Difflib.fullbcount b cnt !! c) =
  (default 0 (cnt !! c) + Z.of_nat (multiplicity c (list_to_set_disj b : gmultiset ascii)))%Z.
Proof.
  revert cnt; induction b as [|elt b IH]; intros cnt; cbn [Difflib.fullbcount].
  - rewrite list_to_set_disj_nil, multiplicity_empty. lia.
  - rewrite IH, list_to_set_disj_cons, multiplicity_disj_union, multiplicity_singleton.
    destruct (decide (c = elt)) as [->|Hne].
    + rewrite lookup_insert_eq. simpl. lia.
    + rewrite lookup_insert_ne by done. lia.
Qed.

Lemma quick_loop_spec (full : gmap ascii Z) (a : list ascii) (avail : gmap ascii Z)
    (m : nat) (B : gmultiset ascii) :
  (forall c, Z.of_nat (multiplicity c B) = Z.max 0 (left_of full avail c)) ->
  Difflib.quick_loop full a avail m = m + size (list_to_set_disj a ∩ B).
Proof.
  revert avail m B; induction a as [|elt a IH]; intros avail m B HB;
    cbn [Difflib.quick_loop].
  - rewrite list_to_set_disj_nil.
    replace (∅ ∩ B) with (∅ : gmultiset ascii) by multiset_solver.
    rewrite gmultiset_size_empty. lia.
  - fold (left_of full avail elt). set (numb := left_of full avail elt).
    pose proof (HB elt) as Helt. fold numb in Helt.
    rewrite (IH _ _ (B ∖ {[+ elt +]})).
    + rewrite list_to_set_disj_cons.
      destruct (Z.ltb_spec 0 numb) as [Hpos|Hneg].
      * replace (({[+ elt +]} ⊎ list_to_set_disj a) ∩ B)
          with ({[+ elt +]} ⊎ (list_to_set_disj a ∩ (B ∖ {[+ elt +]}))).
        { rewrite gmultiset_size_disj_union, gmultiset_size_singleton. lia. }
        apply gmultiset_eq. intros c.
        rewrite multiplicity_intersection, !multiplicity_disj_union,
          multiplicity_intersection, multiplicity_difference, multiplicity_singleton.
        destruct (decide (c = elt)) as [->|]; lia.
      * replace (({[+ elt +]} ⊎ list_to_set_disj a) ∩ B)
          with (list_to_set_disj a ∩ (B ∖ {[+ elt +]})); [lia|].
        apply gmultiset_eq. intros c.
        rewrite !multiplicity_intersection, multiplicity_disj_union,
          multiplicity_difference, multiplicity_singleton.
        destruct (decide (c = elt)) as [->|]; lia.
    + intros c. rewrite multiplicity_difference, multiplicity_singleton.
      unfold left_of. destruct (decide (c = elt)) as [->|Hne].
      * rewrite lookup_insert_eq. lia.
      * rewrite lookup_insert_ne by done. specialize (HB c). unfold left_of in HB. lia.
Qed.

(** [quick_ratio] counts the elements the two sequences share as multisets. *)
Lemma quick_matches_common (a b : list ascii) :
  Difflib.quick_matches a b = common a b.
Proof.
  unfold Difflib.quick_matches, common.
  rewrite (quick_loop_spec _ _ _ _ (list_to_set_disj b)); [done|].
  intros c. unfold left_of. rewrite lookup_empty, fullbcount_spec, lookup_empty.
  simpl. lia.
Qed.

Lemma calculate_ratio_mono (m1 m2 len : nat) :
  m1 <= m2 -> (Difflib.calculate_ratio m1 len <= Difflib.calculate_ratio m2 len)%Q.
Proof.
  intros H. unfold Difflib.calculate_ratio. destruct len; [apply Qle_refl|].
  unfold Qle. cbn [Qnum Qden]. nia.
Qed.

(** The two quick ratios are upper bounds of the ratio. *)
Lemma ratio_le_quick (a b : list ascii) :
  (Difflib.ratio a b <= Difflib.quick_ratio a b)%Q
  /\ (Difflib.ratio a b <= Difflib.real_quick_ratio a b)%Q.
Proof.
  unfold Difflib.ratio, Difflib.quick_ratio, Difflib.real_quick_ratio.
  split; apply calculate_ratio_mono.
  - rewrite quick_matches_common. apply matches_bound; [apply common_app|apply common_same].
  - apply (matches_bound a b shorter); [apply shorter_app|apply shorter_same].
Qed.

(** A candidate passes the three tests exactly when its ratio reaches the
    cutoff. *)
Lemma close_enough_ratio (word : string) (cutoff : Q) (x : string) :
  Difflib.close_enough word cutoff x =
  Difflib.Qgeb (Difflib.ratio (Difflib.chars x) (Difflib.chars word)) cutoff.
Proof.
  unfold Difflib.close_enough, Difflib.Qgeb.
  destruct (ratio_le_quick (Difflib.chars x) (Difflib.chars word)) as [Hq Hr].
  destruct (Qle_bool cutoff (Difflib.ratio _ _)) eqn:E; [|by rewrite andb_false_r].
  apply Qle_bool_iff in E.
  rewrite (proj2 (Qle_bool_iff _ _) (Qle_trans _ _ _ E Hq)).
  by rewrite (proj2 (Qle_bool_iff _ _) (Qle_trans _ _ _ E Hr)).
Qed.

End RatioFacts.

Section MaxFacts.

Import ScoreOrder.
Local Open Scope list_scope.

Lemma compare_as_OT (s1 s2 : string) :
  String.compare s1 s2 = OrdersEx.String_as_OT.compare s1 s2.
Proof.
  revert s2; induction s1 as [|c1 s1 IH]; intros [|c2 s2]; cbn;
    first [ done
          | rewrite IH; unfold Ascii.compare, OrdersEx.Ascii_as_OT.compare;
            by destruct (N.compare _ _) ].
Qed.

Lemma compare_lt_trans (x y z : string) :
  String.compare x y = Lt -> String.compare y z = Lt -> String.compare x z = Lt.
Proof.
  rewrite !compare_as_OT.
  apply (@StrictOrder_Transitive _ _ OrdersEx.String_as_OT.lt_strorder).
Qed.

Lemma compare_refl (x : string) : String.compare x x = Eq.
Proof.
  destruct (String.compare x x) eqn:E; [done| |].
  - pose proof (compare_lt_trans x x x E E) as H. rewrite compare_as_OT in E.
    by apply (@StrictOrder_Irreflexive _ _ OrdersEx.String_as_OT.lt_strorder) in E.
  - rewrite String.compare_antisym in E.
    destruct (String.compare x x) eqn:E'; try done.
    rewrite compare_as_OT in E'.
    by apply (@StrictOrder_Irreflexive _ _ OrdersEx.String_as_OT.lt_strorder) in E'.
Qed.

Lemma leb_spec (x y : string) :
  String.leb x y = true <-> x = y \/ String.compare x y = Lt.
Proof.
  unfold String.leb. split.
  - destruct (String.compare x y) eqn:E; [|auto|done].
    apply String.compare_eq_iff in E. auto.
  - intros [-> | ->]; [|done]. by rewrite compare_refl.
Qed.

Lemma leb_trans (x y z : string) :
  String.leb x y = true -> String.leb y z = true -> String.leb x z = true.
Proof.
  rewrite !leb_spec. intros [->|H1] [->|H2]; eauto using compare_lt_trans.
Qed.

Lemma leb_ltb (x y : string) : String.leb x y = negb (String.ltb y x).
Proof.
  unfold String.leb, String.ltb. rewrite (String.compare_antisym y x).
  by destruct (String.compare x y).
Qed.

Lemma not_after_refl (p : Q * string) : not_after p p.
Proof. right. split; [apply Qeq_refl|]. apply leb_spec. auto. Qed.

Lemma not_after_trans (p q r : Q * string) :
  not_after p q -> not_after q r -> not_after p r.
Proof.
  intros [H1|[H1 H1']] [H2|[H2 H2']].
  - left. eapply Qlt_trans; eauto.
  - left. by rewrite <- H2.
  - left. by rewrite H1.
  - right. split; [by rewrite H1|]. by eapply leb_trans.
Qed.

(** [tuple_gt p q] is false exactly when [p] is not after [q]. *)
Lemma tuple_gt_false (p q : Q * string) :
  Difflib.tuple_gt p q = false <-> not_after p q.
Proof.
  unfold Difflib.tuple_gt, not_after, PyFloat.Qltb.
  destruct (Qeq_bool p.1 q.1) eqn:E; cbn [negb].
  - apply Qeq_bool_iff in E. rewrite leb_ltb, negb_true_iff. split; [auto|].
    intros [H|[_ H]]; [|done]. rewrite E in H. by apply Qlt_irrefl in H.
  - rewrite negb_false_iff, Qle_bool_iff. split.
    + intros H. left. apply Qle_lt_or_eq in H as [H|H]; [done|].
      apply Qeq_bool_iff in H. congruence.
    + intros [H|[H _]]; [by apply Qlt_le_weak|].
      apply Qeq_bool_iff in H. congruence.
Qed.

Lemma tuple_gt_true (p q : Q * string) :
  Difflib.tuple_gt p q = true -> not_after q p.
Proof.
  unfold Difflib.tuple_gt, not_after, PyFloat.Qltb.
  destruct (Qeq_bool p.1 q.1) eqn:E; cbn [negb].
  - apply Qeq_bool_iff in E. intros H. right. split; [by symmetry|].
    apply leb_spec. right. unfold String.ltb in H.
    by destruct (String.compare q.2 p.2).
  - rewrite negb_true_iff. intros H. left. apply Qnot_le_lt. intros Hle.
    apply Qle_bool_iff in Hle. congruence.
Qed.

(** [max] returns an item of the list that no item of the list is after. *)
Lemma fold_max (l : list (Q * string)) (p : Q * string) :
  let r := fold_left (fun m item => if Difflib.tuple_gt item m then item else m) l p in
  (r = p \/ In r l) /\ not_after p r /\ forall q, In q l -> not_after q r.
Proof.
  revert p; induction l as [|item l IH]; intros p; cbn [fold_left].
  - split; [auto|]. split; [apply not_after_refl|by intros q []].
  - set (p' := if Difflib.tuple_gt item p then item else p).
    destruct (IH p') as (Hin & Hp' & Hall). fold p'.
    assert (not_after p p' /\ not_after item p') as [Hpp' Hip'].
    { subst p'. destruct (Difflib.tuple_gt item p) eqn:E.
      - split; [by apply tuple_gt_true|apply not_after_refl].
      - split; [apply not_after_refl|by apply tuple_gt_false]. }
    split; [|split].
    + destruct Hin as [->|Hin]; [|right; by right].
      subst p'. destruct (Difflib.tuple_gt item p); [right; by left|by left].
    + by eapply not_after_trans.
    + intros q [<-|Hq]; [by eapply not_after_trans|by apply Hall].
Qed.

Lemma py_max_spec (l : list (Q * string)) :
  match Difflib.py_max l with
  | None => l = []
  | Some r => In r l /\ forall q, In q l -> not_after q r
  end.
Proof.
  destruct l as [|p l]; [done|]. cbn [Difflib.py_max].
  destruct (fold_max l p) as (Hin & Hp & Hall). split.
  - destruct Hin as [->|Hin]; [by left|by right].
  - intros q [<-|Hq]; auto.
Qed.

Lemma scored_in (word : string) (cutoff : Q) (possibilities : list string)
    (p : Q * string) :
  In p (Difflib.scored word cutoff possibilities) <->
  exists x, In x possibilities
    /\ (cutoff <= Difflib.ratio (Difflib.chars x) (Difflib.chars word))%Q
    /\ p = (Difflib.ratio (Difflib.chars x) (Difflib.chars word), x).
Proof.
  induction possibilities as [|y l IH]; cbn [Difflib.scored].
  - split; [done|by intros (x & [] & _)].
  - rewrite close_enough_ratio. unfold Difflib.Qgeb.
    destruct (Qle_bool cutoff _) eqn:E.
    + apply Qle_bool_iff in E. cbn [In]. rewrite IH. split.
      * intros [<-|(x & Hx & Hc & ->)].
        -- exists y. repeat split; [by left|done].
        -- exists x. repeat split; [by right|done].
      * intros (x & [<-|Hx] & Hc & ->); [by left|].
        right. exists x. by repeat split.
    + rewrite IH. split.
      * intros (x & Hx & Hc & ->). exists x. repeat split; [by right|done].
      * intros (x & [<-|Hx] & Hc & ->).
        -- apply Qle_bool_iff in Hc. congruence.
        -- exists x. by repeat split.
Qed.

(** C9, amended.  For a cutoff between 0 and 1, [get_close_matches] with
    [n = 1] returns no candidate when the ratio of every candidate is below
    the cutoff; otherwise it returns one candidate, whose ratio reaches the
    cutoff and is the highest among the candidates that reach it.  Among
    candidates of that highest ratio it is the greatest string, not the first
    seen. *)
Theorem best_match_spec (word : string) (possibilities : list string) (cutoff : Q) :
  (0 <= cutoff)%Q -> (cutoff <= 1)%Q ->
  let score x := Difflib.ratio (Difflib.chars x) (Difflib.chars word) in
  (Difflib.get_close_matches word possibilities cutoff = Ret []
   /\ forall x, In x possibilities -> (score x < cutoff)%Q)
  \/ (exists x,
        Difflib.get_close_matches word possibilities cutoff = Ret [x]
        /\ In x possibilities /\ (cutoff <= score x)%Q
        /\ forall y, In y possibilities -> (cutoff <= score y)%Q ->
             (score y < score x)%Q
             \/ ((score y == score x)%Q /\ String.leb y x = true)).
Proof.
  intros H0 H1 score. unfold Difflib.get_close_matches, Difflib.nlargest1.
  rewrite (proj2 (Qle_bool_iff _ _) H0), (proj2 (Qle_bool_iff _ _) H1). cbn [andb negb].
  pose proof (py_max_spec (Difflib.scored word cutoff possibilities)) as Hmax.
  destruct (Difflib.py_max _) as [r|].
  - right. destruct Hmax as [Hin Hall].
    apply scored_in in Hin as (x & Hx & Hc & ->). exists x.
    repeat split; [done..|]. intros y Hy Hcy.
    apply (Hall (score y, y)). apply scored_in. eauto.
  - left. split; [done|]. intros x Hx. apply Qnot_le_lt. intros Hc.
    assert (In (score x, x) (Difflib.scored word cutoff possibilities)) as Hin
      by (apply scored_in; eauto).
    by rewrite Hmax in Hin.
Qed.

End MaxFacts.

(** With the query ab, the candidates ax and ay have the same ratio, one
    half; the second is returned. With HSD, the second of HSD A and HSD B. *)
Lemma tie_goes_to_greater_string :
  Difflib.get_close_matches "ab" ["ax"; "ay"] (4 # 10) = Ret ["ay"]
  /\ Qeq_bool (Difflib.ratio (Difflib.chars "ax") (Difflib.chars "ab"))
              (Difflib.ratio (Difflib.chars "ay") (Difflib.chars "ab")) = true
  /\ Difflib.get_close_matches "HSD" ["HSD A"; "HSD B"] (4 # 10) = Ret ["HSD B"].
Proof. by vm_compute. Qed.

Lemma best_match_spec_witness :
  exists x,
    Difflib.get_close_matches "MOGAS 92 RON" ["MOGAS92RON"; "HSD"; "JETFUEL"] (4 # 10)
      = Ret [x]
    /\ x = "MOGAS92RON".
Proof.
  destruct (best_match_spec "MOGAS 92 RON" ["MOGAS92RON"; "HSD"; "JETFUEL"] (4 # 10))
    as [[H _]|(x & H & _)]; [by vm_compute|by vm_compute|..].
  - by vm_compute in H.
  - exists x. split; [exact H|]. vm_compute in H. congruence.
Defined.

(** * Further properties *)
(** ** Further properties of the helper functions *)

Lemma has_words_result (w : string) (c : string) :
  has_words w "result" c = true -> PyStr.contains "result" (PyStr.lower c) = true.
Proof. unfold has_words. by intros [_ H]%andb_true_iff. Qed.

(** The sheet has a primary result column exactly when the name of some
    column holds the word result, in any letter case.  The columns chosen are
    columns of the table whose names hold that word, and the primary one
    holds the word hdip as well whenever some column does. *)
Theorem result_columns_choice (cols : list string) :
  (result_columns cols = None <->
   forall c, In c cols -> PyStr.contains "result" (PyStr.lower c) = false)
  /\ (forall hdip_col load_col,
        result_columns cols = Some (hdip_col, load_col) ->
        In hdip_col cols
        /\ PyStr.contains "result" (PyStr.lower hdip_col) = true
        /\ ((exists c, In c cols /\ has_words "hdip" "result" c = true) ->
            has_words "hdip" "result" hdip_col = true)
        /\ forall l, load_col = Some l ->
             In l cols /\ PyStr.contains "result" (PyStr.lower l) = true).
Proof.
  unfold result_columns. cbv zeta.
  destruct (List.filter (has_words "hdip" "result") cols) as [|h hs] eqn:Eh; cbv iota beta.
  - assert (forall c, In c cols -> has_words "hdip" "result" c = false) as Hno.
    { intros c Hc. destruct (has_words "hdip" "result" c) eqn:E; [|done].
      assert (In c []) as []. rewrite <- Eh. by apply filter_In. }
    destruct (List.filter (fun c => PyStr.contains "result" (PyStr.lower c)) cols)
      as [|c0 [|c1 cs]] eqn:Ep; cbv iota beta.
    + split.
      * split; [|done]. intros _ c Hc.
        destruct (PyStr.contains "result" (PyStr.lower c)) eqn:E; [|done].
        assert (In c []) as []. rewrite <- Ep. by apply filter_In.
      * by intros.
    + assert (In c0 cols /\ PyStr.contains "result" (PyStr.lower c0) = true) as [H0 H0'].
      { apply (filter_In (fun c => PyStr.contains "result" (PyStr.lower c))).
        rewrite Ep. by left. }
      split.
      * split; [done|]. intros H. by rewrite H in H0'.
      * intros hdip_col load_col [= <- <-]. do 2 (split; [done|]). split; [|done].
        intros (c & Hc & Hw). by rewrite Hno in Hw.
    + assert (forall c, In c (c0 :: c1 :: cs) ->
                In c cols /\ PyStr.contains "result" (PyStr.lower c) = true) as Hin.
      { intros c Hc. apply (filter_In (fun c => PyStr.contains "result" (PyStr.lower c))).
        by rewrite Ep. }
      destruct (Hin c0) as [H0 H0']; [by left|].
      destruct (Hin c1) as [H1 H1']; [right; by left|].
      split.
      * split; [done|]. intros H. by rewrite H in H0'.
      * intros hdip_col load_col [= <- <-]. do 2 (split; [done|]). split.
        -- intros (c & Hc & Hw). by rewrite Hno in Hw.
        -- intros l2 [= <-]. by split.
  - assert (In h cols /\ has_words "hdip" "result" h = true) as [Hh Hh'].
    { apply filter_In. rewrite Eh. by left. }
    split.
    + split; [done|]. intros H. apply has_words_result in Hh'. by rewrite H in Hh'.
    + intros hdip_col load_col [= <- <-]. split; [done|].
      split; [by eapply has_words_result|]. split; [done|].
      destruct (List.filter (has_words "load" "result") cols) as [|l1 ls] eqn:El;
        cbv iota beta; [done|].
      intros l2 [= <-].
      assert (In l1 cols /\ has_words "load" "result" l1 = true) as [H1 H1'].
      { apply filter_In. rewrite El. by left. }
      split; [done|]. by eapply has_words_result.
Qed.

(** *** Column labels *)

Lemma strip_idem (s : string) : PyStr.strip (PyStr.strip s) = PyStr.strip s.
Proof. apply (strip_sub PyStr.is_space PyStr.is_space). auto. Qed.

Lemma lstrip_map (f : ascii -> ascii) (sp : ascii -> bool) (s : string) :
  (forall c, sp (f c) = sp c) ->
  PyStr.lstrip_with sp (PyStr.map_chars f s) = PyStr.map_chars f (PyStr.lstrip_with sp s).
Proof.
  intros Hf. induction s as [|c s IH]; [done|].
  cbn [PyStr.map_chars PyStr.lstrip_with]. rewrite Hf. by destruct (sp c).
Qed.

Lemma rstrip_map (f : ascii -> ascii) (sp : ascii -> bool) (s : string) :
  (forall c, sp (f c) = sp c) ->
  PyStr.rstrip_with sp (PyStr.map_chars f s) = PyStr.map_chars f (PyStr.rstrip_with sp s).
Proof.
  intros Hf. induction s as [|c s IH]; [done|].
  cbn [PyStr.map_chars PyStr.rstrip_with]. rewrite IH, Hf.
  destruct (PyStr.rstrip_with sp s); [by destruct (sp c)|done].
Qed.

Lemma newline_to_space_keeps_space (c : ascii) :
  PyStr.is_space (if Ascii.eqb "010" c then " "%char else c) = PyStr.is_space c.
Proof. by destruct c as [[] [] [] [] [] [] [] []]. Qed.

Lemma newline_to_space_no_newline (c : ascii) :
  Ascii.eqb "010" (if Ascii.eqb "010" c then " "%char else c) = false.
Proof. by destruct c as [[] [] [] [] [] [] [] []]. Qed.

(** A column label has no line feed in it and no white space at its ends.
    The line feed is the one character that is replaced: every other
    character of the trimmed text of the cell, a carriage return included,
    stays in the label. *)
Theorem clean_label_trimmed `{Renderer} (c : scalar) :
  free_of "010" (clean_label c) = true
  /\ PyStr.strip (clean_label c) = clean_label c
  /\ forall x,
       Ascii.eqb "010" x = false ->
       In x (Difflib.chars (PyStr.strip (str_scalar c))) ->
       In x (Difflib.chars (clean_label c)).
Proof.
  unfold clean_label, PyStr.replace_char. split; [|split].
  - induction (PyStr.strip (str_scalar c)) as [|x s IH]; [done|].
    cbn [PyStr.map_chars free_of]. by rewrite newline_to_space_no_newline, IH.
  - unfold PyStr.strip at 1, PyStr.strip_with.
    rewrite lstrip_map, rstrip_map by apply newline_to_space_keeps_space.
    fold (PyStr.strip_with PyStr.is_space (PyStr.strip (str_scalar c))).
    fold (PyStr.strip (PyStr.strip (str_scalar c))). by rewrite strip_idem.
  - intros x Hx. induction (PyStr.strip (str_scalar c)) as [|y s IH]; [done|].
    cbn [PyStr.map_chars Difflib.chars list_ascii_of_string In].
    intros [->|Hin]; [left; by rewrite Hx|right; by apply IH].
Qed.

(** *** Letter case in the classifier *)

Lemma upper_char_idem (c : ascii) :
  PyStr.upper_char (PyStr.upper_char c) = PyStr.upper_char c.
Proof. by destruct c as [[] [] [] [] [] [] [] []]. Qed.

Lemma upper_lower_char (c : ascii) :
  PyStr.upper_char (PyStr.lower_char c) = PyStr.upper_char c.
Proof. by destruct c as [[] [] [] [] [] [] [] []]. Qed.

Lemma upper_idem (s : string) : PyStr.upper (PyStr.upper s) = PyStr.upper s.
Proof.
  unfold PyStr.upper. induction s as [|c s IH]; [done|].
  cbn [PyStr.map_chars]. by rewrite upper_char_idem, IH.
Qed.

Lemma upper_lower (s : string) : PyStr.upper (PyStr.lower s) = PyStr.upper s.
Proof.
  unfold PyStr.upper, PyStr.lower. induction s as [|c s IH]; [done|].
  cbn [PyStr.map_chars]. by rewrite upper_lower_char, IH.
Qed.

(** The label of a sheet whose name is ASCII text does not depend on the
    letter case of the name. *)
Theorem classifier_ignores_case (sheet_name : string) :
  (forall c, In c (Difflib.chars sheet_name) -> (PyStr.code c < 128)%nat) ->
  extract_product_from_sheetname (PyStr.upper sheet_name)
  = extract_product_from_sheetname sheet_name
  /\ extract_product_from_sheetname (PyStr.lower sheet_name)
     = extract_product_from_sheetname sheet_name.
Proof.
  intros _. unfold extract_product_from_sheetname. by rewrite upper_idem, upper_lower.
Qed.

Lemma classifier_ignores_case_witness :
  extract_product_from_sheetname (PyStr.upper "Hsd Cargo 1")
  = extract_product_from_sheetname "Hsd Cargo 1"
  /\ extract_product_from_sheetname (PyStr.lower "Hsd Cargo 1")
     = extract_product_from_sheetname "Hsd Cargo 1".
Proof.
  apply (classifier_ignores_case "Hsd Cargo 1").
  intros c Hc. cbn in Hc. repeat destruct Hc as [<-|Hc]; try done; vm_compute; lia.
Defined.

(** *** The range evaluator at its edges *)

Lemma float_lt_nan_r (v : pyfloat) : PyFloat.lt v Fnan = false.
Proof. by destruct v as [|[]|q]. Qed.

Lemma compare_value_nan (mn mx : option pyfloat) : compare_value Fnan mn mx = true.
Proof.
  unfold compare_value, PyFloat.gt.
  destruct mn as [m|], mx as [m'|]; cbn [PyFloat.lt]; rewrite ?float_lt_nan_r; done.
Qed.

(** A NaN measurement passes whatever the bounds, and a NaN bound constrains
    nothing: it is as if the bound were absent. *)
Theorem nan_constrains_nothing :
  (forall mn mx, compare_value Fnan mn mx = true)
  /\ (forall v mx, compare_value v (Some Fnan) mx = compare_value v None mx)
  /\ (forall v mn, compare_value v mn (Some Fnan) = compare_value v mn None).
Proof.
  unfold compare_value, PyFloat.gt. split; [|split].
  - apply compare_value_nan.
  - intros v mx. by rewrite float_lt_nan_r.
  - intros v mn. cbn [PyFloat.lt]. by destruct (match mn with Some _ => _ | None => _ end).
Qed.

Lemma Qltb_false (a b : Q) : PyFloat.Qltb a b = false <-> (b <= a)%Q.
Proof. unfold PyFloat.Qltb. by rewrite negb_false_iff, Qle_bool_iff. Qed.

Lemma Qltb_true (a b : Q) : PyFloat.Qltb a b = true <-> (a < b)%Q.
Proof.
  unfold PyFloat.Qltb. rewrite negb_true_iff. split.
  - intros H. apply Qnot_le_lt. intros Hle. apply Qle_bool_iff in Hle. congruence.
  - intros H. destruct (Qle_bool b a) eqn:E; [|done].
    apply Qle_bool_iff in E. by apply Qle_not_lt in E.
Qed.

(** The finite values that pass a pair of bounds form an interval: what lies
    between two values that pass, passes. *)
Theorem passing_values_convex (v1 v v2 : Q) (mn mx : option pyfloat) :
  (v1 <= v)%Q -> (v <= v2)%Q ->
  compare_value (Ffin v1) mn mx = true ->
  compare_value (Ffin v2) mn mx = true ->
  compare_value (Ffin v) mn mx = true.
Proof.
  intros H1 H2. unfold compare_value, PyFloat.gt.
  destruct mn as [[|[]|a]|], mx as [[|[]|c]|]; cbn [PyFloat.lt]; try done;
    repeat match goal with
           | |- context [PyFloat.Qltb ?x ?y] =>
               let E := fresh "E" in destruct (PyFloat.Qltb x y) eqn:E
           end; try done;
    repeat match goal with
           | E : PyFloat.Qltb _ _ = true |- _ => apply Qltb_true in E
           | E : PyFloat.Qltb _ _ = false |- _ => apply Qltb_false in E
           end;
    exfalso;
    repeat match goal with
           | E : (_ < _)%Q |- _ => revert E
           | E : (_ <= _)%Q |- _ => revert E
           end; unfold Qlt, Qle; cbn [Qnum Qden]; intros; nia.
Qed.

Lemma passing_values_convex_witness :
  compare_value (Ffin 10) (Some (Ffin 5)) (Some (Ffin 15)) = true.
Proof.
  apply (passing_values_convex 5 10 15); by vm_compute.
Defined.

(** With a lower bound above the upper bound, no finite value passes. *)
Theorem inverted_bounds_pass_nothing (v a c : Q) :
  (c < a)%Q -> compare_value (Ffin v) (Some (Ffin a)) (Some (Ffin c)) = false.
Proof.
  intros H. unfold compare_value, PyFloat.gt. cbn [PyFloat.lt].
  destruct (PyFloat.Qltb v a) eqn:E1; [done|].
  destruct (PyFloat.Qltb c v) eqn:E2; [done|].
  apply Qltb_false in E1, E2. exfalso.
  apply (Qlt_irrefl c). eapply Qlt_le_trans; [exact H|]. by eapply Qle_trans.
Qed.

Lemma inverted_bounds_pass_nothing_witness :
  compare_value (Ffin 10) (Some (Ffin 15)) (Some (Ffin 5)) = false.
Proof. apply (inverted_bounds_pass_nothing 10 15 5). by vm_compute. Defined.

(** ** Further properties of the comparison engine *)

Lemma gcm_returns (word : string) (possibilities : list string) (cutoff : Q) :
  Qle_bool 0 cutoff && Qle_bool cutoff 1 = true ->
  Difflib.get_close_matches word possibilities cutoff
  = Ret (snd <$> Difflib.nlargest1 (Difflib.scored word cutoff possibilities)).
Proof. intros H. unfold Difflib.get_close_matches. by rewrite H. Qed.

(** What [get_close_matches] returns is one of the candidates, and no more
    than one. *)
Lemma gcm_in (word : string) (possibilities : list string) (cutoff : Q)
    (x : string) (rest : list string) :
  Difflib.get_close_matches word possibilities cutoff = Ret (x :: rest) ->
  In x possibilities /\ rest = []
  /\ (cutoff <= Difflib.ratio (Difflib.chars x) (Difflib.chars word))%Q.
Proof.
  unfold Difflib.get_close_matches, Difflib.nlargest1.
  destruct (negb _); [done|].
  pose proof (py_max_spec (Difflib.scored word cutoff possibilities)) as Hmax.
  destruct (Difflib.py_max _) as [r|]; [|done].
  destruct Hmax as [Hin _]. apply scored_in in Hin as (y & Hy & Hc & ->).
  cbn. by intros [= <- <-].
Qed.

Lemma dict_get_In {V : Type} (k : string) (d : list (string * V)) (v : V) :
  dict_get k d = Ret v -> In (k, v) d.
Proof.
  induction d as [|[k' v'] d IH]; cbn [dict_get]; [done|].
  destruct (String.eqb_spec k' k) as [->|Hne].
  - intros [= ->]. by left.
  - intros H. right. by apply IH.
Qed.

Lemma dict_get_total {V : Type} (k : string) (d : list (string * V)) :
  In k (fst <$> d) -> exists v, dict_get k d = Ret v.
Proof.
  induction d as [|[k' v'] d IH]; cbn [dict_get]; [done|].
  rewrite fmap_cons. cbn [fst]. intros [->|H].
  - rewrite String.eqb_refl. eauto.
  - destruct (String.eqb k' k); eauto.
Qed.

Lemma clean_table_total `{Renderer} (df : frame) : exists r, clean_table df = Ret r.
Proof.
  unfold clean_table. destruct (find_table_start df) as [i|] eqn:E; [|eauto].
  apply find_from_some in E as (k & header & -> & Hk & _).
  change (0 + k)%nat with k. rewrite (drop_S _ _ _ Hk). eauto.
Qed.

Section EngineExtras.

Context {renderer : Renderer}.

Local Open Scope list_scope.

(** A sheet that gets a line of the summary reached the loop over its rows,
    and the line and the detail table are what that loop left. *)
Lemma process_sheet_inv (std_xls : list (string * table)) (sheet_name : string)
    (raw : frame) (line : summary_row) (dets : list detail) :
  process_sheet std_xls sheet_name raw = Ret (Some (line, dets)) ->
  exists tbl std_df hdip_col load_col t,
    reaches_rows std_xls sheet_name raw tbl std_df hdip_col load_col
    /\ rows_loop std_df (columns tbl) hdip_col load_col (rows tbl) (Tally O O [] []) = Ret t
    /\ line = summarize sheet_name (extract_product_from_sheetname sheet_name) t
    /\ dets = detailed_data t.
Proof.
  unfold process_sheet, reaches_rows.
  destruct (clean_table raw) as [[tbl|]|]; [|done..]. cbn [bind].
  destruct (Difflib.get_close_matches _ _ _) as [[|key ks]|] eqn:Ek; [done| |done].
  cbn [bind]. destruct (dict_get key std_xls) as [std_df|] eqn:Ed; [|done]. cbn [bind].
  destruct (result_columns (columns tbl)) as [[hdip_col load_col]|] eqn:Er; [|done].
  destruct (rows_loop _ _ _ _ _ _) as [t|] eqn:E; [|done]. cbn [bind].
  intros [= <- <-]. exists tbl, std_df, hdip_col, load_col, t.
  split; [|done]. split; [done|]. split; [|done]. by exists key, ks.
Qed.

(** What a line of detail holds, read off the row it was made from. *)
Lemma check_row_line (std_df : table) (cols : list string) (hdip_col : string)
    (load_col : option string) (row : list scalar) (d : detail) (ok : bool) :
  check_row std_df cols hdip_col load_col row = Ret (Some (d, ok)) ->
  exists std_row,
    matched_spec std_df cols row = Ret (Some std_row)
    /\ d_test d = description cols row
    /\ to_number (row_get cols row hdip_col (Scalar VNone)) = Some (d_hdip d)
    /\ d_load d = load_value cols load_col row
    /\ d_min d = to_number (row_get (columns std_df) std_row "Min" (Scalar VNone))
    /\ d_max d = to_number (row_get (columns std_df) std_row "Max" (Scalar VNone))
    /\ d_unit d = row_get (columns std_df) std_row "Unit / Remarks" (Scalar (VStr ""))
    /\ ok = compare_value (d_hdip d) (d_min d) (d_max d)
    /\ d_status d = (if ok then "PASS" else "FAIL")
    /\ (is_Some (d_min d) \/ is_Some (d_max d)).
Proof.
  intros H. destruct (check_row_cases _ _ _ _ _ _ H) as [Hm|[std_row Hm]].
  - rewrite (check_row_unmatched _ _ _ _ _ Hm) in H. done.
  - exists std_row. split; [done|].
    rewrite (check_row_matched _ _ _ _ _ _ Hm) in H. cbn zeta in H.
    destruct (to_number (row_get cols row hdip_col (Scalar VNone))) as [v|]; [|done].
    destruct (to_number (row_get (columns std_df) std_row "Min" (Scalar VNone))) as [mn|] eqn:Emn;
      destruct (to_number (row_get (columns std_df) std_row "Max" (Scalar VNone))) as [mx|] eqn:Emx;
      try done; injection H as <- <-; cbn [d_test d_hdip d_load d_min d_max d_unit d_status];
      repeat split; eauto.
Qed.

Lemma matched_spec_described (std_df : table) (cols : list string) (row std_row : list scalar) :
  matched_spec std_df cols row = Ret (Some std_row) ->
  PyStr.truthy (description cols row) = true.
Proof.
  unfold matched_spec. by destruct (PyStr.truthy (description cols row)).
Qed.

Lemma dict_set_In {V : Type} (k : string) (v : V) (d : list (string * V)) (e : string * V) :
  In e (dict_set k v d) -> e = (k, v) \/ In e d.
Proof.
  induction d as [|[k' v'] d IH]; cbn [dict_set].
  - intros [<-|[]]. by left.
  - destruct (String.eqb k' k).
    + intros [<-|H]; [by left|right; by right].
    + intros [<-|H]; [right; by left|].
      destruct (IH H) as [->|H']; [by left|right; by right].
Qed.

Lemma dict_set_fresh {V : Type} (k : string) (v : V) (d : list (string * V)) :
  ~ In k (fst <$> d) -> dict_set k v d = d ++ [(k, v)].
Proof.
  induction d as [|[k' v'] d IH]; cbn [dict_set]; [done|].
  rewrite fmap_cons. cbn [fst In]. intros Hn.
  destruct (String.eqb_spec k' k) as [->|Hne]; [tauto|].
  rewrite IH by tauto. done.
Qed.

Lemma dict_set_present {V : Type} (k : string) (v : V) (d : list (string * V)) :
  In k (fst <$> d) -> fst <$> dict_set k v d = fst <$> d.
Proof.
  induction d as [|[k' v'] d IH]; cbn [dict_set]; [done|].
  rewrite fmap_cons. cbn [fst In]. intros Hin.
  destruct (String.eqb_spec k' k) as [->|Hne]; [done|].
  rewrite fmap_cons, IH; [done|]. by destruct Hin.
Qed.

Lemma dict_set_NoDup {V : Type} (k : string) (v : V) (d : list (string * V)) :
  List.NoDup (fst <$> d) -> List.NoDup (fst <$> dict_set k v d).
Proof.
  intros Hd. destruct (In_dec string_dec k (fst <$> d)) as [Hin|Hn].
  - by rewrite dict_set_present.
  - rewrite dict_set_fresh, fmap_app by done.
    apply List.NoDup_app; [done| |].
    + apply List.NoDup_cons; [by intros []|constructor].
    + intros x Hx [<-|[]]. by apply Hn.
Qed.

(** The detail tables are filed under names that differ from one another,
    and each is the table of a sheet of that name. *)
Lemma sheets_loop_keyed (std_xls : list (string * table))
    (sheets : list (string * frame)) (summary summary' : list summary_row)
    (detailed detailed' : list (string * list detail)) :
  sheets_loop std_xls sheets summary detailed = Ret (summary', detailed') ->
  (List.NoDup (fst <$> detailed) -> List.NoDup (fst <$> detailed'))
  /\ forall name dets, In (name, dets) detailed' ->
       In (name, dets) detailed
       \/ exists raw line,
            In (name, raw) sheets
            /\ process_sheet std_xls name raw = Ret (Some (line, dets)).
Proof.
  revert summary detailed; induction sheets as [|[n raw] sheets IH];
    intros summary detailed H; cbn [sheets_loop] in H.
  - injection H as _ <-. auto.
  - destruct (process_sheet std_xls n raw) as [[[line dets]|]|] eqn:E; [| |done];
      cbn [bind] in H; destruct (IH _ _ H) as [Hnd Hin]; split.
    + intros Hd. by apply Hnd, dict_set_NoDup.
    + intros name ds Hds. destruct (Hin _ _ Hds) as [Hds'|(raw' & line' & Hr & Hp)].
      * apply dict_set_In in Hds' as [[= -> ->]|Hds']; [|by left].
        right. exists raw, line. split; [by left|done].
      * right. exists raw', line'. split; [by right|done].
    + done.
    + intros name ds Hds. destruct (Hin _ _ Hds) as [Hds'|(raw' & line' & Hr & Hp)];
        [by left|].
      right. exists raw', line'. split; [by right|done].
Qed.

(** The detail tables of a run are filed under names that differ from
    one another, and the table filed under a name is the one a sheet of that
    name of the vessel workbook got. *)
Theorem detail_tables_keyed (vessel_xls : list (string * frame))
    (std_xls : list (string * table)) (summary : list summary_row)
    (detailed : list (string * list detail)) :
  process_vessel_file vessel_xls std_xls = Ret (summary, detailed) ->
  List.NoDup (fst <$> detailed)
  /\ forall name dets, In (name, dets) detailed ->
       exists raw line,
         In (name, raw) vessel_xls
         /\ process_sheet std_xls name raw = Ret (Some (line, dets)).
Proof.
  unfold process_vessel_file. intros H.
  destruct (sheets_loop_keyed _ _ _ _ _ _ H) as [Hnd Hin]. split.
  - apply Hnd. constructor.
  - intros name dets Hd. by destruct (Hin _ _ Hd) as [[]|].
Qed.

End EngineExtras.

Lemma detail_tables_keyed_witness :
  List.NoDup (fst <$> [("HSD CARGO 1",
                        [Detail "Flash Point" (Ffin 40) None (Some (Ffin 38)) (Some Fnan)
                           (Scalar (VStr "C")) "PASS"])]).
Proof.
  exact (proj1 (detail_tables_keyed (renderer := plain_renderer) sample_vessel sample_std
                  _ _ sample_run)).
Defined.

Lemma omap_fmap_sublist {A B C : Type} (f : A -> option B) (g : B -> C) (h : A -> C)
    (l : list A) :
  (forall x y, f x = Some y -> g y = h x) ->
  sublist (g <$> omap f l) (h <$> l).
Proof.
  intros Hf. induction l as [|x l IH]; [constructor|].
  cbn [omap list_omap]. destruct (f x) as [y|] eqn:E.
  - rewrite !fmap_cons, (Hf _ _ E). by apply sublist_skip.
  - rewrite fmap_cons. by apply sublist_cons.
Qed.

Section SheetExtras.

Context {renderer : Renderer}.

Local Open Scope list_scope.

Lemma process_sheet_filed (std_xls : list (string * table)) (sheet_name : string)
    (raw : frame) (line : summary_row) (dets : list detail) :
  process_sheet std_xls sheet_name raw = Ret (Some (line, dets)) ->
  filed line (sheet_name, dets).
Proof.
  intros H. destruct (process_sheet_line _ _ _ _ _ H) as (t & (Hp & Hf & Hn & Hl) & -> & ->).
  unfold filed. cbn. rewrite <- Hp, <- Hf, <- Hn. done.
Qed.

(** The line of the summary of a sheet counts the lines of its detail
    table: the tests checked are the lines, the tests passed the lines marked
    PASS, the tests failed the lines marked FAIL, and the failed tests named
    are the names on the lines marked FAIL, in the order of the lines.  The
    line carries the name of the sheet and the label the classifier gives
    that name. *)
Theorem sheet_line_counts_details (std_xls : list (string * table))
    (sheet_name : string) (raw : frame) (line : summary_row) (dets : list detail) :
  process_sheet std_xls sheet_name raw = Ret (Some (line, dets)) ->
  s_sheet line = sheet_name
  /\ s_product line = extract_product_from_sheetname sheet_name
  /\ s_checked line = length dets
  /\ s_passed line = length (List.filter is_pass dets)
  /\ s_failed line = length (List.filter is_fail dets)
  /\ s_failed_tests line = PyStr.join ", " (d_test <$> List.filter is_fail dets).
Proof.
  intros H. destruct (process_sheet_filed _ _ _ _ _ H) as (H1 & H2 & H3 & H4 & H5 & H6).
  cbn [fst snd] in H1, H2, H3, H4, H5, H6. rewrite H1. done.
Qed.

Lemma sheets_loop_filed (std_xls : list (string * table))
    (sheets : list (string * frame)) (summary summary' : list summary_row)
    (detailed detailed' : list (string * list detail)) :
  sheets_loop std_xls sheets summary detailed = Ret (summary', detailed') ->
  List.NoDup (fst <$> sheets) ->
  (forall n, In n (fst <$> sheets) -> ~ In n (fst <$> detailed)) ->
  Forall2 filed summary detailed ->
  Forall2 filed summary' detailed'.
Proof.
  revert summary detailed; induction sheets as [|[n raw] sheets IH];
    intros summary detailed H Hnd Hfresh Hf; cbn [sheets_loop] in H.
  - by injection H as <- <-.
  - rewrite fmap_cons in Hnd, Hfresh. cbn [fst] in Hnd, Hfresh.
    apply List.NoDup_cons_iff in Hnd as [Hn Hnd].
    destruct (process_sheet std_xls n raw) as [[[line dets]|]|] eqn:E; [| |done];
      cbn [bind] in H.
    + rewrite dict_set_fresh in H by (apply Hfresh; by left).
      apply (IH _ _ H Hnd).
      * intros m Hm. rewrite fmap_app, in_app_iff. cbn. intros [Hd|[<-|[]]]; [|done].
        apply (Hfresh m); [by right|done].
      * apply Forall2_app; [done|]. constructor; [|constructor].
        by eapply process_sheet_filed.
    + apply (IH _ _ H Hnd); [|done]. intros m Hm. apply Hfresh. by right.
Qed.

(** In a workbook whose sheet names differ from one another, the lines of
    the summary and the detail tables go together one to one and in the same
    order: the detail table filed at a place is the one of the sheet named on
    the line at that place, and the line counts its lines.  The sheets named
    in the summary are sheets of the workbook, in the order of the
    workbook. *)
Theorem summary_lines_up_with_details (vessel_xls : list (string * frame))
    (std_xls : list (string * table)) (summary : list summary_row)
    (detailed : list (string * list detail)) :
  process_vessel_file vessel_xls std_xls = Ret (summary, detailed) ->
  List.NoDup (fst <$> vessel_xls) ->
  Forall2 filed summary detailed
  /\ fst <$> detailed = s_sheet <$> summary
  /\ sublist (s_sheet <$> summary) (fst <$> vessel_xls).
Proof.
  unfold process_vessel_file. intros H Hnd.
  assert (Forall2 filed summary detailed) as Hf.
  { apply (sheets_loop_filed _ _ _ _ _ _ H Hnd); [by intros n _ []|constructor]. }
  split; [done|]. split.
  - clear -Hf. induction Hf as [|line entry ls es (Hk & _) _ IH]; [done|].
    rewrite !fmap_cons. by f_equal.
  - rewrite (sheets_loop_summary _ _ _ _ _ _ H). cbn [app].
    apply omap_fmap_sublist. intros [n raw] line. cbn [fst snd].
    destruct (process_sheet std_xls n raw) as [[[line' dets]|]|] eqn:E; [|done..].
    intros [= <-]. by destruct (process_sheet_filed _ _ _ _ _ E) as (<- & _).
Qed.

(** The lines of detail of a sheet come from its rows, one from a row at
    most and in the order of the rows: the names on them are descriptions of
    rows of the table. *)
Theorem detail_lines_follow_rows (std_xls : list (string * table))
    (sheet_name : string) (raw : frame) (line : summary_row) (dets : list detail) :
  process_sheet std_xls sheet_name raw = Ret (Some (line, dets)) ->
  exists tbl,
    clean_table raw = Ret (Some tbl)
    /\ sublist (d_test <$> dets) (description (columns tbl) <$> rows tbl)
    /\ (length dets <= length (rows tbl))%nat.
Proof.
  intros H.
  destruct (process_sheet_inv _ _ _ _ _ H)
    as (tbl & std_df & hdip_col & load_col & t & (Ht & _) & Hl & _ & ->).
  exists tbl. split; [done|].
  rewrite (rows_loop_details _ _ _ _ _ _ _ Hl). cbn [detailed_data app].
  assert (sublist
            (d_test <$> omap (fun row =>
                                match check_row std_df (columns tbl) hdip_col load_col row with
                                | Ret (Some (d, _)) => Some d
                                | _ => None
                                end) (rows tbl))
            (description (columns tbl) <$> rows tbl)) as Hs.
  { apply omap_fmap_sublist. intros row d.
    destruct (check_row std_df (columns tbl) hdip_col load_col row)
      as [[[d' ok]|]|] eqn:E; [|done..].
    intros [= <-]. by destruct (check_row_line _ _ _ _ _ _ _ E) as (_ & _ & Hd & _). }
  split; [done|]. apply sublist_length in Hs. by rewrite !length_fmap in Hs.
Qed.

(** Every line of every detail table stands by itself: its status is PASS
    when the value on it lies within the bounds on it and FAIL when not, it
    has a bound, and its name is not empty and has no white space at its
    ends. *)
Theorem detail_lines_sound (vessel_xls : list (string * frame))
    (std_xls : list (string * table)) (summary : list summary_row)
    (detailed : list (string * list detail)) (name : string) (dets : list detail)
    (d : detail) :
  process_vessel_file vessel_xls std_xls = Ret (summary, detailed) ->
  In (name, dets) detailed -> In d dets ->
  d_status d = (if compare_value (d_hdip d) (d_min d) (d_max d) then "PASS" else "FAIL")
  /\ (is_Some (d_min d) \/ is_Some (d_max d))
  /\ PyStr.truthy (d_test d) = true
  /\ PyStr.strip (d_test d) = d_test d.
Proof.
  unfold process_vessel_file. intros H Hin Hd.
  destruct (sheets_loop_keyed _ _ _ _ _ _ H) as [_ Hk].
  destruct (Hk _ _ Hin) as [[]|(raw & line & _ & Hp)].
  destruct (process_sheet_inv _ _ _ _ _ Hp)
    as (tbl & std_df & hdip_col & load_col & t & _ & Hl & _ & ->).
  rewrite (rows_loop_details _ _ _ _ _ _ _ Hl) in Hd. cbn [detailed_data app] in Hd.
  apply list_elem_of_In, list_elem_of_omap in Hd as (row & _ & Hrow).
  destruct (check_row std_df (columns tbl) hdip_col load_col row)
    as [[[d' ok]|]|] eqn:E; [|done..].
  injection Hrow as ->.
  destruct (check_row_line _ _ _ _ _ _ _ E)
    as (std_row & Hm & Ht & _ & _ & _ & _ & _ & Hok & Hs & Hb).
  rewrite Hs, <- Hok, Ht. repeat split; [done|by eapply matched_spec_described|].
  unfold description. apply strip_idem.
Qed.

End SheetExtras.

Lemma sample_sheet :
  process_sheet (renderer := plain_renderer) sample_std "HSD CARGO 1" sample_frame =
    Ret (Some (Summary "HSD CARGO 1" "HSD" 1 1 0 "PASS" "",
               [Detail "Flash Point" (Ffin 40) None (Some (Ffin 38)) (Some Fnan)
                  (Scalar (VStr "C")) "PASS"])).
Proof. by vm_compute. Qed.

Lemma sheet_line_counts_details_witness :
  s_checked (Summary "HSD CARGO 1" "HSD" 1 1 0 "PASS" "") = 1%nat.
Proof.
  exact (proj1 (proj2 (proj2 (sheet_line_counts_details (renderer := plain_renderer)
                                sample_std "HSD CARGO 1" sample_frame _ _ sample_sheet)))).
Defined.

Lemma sample_names_differ : List.NoDup (fst <$> sample_vessel).
Proof. repeat constructor. by intros []. Qed.

Lemma summary_lines_up_with_details_witness :
  fst <$> [("HSD CARGO 1",
            [Detail "Flash Point" (Ffin 40) None (Some (Ffin 38)) (Some Fnan)
               (Scalar (VStr "C")) "PASS"])]
  = s_sheet <$> [Summary "HSD CARGO 1" "HSD" 1 1 0 "PASS" ""].
Proof.
  exact (proj1 (proj2 (summary_lines_up_with_details (renderer := plain_renderer)
                         sample_vessel sample_std _ _ sample_run sample_names_differ))).
Defined.

Lemma detail_lines_follow_rows_witness :
  exists tbl,
    clean_table (renderer := plain_renderer) sample_frame = Ret (Some tbl)
    /\ sublist ["Flash Point"]
         (description (renderer := plain_renderer) (columns tbl) <$> rows tbl)
    /\ (1 <= length (rows tbl))%nat.
Proof.
  exact (detail_lines_follow_rows (renderer := plain_renderer) sample_std "HSD CARGO 1"
           sample_frame _ _ sample_sheet).
Defined.

Lemma detail_lines_sound_witness :
  "PASS" = (if compare_value (Ffin 40) (Some (Ffin 38)) (Some Fnan) then "PASS" else "FAIL")
  /\ (is_Some (Some (Ffin 38)) \/ is_Some (Some Fnan))
  /\ PyStr.truthy "Flash Point" = true
  /\ PyStr.strip "Flash Point" = "Flash Point".
Proof.
  exact (detail_lines_sound (renderer := plain_renderer) sample_vessel sample_std _ _
           "HSD CARGO 1" _
           (Detail "Flash Point" (Ffin 40) None (Some (Ffin 38)) (Some Fnan)
              (Scalar (VStr "C")) "PASS")
           sample_run (or_introl eq_refl) (or_introl eq_refl)).
Defined.

(** *** Sheets that are left out, and runs that end in an error *)

Lemma gcm_sheet_returns (word : string) (possibilities : list string) :
  exists l, Difflib.get_close_matches word possibilities (4 # 10) = Ret l.
Proof. rewrite gcm_returns by done. eauto. Qed.

Lemma gcm_row_returns (word : string) (possibilities : list string) :
  exists l, Difflib.get_close_matches word possibilities (6 # 10) = Ret l.
Proof. rewrite gcm_returns by done. eauto. Qed.

Section RunExtras.

Context {renderer : Renderer}.

Local Open Scope list_scope.

(** A sheet is left out of the summary and of the detail tables exactly when
    it has no header row, or no name of a standards table is close enough to
    its label, or its table has no result column. *)
Theorem sheet_left_out (std_xls : list (string * table)) (sheet_name : string)
    (raw : frame) :
  process_sheet std_xls sheet_name raw = Ret None <->
  find_table_start raw = None
  \/ exists tbl,
       clean_table raw = Ret (Some tbl)
       /\ (Difflib.get_close_matches (extract_product_from_sheetname sheet_name)
             (fst <$> std_xls) (4 # 10) = Ret []
           \/ result_columns (columns tbl) = None).
Proof.
  unfold process_sheet.
  destruct (find_table_start raw) as [i|] eqn:Ef.
  - destruct (clean_table_total raw) as [[tbl|] Ht].
    2:{ unfold clean_table in Ht. rewrite Ef in Ht. by destruct (drop i raw). }
    rewrite Ht. cbn [bind].
    destruct (gcm_sheet_returns (extract_product_from_sheetname sheet_name) (fst <$> std_xls))
      as [[|key ks] Hk]; rewrite Hk; cbn [bind].
    + split; [|done]. intros _. right. exists tbl. auto.
    + destruct (gcm_in _ _ _ _ _ Hk) as (Hin & _ & _).
      destruct (dict_get_total _ _ Hin) as [std_df ->]. cbn [bind].
      destruct (result_columns (columns tbl)) as [[hdip_col load_col]|] eqn:Er.
      * split.
        -- by destruct (rows_loop _ _ _ _ _ _).
        -- intros [|(tbl' & [= <-] & [|Hr])]; try done. congruence.
      * split; [|done]. intros _. right. exists tbl. auto.
  - unfold clean_table. rewrite Ef. cbn [bind]. split; auto.
Qed.

Lemma sheets_loop_app (std_xls : list (string * table))
    (s1 s2 : list (string * frame)) (summary : list summary_row)
    (detailed : list (string * list detail)) :
  sheets_loop std_xls (s1 ++ s2) summary detailed =
  (r <- sheets_loop std_xls s1 summary detailed ;; sheets_loop std_xls s2 r.1 r.2).
Proof.
  revert summary detailed; induction s1 as [|[n raw] s1 IH]; intros summary detailed;
    cbn [app sheets_loop]; [done|].
  destruct (process_sheet std_xls n raw) as [[[line dets]|]|]; cbn [bind]; by rewrite ?IH.
Qed.

(** A sheet that is left out leaves no trace: the run comes out as it does
    on the workbook without the sheet. *)
Theorem skipped_sheet_leaves_no_trace (std_xls : list (string * table))
    (before after : list (string * frame)) (sheet_name : string) (raw : frame) :
  process_sheet std_xls sheet_name raw = Ret None ->
  process_vessel_file (before ++ (sheet_name, raw) :: after) std_xls
  = process_vessel_file (before ++ after) std_xls.
Proof.
  intros H. unfold process_vessel_file. rewrite !sheets_loop_app.
  destruct (sheets_loop std_xls before [] []) as [[summary detailed]|]; [|done].
  cbn [bind fst snd sheets_loop]. by rewrite H.
Qed.

Lemma first_row_named_raises (std_df : table) (name : string) (e : exn) :
  first_row_named std_df name = Raise e -> e = KeyError "Parameter" \/ e = IndexError.
Proof.
  unfold first_row_named, column.
  destruct (positions "Parameter" 0 (columns std_df)); cbn [bind].
  - intros [= <-]. by left.
  - destruct (List.filter _ _); [|done]. intros [= <-]. by right.
Qed.

Lemma check_row_raises (std_df : table) (cols : list string) (hdip_col : string)
    (load_col : option string) (row : list scalar) (e : exn) :
  check_row std_df cols hdip_col load_col row = Raise e ->
  e = KeyError "Parameter" \/ e = IndexError.
Proof.
  unfold check_row.
  destruct (negb (PyStr.truthy _)); [done|].
  rewrite !clean_numeric_ret. cbn [bind].
  assert (exists lv, match load_col with
                     | Some l =>
                         if PyStr.truthy l
                         then clean_numeric (row_get cols row l (Scalar VNone))
                         else Ret None
                     | None => Ret None
                     end = Ret lv) as [lv ->].
  { destruct load_col as [l|]; [|eauto].
    destruct (PyStr.truthy l); [rewrite clean_numeric_ret|]; eauto. }
  cbn [bind]. destruct (column std_df "Parameter") as [params|e'] eqn:Ec; cbn [bind].
  2:{ unfold column in Ec. destruct (positions _ _ _); [|done].
      injection Ec as <-. intros [= <-]. by left. }
  destruct (gcm_row_returns
              (PyStr.strip (py_str (row_get cols row "Tests Description" (Scalar (VStr "")))))
              (str_scalar <$> params)) as [[|m ms] ->]; cbn [bind]; [done|].
  destruct (first_row_named std_df m) as [std_row|e'] eqn:Ef; cbn [bind].
  2:{ intros [= <-]. by eapply first_row_named_raises. }
  rewrite !clean_numeric_ret. cbn [bind].
  destruct (to_number (row_get cols row hdip_col (Scalar VNone))); [|done].
  by destruct (to_number _), (to_number _).
Qed.

Lemma rows_loop_raises (std_df : table) (cols : list string) (hdip_col : string)
    (load_col : option string) (rs : list (list scalar)) (t : tally) (e : exn) :
  rows_loop std_df cols hdip_col load_col rs t = Raise e ->
  e = KeyError "Parameter" \/ e = IndexError.
Proof.
  revert t; induction rs as [|row rs IH]; intros t; cbn [rows_loop]; [done|].
  destruct (check_row std_df cols hdip_col load_col row) as [r|e'] eqn:E; cbn [bind].
  - apply IH.
  - intros [= <-]. by eapply check_row_raises.
Qed.

Lemma process_sheet_raises (std_xls : list (string * table)) (sheet_name : string)
    (raw : frame) (e : exn) :
  process_sheet std_xls sheet_name raw = Raise e ->
  e = KeyError "Parameter" \/ e = IndexError.
Proof.
  unfold process_sheet.
  destruct (clean_table_total raw) as [[tbl|] ->]; cbn [bind]; [|done].
  destruct (gcm_sheet_returns (extract_product_from_sheetname sheet_name) (fst <$> std_xls))
    as [[|key ks] Hk]; rewrite Hk; cbn [bind]; [done|].
  destruct (gcm_in _ _ _ _ _ Hk) as (Hin & _ & _).
  destruct (dict_get_total _ _ Hin) as [std_df ->]. cbn [bind].
  destruct (result_columns (columns tbl)) as [[hdip_col load_col]|]; [|done].
  destruct (rows_loop _ _ _ _ _ _) as [t|e'] eqn:E; cbn [bind]; [done|].
  intros [= <-]. by eapply rows_loop_raises.
Qed.

Lemma sheets_loop_raises (std_xls : list (string * table))
    (sheets : list (string * frame)) (summary : list summary_row)
    (detailed : list (string * list detail)) (e : exn) :
  sheets_loop std_xls sheets summary detailed = Raise e ->
  exists name raw, In (name, raw) sheets /\ process_sheet std_xls name raw = Raise e.
Proof.
  revert summary detailed; induction sheets as [|[n raw] sheets IH];
    intros summary detailed; cbn [sheets_loop]; [done|].
  destruct (process_sheet std_xls n raw) as [[[line dets]|]|e'] eqn:E; cbn [bind].
  - intros H. destruct (IH _ _ H) as (name & raw' & Hin & Hp).
    exists name, raw'. split; [by right|done].
  - intros H. destruct (IH _ _ H) as (name & raw' & Hin & Hp).
    exists name, raw'. split; [by right|done].
  - intros [= <-]. exists n, raw. split; [by left|done].
Qed.

(** With standards tables whose Parameter cells are all filled in, a run
    that ends in an error ends in one of two: a [KeyError] for the Parameter
    column, which a standards table lacks, or an [IndexError], from a
    matched parameter whose row is not found.  No lookup of a standards table
    by its name fails, and neither does the reading of a number.  (What a
    blank Parameter cell leads to depends on how the library renders it.) *)
Theorem run_raises_only (vessel_xls : list (string * frame))
    (std_xls : list (string * table)) (e : exn) :
  (forall key std_df params,
     In (key, std_df) std_xls -> column std_df "Parameter" = Ret params ->
     forall c, In c params -> notna c = true) ->
  process_vessel_file vessel_xls std_xls = Raise e ->
  e = KeyError "Parameter" \/ e = IndexError.
Proof.
  unfold process_vessel_file. intros _ H.
  destruct (sheets_loop_raises _ _ _ _ _ H) as (name & raw & _ & Hp).
  by eapply process_sheet_raises.
Qed.

Lemma first_row_named_total (std_df : table) (params : list scalar) (m : string) :
  column std_df "Parameter" = Ret params ->
  (forall c, In c params -> exists s, c = VStr s) ->
  In m (str_scalar <$> params) ->
  exists std_row, first_row_named std_df m = Ret std_row.
Proof.
  intros Hc Htext Hm. unfold first_row_named. rewrite Hc. cbn [bind].
  apply list_elem_of_In, list_elem_of_fmap in Hm as (c & -> & Hin).
  apply list_elem_of_In in Hin.
  destruct (Htext c Hin) as [s ->]. cbn [str_scalar].
  unfold column in Hc. destruct (positions "Parameter" 0 (columns std_df)) as [|p ps]; [done|].
  injection Hc as <-.
  apply list_elem_of_In, list_elem_of_fmap in Hin as (r & Hr & Hin).
  assert (In (VStr s, r)
            (List.filter (fun pr : scalar * list scalar => cell_eq_str pr.1 s)
               (zip ((fun r => cell_at r p) <$> rows std_df) (rows std_df)))) as Hf.
  { apply filter_In. split; [|cbn; apply String.eqb_refl].
    rewrite Hr. clear -Hin. induction Hin as [r l|r r' l _ IH]; cbn; auto. }
  destruct (List.filter _ _) as [|pr l]; [done|]. eauto.
Qed.

Lemma check_row_total (std_df : table) (cols : list string) (hdip_col : string)
    (load_col : option string) (row : list scalar) :
  text_parameters std_df ->
  exists r, check_row std_df cols hdip_col load_col row = Ret r.
Proof.
  intros (params & Hc & Htext).
  destruct (check_row std_df cols hdip_col load_col row) as [r|e] eqn:E; [eauto|].
  exfalso. revert E. unfold check_row.
  destruct (negb (PyStr.truthy _)); [done|].
  rewrite !clean_numeric_ret. cbn [bind].
  assert (exists lv, match load_col with
                     | Some l =>
                         if PyStr.truthy l
                         then clean_numeric (row_get cols row l (Scalar VNone))
                         else Ret None
                     | None => Ret None
                     end = Ret lv) as [lv ->].
  { destruct load_col as [l|]; [|eauto].
    destruct (PyStr.truthy l); [rewrite clean_numeric_ret|]; eauto. }
  cbn [bind]. rewrite Hc. cbn [bind].
  destruct (Difflib.get_close_matches _ _ _) as [[|m ms]|e'] eqn:Ek; cbn [bind]; [done| |].
  - destruct (gcm_in _ _ _ _ _ Ek) as (Hin & _ & _).
    destruct (first_row_named_total std_df params m Hc Htext Hin) as [std_row ->].
    cbn [bind]. rewrite !clean_numeric_ret. cbn [bind].
    destruct (to_number (row_get cols row hdip_col (Scalar VNone))); [|done].
    by destruct (to_number _), (to_number _).
  - destruct (gcm_row_returns
                (PyStr.strip (py_str (row_get cols row "Tests Description" (Scalar (VStr "")))))
                (str_scalar <$> params)) as [l Hl]. congruence.
Qed.

Lemma rows_loop_total (std_df : table) (cols : list string) (hdip_col : string)
    (load_col : option string) (rs : list (list scalar)) (t : tally) :
  text_parameters std_df ->
  exists t', rows_loop std_df cols hdip_col load_col rs t = Ret t'.
Proof.
  intros Hs. revert t; induction rs as [|row rs IH]; intros t; cbn [rows_loop]; [eauto|].
  destruct (check_row_total std_df cols hdip_col load_col row Hs) as [r ->].
  cbn [bind]. apply IH.
Qed.

(** When every standards table has a Parameter column that holds text all
    through, the run ends without an error, whatever the vessel workbook
    holds. *)
Theorem text_parameters_never_raise (vessel_xls : list (string * frame))
    (std_xls : list (string * table)) :
  (forall key std_df, In (key, std_df) std_xls -> text_parameters std_df) ->
  exists summary detailed,
    process_vessel_file vessel_xls std_xls = Ret (summary, detailed).
Proof.
  intros Hstd. unfold process_vessel_file.
  generalize (@nil summary_row) (@nil (string * list detail)).
  induction vessel_xls as [|[n raw] sheets IH]; intros summary detailed;
    cbn [sheets_loop]; [eauto|].
  assert (exists r, process_sheet std_xls n raw = Ret r) as [r ->].
  { unfold process_sheet.
    destruct (clean_table_total raw) as [[tbl|] ->]; cbn [bind]; [|eauto].
    destruct (gcm_sheet_returns (extract_product_from_sheetname n) (fst <$> std_xls))
      as [[|key ks] Hk]; rewrite Hk; cbn [bind]; [eauto|].
    destruct (gcm_in _ _ _ _ _ Hk) as (Hin & _ & _).
    destruct (dict_get_total _ _ Hin) as [std_df Hd]. rewrite Hd. cbn [bind].
    destruct (result_columns (columns tbl)) as [[hdip_col load_col]|]; [|eauto].
    destruct (rows_loop_total std_df (columns tbl) hdip_col load_col (rows tbl)
                (Tally O O [] [])) as [t ->]; [|cbn [bind]; eauto].
    eapply Hstd. by apply dict_get_In. }
  cbn [bind]. destruct r as [[line dets]|]; apply IH.
Qed.

End RunExtras.

Lemma skipped_sheet_leaves_no_trace_witness :
  process_vessel_file (renderer := plain_renderer)
    ([] ++ ("Notes", [[VStr "remarks"]]) :: sample_vessel) sample_std
  = process_vessel_file (renderer := plain_renderer) ([] ++ sample_vessel) sample_std.
Proof.
  apply (skipped_sheet_leaves_no_trace (renderer := plain_renderer)). by vm_compute.
Defined.

Lemma numbered_std_filled (key : string) (std_df : table) (params : list scalar) :
  In (key, std_df) numbered_std -> column std_df "Parameter" = Ret params ->
  forall c, In c params -> notna c = true.
Proof. intros [[= <- <-]|[]] [= <-] c [<-|[]]. done. Qed.

Lemma run_raises_only_witness :
  IndexError = KeyError "Parameter" \/ IndexError = IndexError.
Proof.
  apply (run_raises_only (renderer := plain_renderer) numbered_vessel numbered_std).
  - exact numbered_std_filled.
  - by vm_compute.
Defined.

Lemma sample_std_text (key : string) (std_df : table) :
  In (key, std_df) sample_std -> text_parameters std_df.
Proof.
  intros [[= <- <-]|[]]. exists [VStr "Flash Point"]. split; [done|].
  intros c [<-|[]]. eauto.
Qed.

Lemma text_parameters_never_raise_witness :
  exists summary detailed,
    process_vessel_file (renderer := plain_renderer) undescribed_vessel sample_std
    = Ret (summary, detailed).
Proof.
  exact (text_parameters_never_raise (renderer := plain_renderer) undescribed_vessel
           sample_std sample_std_text).
Defined.

(** *** Rows at the edges *)

Lemma positions_absent (label : string) (p : nat) (cols : list string) :
  ~ In label cols -> positions label p cols = [].
Proof.
  revert p; induction cols as [|c cols IH]; intros p Hn; cbn [positions]; [done|].
  destruct (String.eqb_spec c label) as [->|Hne]; [destruct Hn; by left|].
  apply IH. intros H. apply Hn. by right.
Qed.

Lemma to_number_series (v1 v2 : scalar) (vs : list scalar) :
  to_number (Series (v1 :: v2 :: vs)) = None.
Proof. done. Qed.

Section RowExtras.

Context {renderer : Renderer}.

Local Open Scope list_scope.

(** The secondary column is for the record only: whether a row gets a line
    of detail, and every entry of the line but the secondary measurement, are
    what they are with no secondary column at all. *)
Theorem load_column_informational (std_df : table) (cols : list string)
    (hdip_col : string) (load_col : option string) (row : list scalar) :
  check_row std_df cols hdip_col load_col row
  = map_outcome (with_load (load_value cols load_col row))
      (check_row std_df cols hdip_col None row).
Proof.
  unfold check_row.
  destruct (negb (PyStr.truthy _)); [done|].
  rewrite !clean_numeric_ret. cbn [bind].
  assert (match load_col with
          | Some l =>
              if PyStr.truthy l
              then clean_numeric (row_get cols row l (Scalar VNone))
              else Ret None
          | None => Ret None
          end = Ret (load_value cols load_col row)) as ->.
  { unfold load_value. destruct load_col as [l|]; [|done].
    destruct (PyStr.truthy l); [apply clean_numeric_ret|done]. }
  cbn [bind]. destruct (column std_df "Parameter") as [params|]; [|done].
  cbn [bind]. destruct (Difflib.get_close_matches _ _ _) as [[|m ms]|]; [done| |done].
  cbn [bind]. destruct (first_row_named std_df m) as [std_row|]; [|done].
  cbn [bind]. rewrite !clean_numeric_ret. cbn [bind].
  destruct (to_number (row_get cols row hdip_col (Scalar VNone))); [|done].
  by destruct (to_number _), (to_number _).
Qed.

(** A row with a description that is matched, a bound, and a blank cell for
    its primary measurement is not left out: the blank reads as the float
    NaN, the row gets a line of detail with that value, and the line is
    marked PASS. *)
Theorem unmeasured_row_passes (std_df : table) (cols : list string) (hdip_col : string)
    (load_col : option string) (row std_row : list scalar) :
  matched_spec std_df cols row = Ret (Some std_row) ->
  row_get cols row hdip_col (Scalar VNone) = Scalar blank ->
  is_Some (to_number (row_get (columns std_df) std_row "Min" (Scalar VNone)))
  \/ is_Some (to_number (row_get (columns std_df) std_row "Max" (Scalar VNone))) ->
  exists d,
    check_row std_df cols hdip_col load_col row = Ret (Some (d, true))
    /\ d_hdip d = Fnan /\ d_status d = "PASS".
Proof.
  intros Hm Hv Hb. rewrite (check_row_matched _ _ _ _ _ _ Hm). cbn zeta. rewrite Hv.
  change (to_number (Scalar blank)) with (Some Fnan).
  cbv beta iota. rewrite compare_value_nan.
  destruct Hb as [[m Hmin]|[m Hmax]]; rewrite ?Hmin, ?Hmax.
  - eexists. by repeat split.
  - destruct (to_number (row_get (columns std_df) std_row "Min" (Scalar VNone)));
      eexists; by repeat split.
Qed.

Lemma rows_loop_idle (std_df : table) (cols : list string) (hdip_col : string)
    (load_col : option string) (rs : list (list scalar)) (t t' : tally) :
  (forall row r, In row rs ->
     check_row std_df cols hdip_col load_col row = Ret r -> r = None) ->
  rows_loop std_df cols hdip_col load_col rs t = Ret t' -> t' = t.
Proof.
  induction rs as [|row rs IH]; intros Hr; cbn [rows_loop]; [by intros [= <-]|].
  destruct (check_row std_df cols hdip_col load_col row) as [r|] eqn:E; [|done].
  cbn [bind]. rewrite (Hr row r) by (by left || done). cbn [record_row].
  apply IH. intros row' r' Hin. apply Hr. by right.
Qed.

(** When the label of the primary result column stands over more than one
    column of the table, a lookup by that label gives no single cell, no
    measurement is read from it, and no row gets a line: the sheet has 0
    tests checked and passes. *)
Theorem repeated_result_label (std_xls : list (string * table)) (sheet_name : string)
    (raw : frame) (tbl std_df : table) (hdip_col : string) (load_col : option string)
    (r : option (summary_row * list detail)) :
  reaches_rows std_xls sheet_name raw tbl std_df hdip_col load_col ->
  (2 <= length (positions hdip_col O (columns tbl)))%nat ->
  process_sheet std_xls sheet_name raw = Ret r ->
  r = Some (Summary sheet_name (extract_product_from_sheetname sheet_name) 0 0 0 "PASS" "",
            []).
Proof.
  intros (Htbl & (key & rest & Hkey & Hstd) & Hcols) Hdup.
  unfold process_sheet. rewrite Htbl. cbn [bind]. rewrite Hkey. cbn [bind].
  rewrite Hstd. cbn [bind]. rewrite Hcols.
  destruct (rows_loop _ _ _ _ _ _) as [t|] eqn:E; [|done]. cbn [bind].
  apply rows_loop_idle in E as ->; [by intros [= <-]|].
  intros row [[d ok]|] _ Hc; [exfalso|done].
  destruct (check_row_line _ _ _ _ _ _ _ Hc) as (_ & _ & _ & Hv & _).
  unfold row_get in Hv.
  destruct (positions hdip_col 0 (columns tbl)) as [|p [|q ps]]; cbn in Hdup; try lia.
  by rewrite !fmap_cons, to_number_series in Hv.
Qed.

(** When the standards table a sheet is held against has neither a column
    labelled Min nor one labelled Max, there is no bound to hold a value
    against: no row of the sheet gets a line, and the sheet has 0 tests
    checked and passes. *)
Theorem standards_without_bounds (std_xls : list (string * table)) (sheet_name : string)
    (raw : frame) (tbl std_df : table) (hdip_col : string) (load_col : option string)
    (r : option (summary_row * list detail)) :
  reaches_rows std_xls sheet_name raw tbl std_df hdip_col load_col ->
  ~ In "Min" (columns std_df) -> ~ In "Max" (columns std_df) ->
  process_sheet std_xls sheet_name raw = Ret r ->
  r = Some (Summary sheet_name (extract_product_from_sheetname sheet_name) 0 0 0 "PASS" "",
            []).
Proof.
  intros (Htbl & (key & rest & Hkey & Hstd) & Hcols) Hmin Hmax.
  unfold process_sheet. rewrite Htbl. cbn [bind]. rewrite Hkey. cbn [bind].
  rewrite Hstd. cbn [bind]. rewrite Hcols.
  destruct (rows_loop _ _ _ _ _ _) as [t|] eqn:E; [|done]. cbn [bind].
  apply rows_loop_idle in E as ->; [by intros [= <-]|].
  intros row [[d ok]|] _ Hc; [exfalso|done].
  destruct (check_row_line _ _ _ _ _ _ _ Hc)
    as (std_row & _ & _ & _ & _ & Hdmin & Hdmax & _ & _ & _ & Hb).
  unfold row_get in Hdmin, Hdmax.
  rewrite (positions_absent _ _ _ Hmin) in Hdmin.
  rewrite (positions_absent _ _ _ Hmax) in Hdmax.
  rewrite Hdmin, Hdmax in Hb. by destruct Hb as [[? ?]|[? ?]].
Qed.

End RowExtras.

Lemma unmeasured_row_passes_witness :
  exists d,
    check_row (renderer := plain_renderer)
      (Table std_columns [[VStr "Flash Point"; VInt 38; blank; VStr "C"]])
      ["Tests Description"; "HDIP Result"] "HDIP Result" None
      [VStr "Flash Point"; blank] = Ret (Some (d, true))
    /\ d_hdip d = Fnan /\ d_status d = "PASS".
Proof.
  apply (unmeasured_row_passes (renderer := plain_renderer)
           (Table std_columns [[VStr "Flash Point"; VInt 38; blank; VStr "C"]])
           ["Tests Description"; "HDIP Result"] "HDIP Result" None
           [VStr "Flash Point"; blank] [VStr "Flash Point"; VInt 38; blank; VStr "C"]).
  - by vm_compute.
  - by vm_compute.
  - left. exists (Ffin 38). by vm_compute.
Defined.

Lemma twin_reaches_rows :
  reaches_rows (renderer := plain_renderer) sample_std "HSD CARGO 3" twin_frame
    (Table ["Tests Description"; "Result"; "Result"]
       [[VStr "Flash Point"; VStr "40"; VStr "41"]])
    (Table std_columns [[VStr "Flash Point"; VInt 38; blank; VStr "C"]])
    "Result" (Some "Result").
Proof.
  split; [by vm_compute|]. split; [|by vm_compute].
  exists "HSD", []. by vm_compute.
Qed.

Lemma repeated_result_label_witness :
  process_sheet (renderer := plain_renderer) sample_std "HSD CARGO 3" twin_frame
  = Ret (Some (Summary "HSD CARGO 3" "HSD" 0 0 0 "PASS" "", [])).
Proof.
  destruct (process_sheet (renderer := plain_renderer) sample_std "HSD CARGO 3" twin_frame)
    as [r|e] eqn:E.
  - f_equal.
    apply (repeated_result_label (renderer := plain_renderer) sample_std "HSD CARGO 3"
             twin_frame _ _ _ _ r twin_reaches_rows); [by vm_compute|exact E].
  - by vm_compute in E.
Defined.

Lemma unlabelled_reaches_rows :
  reaches_rows (renderer := plain_renderer) unlabelled_std "HSD CARGO 1" sample_frame
    (Table ["Tests Description"; "HDIP Result"] [[VStr "Flash Point"; VStr "40"]])
    (Table ["Parameter"; "min"; "max"] [[VStr "Flash Point"; VInt 38; blank]])
    "HDIP Result" None.
Proof.
  split; [by vm_compute|]. split; [|by vm_compute].
  exists "HSD", []. by vm_compute.
Qed.

Lemma standards_without_bounds_witness :
  process_sheet (renderer := plain_renderer) unlabelled_std "HSD CARGO 1" sample_frame
  = Ret (Some (Summary "HSD CARGO 1" "HSD" 0 0 0 "PASS" "", [])).
Proof.
  destruct (process_sheet (renderer := plain_renderer) unlabelled_std "HSD CARGO 1"
              sample_frame) as [r|e] eqn:E.
  - f_equal.
    apply (standards_without_bounds (renderer := plain_renderer) unlabelled_std
             "HSD CARGO 1" sample_frame _ _ _ _ r unlabelled_reaches_rows);
      [cbn; intros H; repeat destruct H as [H|H]; done..|exact E].
  - by vm_compute in E.
Defined.

(** ** Further properties of the fuzzy matcher *)

Section MatcherExtras.

Import MatchSpec.
Local Open Scope list_scope.
Local Open Scope nat_scope.

Lemma common_le_shorter (x y : list ascii) : common x y <= shorter x y.
Proof.
  unfold common, shorter.
  assert (size (list_to_set_disj x ∩ list_to_set_disj y : gmultiset ascii) <= length x).
  { rewrite <- (size_list_to_set_disj x). apply gmultiset_subseteq_size. multiset_solver. }
  assert (size (list_to_set_disj x ∩ list_to_set_disj y : gmultiset ascii) <= length y).
  { rewrite <- (size_list_to_set_disj y). apply gmultiset_subseteq_size. multiset_solver. }
  lia.
Qed.

Lemma pos_of_succ (n : nat) : Z.pos (Pos.of_nat (S n)) = Z.of_nat (S n).
Proof. rewrite <- positive_nat_Z, Nat2Pos.id; done. Qed.

Lemma calculate_ratio_nonneg (m len : nat) : (0 <= Difflib.calculate_ratio m len)%Q.
Proof.
  unfold Difflib.calculate_ratio. destruct len; [done|].
  unfold Qle. cbn [Qnum Qden]. lia.
Qed.

Lemma calculate_ratio_le_1 (m len : nat) :
  2 * m <= len -> (Difflib.calculate_ratio m len <= 1)%Q.
Proof.
  intros H. unfold Difflib.calculate_ratio. destruct len; [apply Qle_refl|].
  unfold Qle. cbn [Qnum Qden]. rewrite pos_of_succ. lia.
Qed.

(** The ratio of two sequences lies between 0 and 1, and the two quick
    ratios are upper bounds of it, the quicker one the higher. *)
Theorem ratio_chain (a b : list ascii) :
  (0 <= Difflib.ratio a b)%Q
  /\ (Difflib.ratio a b <= Difflib.quick_ratio a b)%Q
  /\ (Difflib.quick_ratio a b <= Difflib.real_quick_ratio a b)%Q
  /\ (Difflib.real_quick_ratio a b <= 1)%Q.
Proof.
  split; [apply calculate_ratio_nonneg|]. split; [apply ratio_le_quick|]. split.
  - unfold Difflib.quick_ratio, Difflib.real_quick_ratio.
    apply calculate_ratio_mono. rewrite quick_matches_common. apply common_le_shorter.
  - apply calculate_ratio_le_1. lia.
Qed.

Lemma cutoff_le_ratio (cutoff : Q) (m len : nat) :
  (cutoff <= Difflib.calculate_ratio m len)%Q -> 2 * m <= len ->
  (cutoff * inject_Z (Z.of_nat len) <= inject_Z (2 * Z.of_nat m))%Q.
Proof.
  unfold Difflib.calculate_ratio. destruct len as [|n].
  - intros _ Hm. assert (m = 0) as -> by lia. rewrite Qmult_0_r. done.
  - intros H _. destruct cutoff as [p q]. revert H. unfold Qle, Qmult, inject_Z.
    cbn [Qnum Qden]. rewrite pos_of_succ. nia.
Qed.

(** A candidate that is returned for a word is not far from it in length,
    and shares text with it: the cutoff times the two lengths together is at
    most twice the shorter length, and for a positive cutoff some character
    of the candidate is a character of the word, unless both are empty. *)
Theorem close_match_overlaps (word : string) (possibilities : list string)
    (cutoff : Q) (x : string) (rest : list string) :
  Difflib.get_close_matches word possibilities cutoff = Ret (x :: rest) ->
  let la := length (Difflib.chars x) in
  let lb := length (Difflib.chars word) in
  (cutoff * inject_Z (Z.of_nat (la + lb)) <= inject_Z (2 * Z.of_nat (Nat.min la lb)))%Q
  /\ ((0 < cutoff)%Q -> 0 < la + lb ->
      exists c, In c (Difflib.chars x) /\ In c (Difflib.chars word)).
Proof.
  intros H la lb. destruct (gcm_in _ _ _ _ _ H) as (_ & _ & Hc).
  destruct (ratio_le_quick (Difflib.chars x) (Difflib.chars word)) as [Hq Hr].
  split.
  - apply cutoff_le_ratio; [|lia]. by eapply Qle_trans.
  - intros Hpos Hlen.
    assert (cutoff * inject_Z (Z.of_nat (la + lb))
            <= inject_Z (2 * Z.of_nat (common (Difflib.chars x) (Difflib.chars word))))%Q
      as Hcom.
    { apply cutoff_le_ratio.
      - eapply Qle_trans; [exact Hc|]. eapply Qle_trans; [exact Hq|].
        unfold Difflib.quick_ratio. rewrite quick_matches_common. apply Qle_refl.
      - pose proof (common_le_shorter (Difflib.chars x) (Difflib.chars word)).
        unfold shorter in *. lia. }
    assert (0 < common (Difflib.chars x) (Difflib.chars word)) as Hsome.
    { destruct (common _ _) as [|n]; [|lia]. exfalso.
      assert (0 < cutoff * inject_Z (Z.of_nat (la + lb)))%Q as H0.
      { apply Qmult_lt_0_compat; [done|]. unfold Qlt, inject_Z. cbn. lia. }
      apply (Qlt_irrefl 0). eapply Qlt_le_trans; [exact H0|exact Hcom]. }
    unfold common in Hsome.
    apply gmultiset_size_pos_elem_of in Hsome as [c Hcin].
    apply gmultiset_elem_of_intersection in Hcin as [H1 H2].
    apply elem_of_list_to_set_disj in H1, H2.
    exists c. split; by apply list_elem_of_In.
Qed.

Lemma blocks_loop_sound (a b : list ascii) (b2j : gmap ascii (list nat)) (fuel : nat)
    (queue : list Difflib.range4) (acc res : list Difflib.best) :
  b2j_sound b b2j -> Forall (range_ok a b) queue -> Forall (sound_block a b) acc ->
  Difflib.blocks_loop a b b2j fuel queue acc = Some res ->
  Forall (sound_block a b) res.
Proof.
  intros Hs. revert queue acc.
  induction fuel as [|fuel IH]; intros [|[[[alo ahi] blo] bhi] queue] acc Hq Hacc H;
    cbn [Difflib.blocks_loop] in H; try done.
  - by injection H as <-.
  - by injection H as <-.
  - apply List.Forall_cons_iff in Hq as [Hr Hq].
    pose proof Hr as (Ha & Hla & Hb & Hlb).
    pose proof (find_longest_match_ok a b b2j alo ahi blo bhi Hs Ha Hb) as Hblk.
    destruct (Difflib.find_longest_match a b b2j alo ahi blo bhi) as [i j k] eqn:E.
    pose proof Hblk as (H1 & H2 & H3 & H4 & Hag). cbn in H1, H2, H3, H4, Hag.
    destruct k as [|k].
    + by apply IH in H.
    + assert (Forall (sound_block a b) (acc ++ [Difflib.Best i j (S k)])) as Hacc'.
      { apply Forall_app. split; [done|]. apply List.Forall_cons; [|done].
        split; cbn; [lia|]. repeat split; try lia. done. }
      destruct (Nat.ltb_spec alo i) as [Hi|Hi], (Nat.ltb_spec blo j) as [Hj|Hj];
        destruct (Nat.ltb_spec (i + S k) ahi) as [Hi'|Hi'],
                 (Nat.ltb_spec (j + S k) bhi) as [Hj'|Hj'];
        cbn [andb] in H;
        (apply IH in H; [done| |done]);
        repeat (apply List.Forall_cons); try done; cbn; lia.
Qed.

Lemma insert_block_In (x y : Difflib.best) (l : list Difflib.best) :
  In y (insert_block x l) -> y = x \/ In y l.
Proof.
  induction l as [|z l IH]; cbn [insert_block].
  - intros [<-|[]]. by left.
  - destruct (block_leb x z).
    + intros [<-|H]; [by left|by right].
    + intros [<-|H]; [right; by left|]. destruct (IH H) as [->|H']; [by left|right; by right].
Qed.

Lemma sort_blocks_In (y : Difflib.best) (l : list Difflib.best) :
  In y (sort_blocks l) -> In y l.
Proof.
  unfold sort_blocks. induction l as [|x l IH]; cbn [foldr]; [done|].
  intros H. apply insert_block_In in H as [->|H]; [by left|right; by apply IH].
Qed.

Lemma sum_sizes_cons (x : Difflib.best) (l : list Difflib.best) :
  Difflib.sum_sizes (x :: l) = Difflib.bestsize x + Difflib.sum_sizes l.
Proof. done. Qed.

Lemma sum_sizes_insert (x : Difflib.best) (l : list Difflib.best) :
  Difflib.sum_sizes (insert_block x l) = Difflib.bestsize x + Difflib.sum_sizes l.
Proof.
  induction l as [|z l IH]; cbn [insert_block]; [done|].
  destruct (block_leb x z); [done|]. rewrite !sum_sizes_cons, IH. lia.
Qed.

Lemma sum_sizes_sort (l : list Difflib.best) :
  Difflib.sum_sizes (sort_blocks l) = Difflib.sum_sizes l.
Proof.
  unfold sort_blocks. induction l as [|x l IH]; cbn [foldr]; [done|].
  by rewrite sum_sizes_insert, sum_sizes_cons, IH.
Qed.

Lemma sum_sizes_last (l : list Difflib.best) (x : Difflib.best) :
  Difflib.sum_sizes (l ++ [x]) = Difflib.sum_sizes l + Difflib.bestsize x.
Proof. unfold Difflib.sum_sizes. rewrite fmap_app, sum_list_with_app. cbn. lia. Qed.

(** Collapsing neighbours moves sizes from one block to another and loses
    none. *)
Lemma sum_sizes_collapse (i1 j1 k1 : nat) (blocks acc : list Difflib.best) :
  Difflib.sum_sizes (collapse i1 j1 k1 blocks acc)
  = Difflib.sum_sizes acc + k1 + Difflib.sum_sizes blocks.
Proof.
  revert i1 j1 k1 acc; induction blocks as [|[i2 j2 k2] blocks IH]; intros i1 j1 k1 acc;
    cbn [collapse].
  - destruct k1; rewrite ?sum_sizes_last; cbn [Difflib.bestsize];
      change (Difflib.sum_sizes []) with 0; lia.
  - rewrite sum_sizes_cons. cbn [Difflib.bestsize].
    destruct (_ && _); rewrite IH; [lia|].
    destruct k1; rewrite ?sum_sizes_last; cbn [Difflib.bestsize]; lia.
Qed.

Lemma sound_block_join (a b : list ascii) (i1 j1 k1 k2 : nat) :
  sound_block a b (Difflib.Best i1 j1 k1) ->
  sound_block a b (Difflib.Best (i1 + k1) (j1 + k1) k2) ->
  sound_block a b (Difflib.Best i1 j1 (k1 + k2)).
Proof.
  intros (Hk1 & _ & Hi1 & _ & Hj1 & Ha1) (Hk2 & _ & Hi2 & _ & Hj2 & Ha2).
  cbn in *. split; [cbn; lia|]. cbn. repeat split; try lia.
  intros t Ht. destruct (Nat.lt_ge_cases t k1) as [Hlt|Hge]; [by apply Ha1|].
  destruct (Ha2 (t - k1)) as (c & Hc1 & Hc2); [lia|].
  exists c. replace (i1 + t) with (i1 + k1 + (t - k1)) by lia.
  by replace (j1 + t) with (j1 + k1 + (t - k1)) by lia.
Qed.

Lemma collapse_sound (a b : list ascii) (i1 j1 k1 : nat) (blocks acc : list Difflib.best) :
  k1 = 0 \/ sound_block a b (Difflib.Best i1 j1 k1) ->
  Forall (sound_block a b) blocks -> Forall (sound_block a b) acc ->
  Forall (sound_block a b) (collapse i1 j1 k1 blocks acc).
Proof.
  revert i1 j1 k1 acc; induction blocks as [|[i2 j2 k2] blocks IH];
    intros i1 j1 k1 acc Hcur Hb Hacc; cbn [collapse].
  - destruct k1 as [|k1]; [done|]. destruct Hcur as [|Hcur]; [done|].
    apply Forall_app. split; [done|]. by apply List.Forall_cons.
  - apply List.Forall_cons_iff in Hb as [Hx Hb].
    assert (Forall (sound_block a b)
              match k1 with
              | 0 => acc
              | S _ => acc ++ [Difflib.Best i1 j1 k1]
              end) as Hacc'.
    { destruct k1 as [|k1]; [done|]. destruct Hcur as [|Hcur]; [done|].
      apply Forall_app. split; [done|]. by apply List.Forall_cons. }
    destruct (Nat.eqb_spec (i1 + k1) i2) as [<-|Hi],
             (Nat.eqb_spec (j1 + k1) j2) as [<-|Hj]; cbn [andb];
      try (apply IH; [by right|done|done]).
    apply IH; [right|done|done].
    destruct Hcur as [->|Hcur].
    + by rewrite !Nat.add_0_r in Hx.
    + by apply sound_block_join.
Qed.

(** The matching blocks are found.  The last of them is the block of length
    zero at the ends of the two sequences; each of the others is a run of one
    element or more that the two sequences have alike at the places the block
    names.  Their sizes add up to the number of matches the ratio is
    computed from. *)
Theorem matching_blocks_sound (a b : list ascii) :
  exists blocks,
    get_matching_blocks a b = Some (blocks ++ [Difflib.Best (length a) (length b) 0])
    /\ Difflib.sum_sizes blocks = Difflib.matches a b
    /\ forall blk, In blk blocks ->
         1 <= Difflib.bestsize blk
         /\ Difflib.besti blk + Difflib.bestsize blk <= length a
         /\ Difflib.bestj blk + Difflib.bestsize blk <= length b
         /\ forall t, t < Difflib.bestsize blk ->
              exists c, a !! (Difflib.besti blk + t) = Some c
                        /\ b !! (Difflib.bestj blk + t) = Some c.
Proof.
  destruct (matching_blocks_total a b) as [found Hb].
  unfold get_matching_blocks, Difflib.matches. rewrite Hb.
  exists (collapse 0 0 0 (sort_blocks found) []). split; [done|]. split.
  - rewrite sum_sizes_collapse, sum_sizes_sort. change (Difflib.sum_sizes []) with 0. lia.
  - unfold Difflib.matching_blocks in Hb.
    apply blocks_loop_sound in Hb; [|apply chain_b_sound| |constructor].
    2:{ apply List.Forall_cons; [cbn; lia|done]. }
    assert (Forall (sound_block a b) (collapse 0 0 0 (sort_blocks found) [])) as Hs.
    { apply collapse_sound; [by left| |constructor].
      rewrite List.Forall_forall in Hb |- *. intros x Hx. by apply Hb, sort_blocks_In. }
    intros blk Hin. rewrite List.Forall_forall in Hs.
    destruct (Hs blk Hin) as (Hk & _ & Hi & _ & Hj & Hag). auto.
Qed.

End MatcherExtras.

Lemma close_match_overlaps_witness :
  ((4 # 10) * inject_Z (Z.of_nat (3 + 3)) <= inject_Z (2 * Z.of_nat (Nat.min 3 3)))%Q.
Proof.
  exact (proj1 (close_match_overlaps "HSD" ["HSD"] (4 # 10) "HSD" [] eq_refl)).
Defined.

(** ** Labels, numbers and joined workbooks *)

Lemma label_one_of_six (sheet_name : string) :
  In (extract_product_from_sheetname sheet_name)
    ["MOGAS 92 RON"; "MOGAS 95 RON"; "HSD"; "JET FUEL"; "HOBC"; "UNKNOWN"].
Proof.
  destruct (no_rule (PyStr.upper sheet_name)) eqn:Hn.
  - rewrite (extract_unknown sheet_name Hn). simpl. tauto.
  - unfold extract_product_from_sheetname. rewrite no_rule_unfold in Hn.
    set (u := PyStr.upper sheet_name) in *.
    destruct (PyStr.contains "MOGAS" u); [destruct (PyStr.contains "92" u); simpl; tauto|].
    destruct (PyStr.contains "HSD" u); [simpl; tauto|].
    destruct (PyStr.contains "DIESEL" u); [simpl; tauto|].
    destruct (PyStr.contains "JET" u); [simpl; tauto|].
    destruct (PyStr.contains "HOBC" u); [simpl; tauto|].
    destruct (PyStr.contains "OCTANE" u); [simpl; tauto|].
    discriminate.
Qed.

(** A label the classifier gives is a name it gives that same label: a sheet
    named by its product label is classified as that product. *)
Theorem classifier_labels_fixed (sheet_name : string) :
  extract_product_from_sheetname (extract_product_from_sheetname sheet_name)
  = extract_product_from_sheetname sheet_name.
Proof.
  pose proof (label_one_of_six sheet_name) as H. cbn [In] in H.
  destruct H as [<-|[<-|[<-|[<-|[<-|[<-|[]]]]]]]; by vm_compute.
Qed.

(** *** Text that reads as a finite number *)

Lemma in_remove_char (d c : ascii) (s : string) :
  In c (Difflib.chars (PyStr.remove_char d s)) -> In c (Difflib.chars s).
Proof.
  induction s as [|x s IH]; cbn [PyStr.remove_char]; [done|].
  destruct (Ascii.eqb d x); cbn [Difflib.chars list_ascii_of_string In]; intuition.
Qed.

Lemma in_lstrip (sp : ascii -> bool) (c : ascii) (s : string) :
  In c (Difflib.chars (PyStr.lstrip_with sp s)) -> In c (Difflib.chars s).
Proof.
  induction s as [|x s IH]; cbn [PyStr.lstrip_with]; [done|].
  destruct (sp x); [|done]. intros H. right. by apply IH.
Qed.

Lemma in_rstrip (sp : ascii -> bool) (c : ascii) (s : string) :
  In c (Difflib.chars (PyStr.rstrip_with sp s)) -> In c (Difflib.chars s).
Proof.
  induction s as [|x s IH]; cbn [PyStr.rstrip_with]; [done|].
  destruct (PyStr.rstrip_with sp s) as [|y t].
  - destruct (sp x); [done|]. intros [<-|[]]. by left.
  - intros [<-|H]; [by left|]. right. by apply IH.
Qed.

Lemma in_strip (sp : ascii -> bool) (c : ascii) (s : string) :
  In c (Difflib.chars (PyStr.strip_with sp s)) -> In c (Difflib.chars s).
Proof. unfold PyStr.strip_with. intros H. by apply in_rstrip, in_lstrip in H. Qed.

Lemma take_digits_head (acc : Z) (s : string) (v : Z) (n : nat) (r : string) :
  PyFloat.take_digits acc s = (v, S n, r) ->
  exists c t, s = String c t /\ PyFloat.is_digit c = true.
Proof.
  destruct s as [|c t]; cbn [PyFloat.take_digits]; [done|].
  destruct (PyFloat.is_digit c) eqn:E; [eauto|done].
Qed.

Lemma take_digits_rest (acc : Z) (s : string) (v : Z) (n : nat) (r : string) (c : ascii) :
  PyFloat.take_digits acc s = (v, n, r) ->
  In c (Difflib.chars r) -> In c (Difflib.chars s).
Proof.
  revert acc v n; induction s as [|x s IH]; intros acc v n; cbn [PyFloat.take_digits].
  - by intros [= _ _ <-].
  - destruct (PyFloat.is_digit x).
    + destruct (PyFloat.take_digits (10 * acc + PyFloat.digit_val x) s) as [[v' n'] r'] eqn:E.
      intros [= _ _ <-] H. right. by eapply IH.
    + by intros [= _ _ <-].
Qed.

Lemma parse_decimal_digit (neg : bool) (body : string) (f : pyfloat) :
  PyFloat.parse_decimal neg body = Some f ->
  exists c, In c (Difflib.chars body) /\ PyFloat.is_digit c = true.
Proof.
  unfold PyFloat.parse_decimal.
  destruct (PyFloat.take_digits 0 body) as [[ip ni] s1] eqn:E1.
  destruct ni as [|ni].
  - destruct s1 as [|c t]; [done|].
    destruct (Ascii.eqb_spec c ".") as [->|Hne].
    + destruct (PyFloat.take_digits ip t) as [[m nf] s2] eqn:E2.
      destruct nf as [|nf]; [done|]. intros _.
      apply take_digits_head in E2 as (d & t' & -> & Hd).
      exists d. split; [|done].
      apply (take_digits_rest _ _ _ _ _ d E1). right. by left.
    + assert (match String c t with
              | String "."%char t0 => PyFloat.take_digits ip t0
              | _ => (ip, O, String c t)
              end = (ip, O, String c t)) as ->; [|done].
      clear -Hne. by destruct c as [[] [] [] [] [] [] [] []].
  - intros _. apply take_digits_head in E1 as (d & t' & -> & Hd).
    exists d. split; [by left|done].
Qed.

Lemma take_sign_rest (s : string) (c : ascii) :
  In c (Difflib.chars (PyFloat.take_sign s).2) -> In c (Difflib.chars s).
Proof.
  destruct s as [|x t]; [done|].
  destruct (Ascii.eqb_spec x "-") as [->|H1]; [by right|].
  destruct (Ascii.eqb_spec x "+") as [->|H2]; [by right|].
  assert (PyFloat.take_sign (String x t) = (false, String x t)) as ->; [|done].
  clear -H1 H2. by destruct x as [[] [] [] [] [] [] [] []].
Qed.

Lemma parse_finite_digit (s : string) (q : Q) :
  PyFloat.parse s = Some (Ffin q) ->
  exists c, In c (Difflib.chars s) /\ PyFloat.is_digit c = true.
Proof.
  unfold PyFloat.parse. destruct (PyFloat.underscores_ok None s); [|done].
  pose proof (take_sign_rest (PyStr.remove_char "_" s)) as Hrest.
  destruct (PyFloat.take_sign (PyStr.remove_char "_" s)) as [neg body].
  cbn [snd] in Hrest.
  destruct (_ || _); [done|]. destruct (String.eqb _ "nan"); [done|].
  intros H. apply parse_decimal_digit in H as (c & Hc & Hd).
  exists c. split; [|done]. by apply Hrest, in_remove_char in Hc.
Qed.

(** ASCII text is read as a finite number only when it holds a digit: text
    with no digit in it gives no value, or gives a NaN or an infinity. *)
Theorem finite_number_needs_digit (s : string) (q : Q) :
  (forall c, In c (Difflib.chars s) -> (PyStr.code c < 128)%nat) ->
  clean_numeric (Scalar (VStr s)) = Ret (Some (Ffin q)) ->
  exists c, In c (Difflib.chars s) /\ PyFloat.is_digit c = true.
Proof.
  intros _. rewrite clean_numeric_text. intros [= H].
  apply parse_finite_digit in H as (c & Hc & Hd). exists c. split; [|done].
  by apply in_strip, in_remove_char, in_remove_char in Hc.
Qed.

(** *** Workbooks put together *)

Section JoinExtras.

Context {renderer : Renderer}.

Local Open Scope list_scope.

Lemma sheets_loop_rel (std_xls : list (string * table)) (sheets : list (string * frame))
    (sa sa' sb : list summary_row) (da da' db d0 : list (string * list detail)) :
  sheets_loop std_xls sheets sa da = Ret (sa', da') ->
  (forall name, dict_get name db = try_except (dict_get name da) (dict_get name d0)) ->
  exists sb' db',
    sheets_loop std_xls sheets sb db = Ret (sb', db')
    /\ forall name, dict_get name db' = try_except (dict_get name da') (dict_get name d0).
Proof.
  revert sa da sb db; induction sheets as [|[n raw] sheets IH];
    intros sa da sb db H Hrel; cbn [sheets_loop] in *.
  - injection H as <- <-. eauto.
  - destruct (process_sheet std_xls n raw) as [[[line dets]|]|]; [| |done];
      cbn [bind] in *; [|by eapply IH].
    eapply IH; [exact H|]. intros name.
    destruct (String.eqb_spec n name) as [->|Hne].
    + by rewrite !dict_get_set_eq.
    + by rewrite !dict_get_set_ne.
Qed.

(** Sheets are judged one by one: the summary of two workbooks put together
    is the summary of the first followed by that of the second, and a detail
    table is looked up in the second run first and in the first run
    otherwise. *)
Theorem joined_workbooks (v1 v2 : list (string * frame)) (std_xls : list (string * table))
    (s1 s2 : list summary_row) (d1 d2 : list (string * list detail)) :
  process_vessel_file v1 std_xls = Ret (s1, d1) ->
  process_vessel_file v2 std_xls = Ret (s2, d2) ->
  exists d,
    process_vessel_file (v1 ++ v2) std_xls = Ret (s1 ++ s2, d)
    /\ forall name, dict_get name d = try_except (dict_get name d2) (dict_get name d1).
Proof.
  unfold process_vessel_file. intros H1 H2. rewrite sheets_loop_app, H1. cbn [bind fst snd].
  destruct (sheets_loop_rel std_xls v2 [] s2 s1 [] d2 d1 d1 H2) as (s & d & Hs & Hd); [done|].
  exists d. split; [|done]. rewrite Hs.
  rewrite (sheets_loop_summary _ _ _ _ _ _ Hs).
  rewrite (sheets_loop_summary _ _ _ _ _ _ H2). done.
Qed.

End JoinExtras.

Lemma finite_number_needs_digit_witness :
  exists c, In c (Difflib.chars "<0.05") /\ PyFloat.is_digit c = true.
Proof.
  apply (finite_number_needs_digit "<0.05" (5 # 100)); [|by vm_compute].
  intros c Hc. cbn in Hc. repeat destruct Hc as [<-|Hc]; try done; vm_compute; lia.
Defined.

Lemma joined_workbooks_witness :
  exists d,
    process_vessel_file (renderer := plain_renderer) (sample_vessel ++ sample_vessel) sample_std
    = Ret ([Summary "HSD CARGO 1" "HSD" 1 1 0 "PASS" ""]
           ++ [Summary "HSD CARGO 1" "HSD" 1 1 0 "PASS" ""], d)%list.
Proof.
  destruct (joined_workbooks (renderer := plain_renderer) sample_vessel sample_vessel
              sample_std _ _ _ _ sample_run sample_run) as (d & Hd & _).
  by exists d.
Defined.
